(** * agent-insights-hub: filter extraction and stage pipeline

    A shallow embedding of the deterministic filter extractors
    (scripts/metadata-filters.ts), of the tracing helpers
    (utils/handit-tracing.ts) and of the event steps of the agent-chat flow
    (steps/*.step.ts), with the properties of the design document stated
    over them; then of the API step, of the example workflow
    (examples/traced-agent.ts) and of the upload script
    (scripts/pinecone-data-upload.ts, from the parsed records on), with
    further properties read off the code.

    Conventions.
    - A JavaScript string is a [string]: a sequence of code units below 256
      (the Latin-1 range), on which [toLowerCase] is the Unicode lower-casing.
    - A JavaScript object is an association list in insertion order, the
      order in which [Object.keys] and [Object.entries] enumerate the keys
      that are no array index, as are all the keys the code names.
    - An [await]ed call to a collaborator (embedding, completion, vector
      store, tracing backend) is a value of [result]: it returns or throws.
      The outcomes are gathered in a record per step, and every theorem
      quantifies over them.
    - [emit] and the logger are the transport of the flow and do not throw;
      a handler is a computation in the monad [M] whose state is the list of
      events emitted so far. *)

From Stdlib Require Import String Ascii List ZArith Bool Lia.
Import ListNotations.
Local Open Scope string_scope.
Local Open Scope list_scope.

(* ------------------------------------------------------------------ *)
(** ** JavaScript values *)

Module Js.

Set Warnings "-register-all".

Inductive value : Type :=
| VUndefined
| VNull
| VBool (b : bool)
| VNum (n : Z)
| VStr (s : string)
| VObj (props : list (string * value))
| VArr (items : list value) (props : list (string * value)).

Definition obj := list (string * value).

(** [!!v]: the only falsy values are undefined, null, false, 0 and ''. *)
Definition truthy (v : value) : bool :=
  match v with
  | VUndefined | VNull => false
  | VBool b => b
  | VNum n => negb (n =? 0)%Z
  | VStr s => negb (s =? "")
  | VObj _ | VArr _ _ => true
  end.

(** [o[k]] on an object: undefined when the key is absent. *)
Fixpoint get_prop (k : string) (o : obj) : value :=
  match o with
  | [] => VUndefined
  | (k', v) :: o' => if k' =? k then v else get_prop k o'
  end.

Fixpoint has_prop (k : string) (o : obj) : bool :=
  match o with
  | [] => false
  | (k', _) :: o' => (k' =? k) || has_prop k o'
  end.

(** [o[k] = v]: an existing key keeps its place, a new key goes last. *)
Fixpoint set_prop (k : string) (v : value) (o : obj) : obj :=
  match o with
  | [] => [(k, v)]
  | (k', v') :: o' =>
      if k' =? k then (k, v) :: o' else (k', v') :: set_prop k v o'
  end.

(** [Object.assign(target, source)]. *)
Definition assign (target source : obj) : obj :=
  fold_left (fun t kv => set_prop (fst kv) (snd kv) t) source target.

Definition keys (o : obj) : list string := map fst o.

(** [a || b]. *)
Definition or_else (a b : value) : value := if truthy a then a else b.

Definition of_opt_str (s : option string) : value :=
  match s with Some x => VStr x | None => VUndefined end.

(** A thrown JavaScript value: an [Error] with its message, or anything
    else. *)
Inductive exn : Type :=
| JsError (message : string)
| JsThrown (v : value).

Inductive result (A : Type) : Type :=
| Ok (a : A)
| Throw (e : exn).
Arguments Ok {A} a.
Arguments Throw {A} e.

(** Property read [v.k] for a name [k] that is no index and no built-in:
    a TypeError on undefined and null, undefined on the other primitives,
    and on an array the property written on it, if any. *)
Definition member (v : value) (k : string) : result value :=
  match v with
  | VUndefined =>
      Throw (JsError ("Cannot read properties of undefined (reading '" ++ k ++ "')"))
  | VNull =>
      Throw (JsError ("Cannot read properties of null (reading '" ++ k ++ "')"))
  | VObj o => Ok (get_prop k o)
  | VArr _ o => Ok (get_prop k o)
  | _ => Ok VUndefined
  end.

(** Optional chaining [v?.k]. *)
Definition member_opt (v : value) (k : string) : value :=
  match v with
  | VObj o => get_prop k o
  | VArr _ o => get_prop k o
  | _ => VUndefined
  end.

(** Property write [v.k = x] in strict mode (every file is a module): a
    TypeError on anything that is not an object. *)
Definition assign_member (v : value) (k : string) (x : value) : result value :=
  match v with
  | VObj o => Ok (VObj (set_prop k x o))
  | VArr l o => Ok (VArr l (set_prop k x o))
  | _ => Throw (JsError ("Cannot create property '" ++ k ++ "'"))
  end.

(** Sequencing of two operations that return or throw. *)
Definition and_then {A B} (r : result A) (k : A -> result B) : result B :=
  match r with
  | Ok a => k a
  | Throw e => Throw e
  end.

(** [a && a.k]: the property is read only on a truthy [a]. *)
Definition and_member (a : value) (k : string) : result value :=
  if truthy a then member a k else Ok a.

End Js.
Import Js.

Declare Scope res_scope.
Delimit Scope res_scope with res.
Notation "x <- m ;; k" := (and_then m (fun x => k))
  (at level 61, m at next level, right associativity) : res_scope.

(* ------------------------------------------------------------------ *)
(** ** Strings and the two regular expressions *)

Module Str.

Definition code (c : ascii) : N := N_of_ascii c.

Definition is_digit (c : ascii) : bool :=
  ((48 <=? code c) && (code c <=? 57))%N.

(** [\w] without the unicode flag: [A-Za-z0-9_]. *)
Definition is_word (c : ascii) : bool :=
  (is_digit c
   || ((65 <=? code c) && (code c <=? 90))
   || ((97 <=? code c) && (code c <=? 122))
   || (code c =? 95))%N.

(** Lower-casing of one code unit below 256: A-Z, and the Latin-1 capitals
    U+00C0..U+00DE except the multiplication sign U+00D7. *)
Definition lower_char (c : ascii) : ascii :=
  let n := code c in
  if (((65 <=? n) && (n <=? 90))
      || ((192 <=? n) && (n <=? 222) && negb (n =? 215)))%N
  then ascii_of_N (n + 32) else c.

Fixpoint toLowerCase (s : string) : string :=
  match s with
  | EmptyString => EmptyString
  | String c s' => String (lower_char c) (toLowerCase s')
  end.

(** [s.includes(pat)]. *)
Fixpoint includes (s pat : string) : bool :=
  prefix pat s ||
  match s with
  | EmptyString => false
  | String _ s' => includes s' pat
  end.

(** A regular expression without repetition: one character class per
    position. *)
Inductive cls : Type :=
| Digit
| Lit (c : ascii).

Definition cls_ok (p : cls) (c : ascii) : bool :=
  match p with
  | Digit => is_digit c
  | Lit d => Ascii.eqb c d
  end.

(** Match the classes at the head of [s]: the matched text and the rest. *)
Fixpoint match_here (p : list cls) (s : string) : option (string * string) :=
  match p with
  | [] => Some (EmptyString, s)
  | k :: p' =>
      match s with
      | EmptyString => None
      | String c s' =>
          if cls_ok k c then
            match match_here p' s' with
            | Some (m, r) => Some (String c m, r)
            | None => None
            end
          else None
      end
  end.

(** /(\d{4}-\d{2}-\d{2})/ *)
Definition iso_pattern : list cls :=
  [Digit; Digit; Digit; Digit; Lit "-"; Digit; Digit; Lit "-"; Digit; Digit].

(** [s.match(/(\d{4}-\d{2}-\d{2})/)]: group 1 of the leftmost match. *)
Fixpoint match_iso_date (s : string) : option string :=
  match match_here iso_pattern s with
  | Some (m, _) => Some m
  | None =>
      match s with
      | EmptyString => None
      | String _ s' => match_iso_date s'
      end
  end.

(** /\b(20\d{2})\b/ *)
Definition year_pattern : list cls := [Lit "2"; Lit "0"; Digit; Digit].

Definition boundary_after (r : string) : bool :=
  match r with
  | EmptyString => true
  | String c _ => negb (is_word c)
  end.

(** The year expression tried at the head of [s], the character before
    being a word character or not. *)
Definition year_here (prev_word : bool) (s : string) : option string :=
  if prev_word then None
  else match match_here year_pattern s with
       | Some (m, r) => if boundary_after r then Some m else None
       | None => None
       end.

Fixpoint match_year_from (prev_word : bool) (s : string) : option string :=
  match year_here prev_word s with
  | Some m => Some m
  | None =>
      match s with
      | EmptyString => None
      | String c s' => match_year_from (is_word c) s'
      end
  end.

(** [s.match(/\b(20\d{2})\b/)]: group 1 of the leftmost match. *)
Definition match_year (s : string) : option string := match_year_from false s.

(** [parseInt] on a string of decimal digits. *)
Fixpoint parse_digits (acc : Z) (s : string) : Z :=
  match s with
  | EmptyString => acc
  | String c s' => parse_digits (10 * acc + (Z.of_N (code c) - 48)) s'
  end.

Definition parseInt (s : string) : Z := parse_digits 0 s.

(** JavaScript white space and line terminators below 256. *)
Definition is_space (c : ascii) : bool :=
  (((9 <=? code c) && (code c <=? 13)) || (code c =? 32) || (code c =? 160))%N.

Fixpoint trimStart (s : string) : string :=
  match s with
  | EmptyString => EmptyString
  | String c s' => if is_space c then trimStart s' else s
  end.

Fixpoint trimEnd (s : string) : string :=
  match s with
  | EmptyString => EmptyString
  | String c s' =>
      match trimEnd s' with
      | EmptyString => if is_space c then EmptyString else String c EmptyString
      | t => String c t
      end
  end.

Definition trim (s : string) : string := trimEnd (trimStart s).

End Str.
Import Str.

(* ------------------------------------------------------------------ *)
(** ** scripts/metadata-filters.ts *)

Module MetadataFilters.

(** What [new Date()] gives when the extractor runs, already rendered as
    [toISOString().split('T')[0]]: the current day, the day before and the
    day seven days before. *)
Record clock : Type := {
  today : string;
  yesterday : string;
  lastWeekStart : string
}.

Definition monthNames : list string :=
  ["january"; "february"; "march"; "april"; "may"; "june";
   "july"; "august"; "september"; "october"; "november"; "december"].

(** [filters.year = parseInt(yearMatch[1])] when the year expression
    matches. *)
Definition with_year (query : string) (filters : obj) : obj :=
  match match_year query with
  | Some y => set_prop "year" (VNum (parseInt y)) filters
  | None => filters
  end.

(** The loop over [monthNames], from index [i]: the first name included in
    the lower-cased query returns. *)
Fixpoint month_loop (query : string) (names : list string) (i : Z)
  : option obj :=
  match names with
  | [] => None
  | name :: names' =>
      if includes (toLowerCase query) name
      then Some (with_year query (set_prop "month" (VNum (i + 1)) []))
      else month_loop query names' (i + 1)
  end.

Definition extractDateFilters (now : clock) (query : string) : option obj :=
  match match_iso_date query with
  | Some d => Some (set_prop "date_str" (VStr d) [])
  | None =>
  if includes (toLowerCase query) "yesterday"
  then Some (set_prop "date_str" (VStr (yesterday now)) [])
  else if includes (toLowerCase query) "today"
  then Some (set_prop "date_str" (VStr (today now)) [])
  else if includes (toLowerCase query) "last week"
  then Some [("dateRange",
              VObj [("start", VStr (lastWeekStart now));
                    ("end", VStr (today now))])]
  else
  match month_loop query monthNames 0 with
  | Some filters => Some filters
  | None =>
  match match_year query with
  | Some y => Some (set_prop "year" (VNum (parseInt y)) [])
  | None => None
  end
  end
  end.

Definition environments : list string :=
  ["production"; "development"; "staging"; "test"].

Definition statuses : list string :=
  ["success"; "failed"; "error"; "pending"].

(** [for (const kw of kws) if (query.toLowerCase().includes(kw))
    filters[field] = kw]: the loop has no break. *)
Definition keyword_loop (field : string) (kws : list string) (query : string)
  (filters : obj) : obj :=
  fold_left
    (fun f kw =>
       if includes (toLowerCase query) kw then set_prop field (VStr kw) f
       else f)
    kws filters.

Definition correctness (query : string) (filters : obj) : obj :=
  if includes (toLowerCase query) "correct"
  then set_prop "is_correct" (VBool true) filters
  else if includes (toLowerCase query) "incorrect"
          || includes (toLowerCase query) "wrong"
  then set_prop "is_correct" (VBool false) filters
  else filters.

Definition nonempty_or_null (filters : obj) : option obj :=
  if (0 <? length (keys filters))%nat then Some filters else None.

Definition extractMetadataFilters (query : string) : option obj :=
  let filters := keyword_loop "environment" environments query [] in
  let filters := keyword_loop "status" statuses query filters in
  let filters := correctness query filters in
  nonempty_or_null filters.

(** [dateFilters] and [metadataFilters] are objects or null. *)
Definition buildFilterExpression (dateFilters metadataFilters : option obj)
  : option obj :=
  let filters :=
    match dateFilters with
    | Some df =>
        if truthy (get_prop "dateRange" df) then
          let range := get_prop "dateRange" df in
          set_prop "date_str"
            (VObj [("$gte", member_opt range "start");
                   ("$lte", member_opt range "end")]) []
        else assign [] df
    | None => []
    end in
  let filters :=
    match metadataFilters with
    | Some mf => assign filters mf
    | None => filters
    end in
  nonempty_or_null filters.

(** The [is_correct] entry of an extracted filter, undefined on null. *)
Definition field_of (k : string) (r : option obj) : value :=
  match r with
  | Some o => get_prop k o
  | None => VUndefined
  end.

End MetadataFilters.

(* ------------------------------------------------------------------ *)
(** ** Effects: state and exceptions *)

Module Eff.

(** A computation over a state [S] that returns or throws. *)
Definition M (S A : Type) : Type := S -> result A * S.

Definition ret {S A} (a : A) : M S A := fun s => (Ok a, s).

Definition bind {S A B} (m : M S A) (k : A -> M S B) : M S B :=
  fun s =>
    match m s with
    | (Ok a, s') => k a s'
    | (Throw e, s') => (Throw e, s')
    end.

(** An awaited call whose outcome is given. *)
Definition await {S A} (r : result A) : M S A := fun s => (r, s).

Definition throw {S A} (e : exn) : M S A := fun s => (Throw e, s).

(** [try { body } catch (error) { handler }]: what [body] did to the state
    before it threw stays done. *)
Definition try_catch {S A} (body : M S A) (handler : exn -> M S A) : M S A :=
  fun s =>
    match body s with
    | (Ok a, s') => (Ok a, s')
    | (Throw e, s') => handler e s'
    end.

Definition modify {S} (f : S -> S) : M S unit := fun s => (Ok tt, f s).

End Eff.
Import Eff.

Declare Scope eff_scope.
Delimit Scope eff_scope with eff.
Notation "x <- m ;; k" := (bind m (fun x => k))
  (at level 61, m at next level, right associativity) : eff_scope.
Notation "m ;; k" := (bind m (fun _ => k))
  (at level 61, right associativity) : eff_scope.

(** An event handed to [emit]. *)
Record event : Type := {
  topic : string;
  data : obj
}.

(** [await emit({ topic, data })]. *)
Definition emit (t : string) (d : obj) : M (list event) unit :=
  modify (fun log => log ++ [{| topic := t; data := d |}]).

(** The [choices] of a chat completion, as the provider's client types
    them, the message of a choice being read defensively by the steps. *)
Record message : Type := { content : option string }.
Record choice : Type := { choice_message : option message }.
Record completion : Type := { choices : list choice }.

(** The checks of an input schema on one field of the data of an event:
    [z.string()], [z.string().optional()], [z.record(z.any()).optional()].
    The outer option is the verdict, the inner one the optional value. *)
Module Schema.

Definition string_ (v : value) : option string :=
  match v with
  | VStr s => Some s
  | _ => None
  end.

Definition optional_string (v : value) : option (option string) :=
  match v with
  | VUndefined => Some None
  | VStr s => Some (Some s)
  | _ => None
  end.

Definition optional_record (v : value) : option (option obj) :=
  match v with
  | VUndefined => Some None
  | VObj o => Some (Some o)
  | _ => None
  end.

End Schema.

(* ------------------------------------------------------------------ *)
(** ** utils/handit-tracing.ts *)

Module Tracing.

Definition preprocessMessage_node : string := "metaAgentK40-toolpreprocessp6".
Definition llmFiltersExtraction_node : string := "metaAgentK40-llmFiltersrv".
Definition ragRetrieval_node : string := "metaAgentK40-toolragRetrievvz".
Definition responseGeneration_node : string := "metaAgentK40-responseGecp".

(** [`flow-${timestamp}-${random}`], from the decimal text of [Date.now()]
    and the base-36 text taken from [Math.random()]. *)
Definition generateFlowId (timestamp random : string) : string :=
  "flow-" ++ timestamp ++ "-" ++ random.

(** The tracing client's [traceAgentNode], which is not part of the
    repository: the wrapped function gives what the callback gives, unless
    the client throws, [client_fault] being what it throws then (an error
    of its own, or what it makes of an exception of the callback). *)
Definition traceAgentNode (client_fault : option exn) (agentNodeId : string)
  (externalId : option string) (callback : result value) : result value :=
  match client_fault with
  | Some e => Throw e
  | None => callback
  end.

(** [result._handidFlowId = flowId] when the result is an object and the
    flow id is truthy. *)
Definition attach_flow_id (flowId : option string) (r : value) : value :=
  match r with
  | VObj o =>
      if truthy (of_opt_str flowId)
      then VObj (set_prop "_handidFlowId" (of_opt_str flowId) o)
      else r
  | VArr l o =>
      if truthy (of_opt_str flowId)
      then VArr l (set_prop "_handidFlowId" (of_opt_str flowId) o)
      else r
  | _ => r
  end.

Definition traceWithHandit (client_fault : option exn) (agentNodeId : string)
  (flowId : option string) (callback : result value) : result value :=
  traceAgentNode client_fault agentNodeId flowId
    (match callback with
     | Ok r => Ok (attach_flow_id flowId r)
     | Throw e => Throw e
     end).

(** What the close operation can be seen to do: the lines written to the
    console and the end-of-session requests made to the tracing client. *)
Inductive stream : Type := Out | Err.

Record observed : Type := {
  console : list (stream * string);
  requests : list string
}.

Definition console_write (st : stream) (line : string) : M observed unit :=
  modify (fun o => {| console := console o ++ [(st, line)];
                      requests := requests o |}).

(** [await endAgentTracing({ externalId })]: the request is made, and the
    client answers or throws, given the requests made before. *)
Definition endAgentTracing (client : list string -> string -> option exn)
  (externalId : string) : M observed unit :=
  fun o =>
    (match client (requests o) externalId with
     | Some e => Throw e
     | None => Ok tt
     end,
     {| console := console o; requests := requests o ++ [externalId] |}).

Definition endAgentTracingHandit (client : list string -> string -> option exn)
  (flowId : option string) : M observed unit :=
  match flowId with
  | None => ret tt
  | Some id =>
      if negb (truthy (VStr id)) then ret tt
      else
        try_catch
          (console_write Out ("[Handit] Ending tracing session for flow: " ++ id) ;;
           endAgentTracing client id)%eff
          (fun _ =>
             console_write Err
               ("[Handit] Error ending tracing session for flow " ++ id ++ ":"))
  end.

(** [extractFlowId]: the id on the object itself, else on its [data], else
    on the [data] of its [event]. *)
Definition extractFlowId (obj : value) : result value :=
  if negb (truthy obj) then Ok VUndefined
  else
    (own <- member obj "_handidFlowId" ;;
     if truthy own then member obj "_handidFlowId"
     else
       d <- member obj "data" ;;
       in_data <- and_member d "_handidFlowId" ;;
       if truthy in_data
       then (d' <- member obj "data" ;; member d' "_handidFlowId")
       else
         ev <- member obj "event" ;;
         ed <- and_member ev "data" ;;
         in_event <- and_member ed "_handidFlowId" ;;
         if truthy in_event
         then (ev' <- member obj "event" ;;
               ed' <- member ev' "data" ;;
               member ed' "_handidFlowId")
         else Ok VUndefined)%res.

End Tracing.
Import Tracing.

(* ------------------------------------------------------------------ *)
(** ** steps/preprocess-message.step.ts *)

Module Preprocess.

Record input : Type := {
  message_ : string;
  timestamp : option string
}.

(** What the step meets when it runs: the clock and the random source
    behind [generateFlowId], [new Date().toISOString()], and the tracing
    client. *)
Record world : Type := {
  now_ms : string;
  random36 : string;
  now_iso : string;
  trace_fault : option exn
}.

Definition preprocessMessage (m : string) : result value := Ok (VStr (trim m)).

Definition subscribes : list string := ["message-received"].
Definition emits : list string := ["preprocess-complete"].

Definition try_block (w : world) (i : input) (flowId : string)
  : M (list event) unit :=
  (processedMessage <-
     await (traceWithHandit (trace_fault w) preprocessMessage_node
              (Some flowId) (preprocessMessage (message_ i))) ;;
   emit "preprocess-complete"
     [("originalMessage", VStr (message_ i));
      ("processedMessage", processedMessage);
      ("timestamp", or_else (of_opt_str (timestamp i)) (VStr (now_iso w)));
      ("_handidFlowId", VStr flowId)])%eff.

Definition catch_block (w : world) (i : input) (flowId : string)
  : M (list event) unit :=
  emit "preprocess-complete"
    [("originalMessage", VStr (message_ i));
     ("processedMessage", VStr (message_ i));
     ("timestamp", or_else (of_opt_str (timestamp i)) (VStr (now_iso w)));
     ("_handidFlowId", VStr flowId)].

Definition handler (w : world) (i : input) : M (list event) unit :=
  let flowId := generateFlowId (now_ms w) (random36 w) in
  try_catch (try_block w i flowId) (fun _ => catch_block w i flowId).

(** The input schema of the step, applied to the data of an event. *)
Definition validate (d : obj) : option input :=
  match Schema.string_ (get_prop "message" d),
        Schema.optional_string (get_prop "timestamp" d) with
  | Some m, Some ts => Some {| message_ := m; timestamp := ts |}
  | _, _ => None
  end.

End Preprocess.

(* ------------------------------------------------------------------ *)
(** ** The LLM filter extraction step (second unit of
       examples/traced-agent.ts) *)

Module FilterExtraction.

Record input : Type := {
  originalMessage : string;
  processedMessage : string;
  timestamp : string;
  _handidFlowId : option string
}.

(** [OPENAI_API_KEY] of the environment, the completion the provider gives
    for a system prompt and a user text, [JSON.parse], and the tracing
    client. *)
Record world : Type := {
  api_key : option string;
  client_init : result unit;
  completions_create : string -> string -> result completion;
  JSON_parse : string -> result value;
  trace_fault : option exn
}.

(** The instruction prompt; its text does not bear on the control flow and
    is kept to its first sentence. *)
Definition systemPrompt : string :=
  "You are a filter extraction assistant. Your job is to analyze a user query and extract any date filters and metadata filters.".

(** [`"${msg}"`]. *)
Definition quoted (msg : string) : string :=
  String (ascii_of_N 34) (msg ++ String (ascii_of_N 34) EmptyString).

Definition fallback_filters (msg : string) : value :=
  VObj [("dateFilters", VUndefined);
        ("metadataFilters", VUndefined);
        ("extractedQuery", VStr msg)].

(** The part of [extractFilters] after the awaited completion. *)
Definition parse_answer (w : world) (msg : string) (response : completion)
  : value :=
  match choices response with
  | {| choice_message := Some m |} :: _ =>
      let content_ :=
        match content m with
        | Some c => if truthy (VStr c) then c else "{}"
        | None => "{}"
        end in
      match JSON_parse w content_ with
      | Ok answer =>
          match assign_member answer "extractedQuery" (VStr msg) with
          | Ok answer' => answer'
          | Throw _ => fallback_filters msg
          end
      | Throw _ => fallback_filters msg
      end
  | _ => fallback_filters msg
  end.

Definition extractFilters (w : world) (msg prompt : string) : result value :=
  match
    completions_create w prompt
      ("Extract filters from this query: " ++ quoted msg)
  with
  | Ok response => Ok (parse_answer w msg response)
  | Throw e => Throw e
  end.

Definition key_present (k : option string) : bool :=
  match k with
  | Some s => truthy (VStr s)
  | None => false
  end.

Definition subscribes : list string := ["preprocess-complete"].
Definition emits : list string := ["fetch-context"].

Definition try_block (w : world) (i : input) : M (list event) unit :=
  let flowId := _handidFlowId i in
  ((if key_present (api_key w) then ret tt
    else throw (JsError "OpenAI API key not found in environment variables")) ;;
   await (client_init w) ;;
   extractedFilters <-
     await (traceWithHandit (trace_fault w) llmFiltersExtraction_node flowId
              (extractFilters w (processedMessage i) systemPrompt)) ;;
   dateFilters <- await (member extractedFilters "dateFilters") ;;
   metadataFilters <- await (member extractedFilters "metadataFilters") ;;
   extractedQuery <- await (member extractedFilters "extractedQuery") ;;
   emit "fetch-context"
     [("originalMessage", VStr (originalMessage i));
      ("processedMessage",
       or_else extractedQuery (VStr (processedMessage i)));
      ("timestamp", VStr (timestamp i));
      ("dateFilters", dateFilters);
      ("metadataFilters", metadataFilters);
      ("_handidFlowId", of_opt_str flowId)])%eff.

Definition catch_block (i : input) : M (list event) unit :=
  emit "fetch-context"
    [("originalMessage", VStr (originalMessage i));
     ("processedMessage", VStr (processedMessage i));
     ("timestamp", VStr (timestamp i));
     ("_handidFlowId", of_opt_str (_handidFlowId i))].

Definition handler (w : world) (i : input) : M (list event) unit :=
  try_catch (try_block w i) (fun _ => catch_block i).

(** The input schema of the step, applied to the data of an event. *)
Definition validate (d : obj) : option input :=
  match Schema.string_ (get_prop "originalMessage" d),
        Schema.string_ (get_prop "processedMessage" d),
        Schema.string_ (get_prop "timestamp" d),
        Schema.optional_string (get_prop "_handidFlowId" d) with
  | Some om, Some pm, Some ts, Some f =>
      Some {| originalMessage := om; processedMessage := pm;
              timestamp := ts; _handidFlowId := f |}
  | _, _, _, _ => None
  end.

End FilterExtraction.

(* ------------------------------------------------------------------ *)
(** ** steps/pinecone-retrieval.step.ts *)

Module Retrieval.

Record input : Type := {
  originalMessage : string;
  processedMessage : string;
  timestamp : string;
  dateFilters : option obj;
  metadataFilters : option obj;
  _handidFlowId : option string
}.

(** The clients built at the head of the [try] block, the answer of the
    embedding call for a text, the index handle, the answer of the vector
    store for a vector and a filter, and the tracing client. *)
Record world : Type := {
  client_init : result unit;
  embeddings_create : string -> result value;
  index_handle : result unit;
  index_query : value -> value -> result value;
  trace_fault : option exn
}.

(** [a[0]]. *)
Definition first_item (a : value) : result value :=
  match a with
  | VUndefined =>
      Throw (JsError "Cannot read properties of undefined (reading '0')")
  | VNull =>
      Throw (JsError "Cannot read properties of null (reading '0')")
  | VArr (x :: _) _ => Ok x
  | VObj o => Ok (get_prop "0" o)
  | VStr (String c _) => Ok (VStr (String c EmptyString))
  | _ => Ok VUndefined
  end.

(** [response.data[0].embedding]. *)
Definition generateEmbedding (w : world) (text : string) : result value :=
  match embeddings_create w text with
  | Ok response =>
      match member response "data" with
      | Ok d =>
          match first_item d with
          | Ok x => member x "embedding"
          | Throw e => Throw e
          end
      | Throw e => Throw e
      end
  | Throw e => Throw e
  end.

(** [if (src[k]) filters[k] = src[k]]. *)
Definition copy_if_truthy (src : obj) (k : string) (filters : obj) : obj :=
  if truthy (get_prop k src) then set_prop k (get_prop k src) filters
  else filters.

Definition opt_value (o : option obj) : value :=
  match o with
  | Some x => VObj x
  | None => VUndefined
  end.

(** The step's own [buildFilterExpression]: undefined as [VUndefined]. *)
Definition buildFilterExpression (dateFilters metadataFilters : option obj)
  : value :=
  let filters : obj := [] in
  let filters :=
    match dateFilters with
    | Some df =>
        copy_if_truthy df "date_str"
          (copy_if_truthy df "day"
             (copy_if_truthy df "month"
                (copy_if_truthy df "year" filters)))
    | None => filters
    end in
  let filters :=
    match metadataFilters with
    | Some mf =>
        copy_if_truthy mf "status" (copy_if_truthy mf "environment" filters)
    | None => filters
    end in
  if (0 <? length (keys filters))%nat
  then VObj [("$and", VArr (map (fun kv => VObj [kv]) filters) [])]
  else VUndefined.

(** The callback of [results.matches?.map]. *)
Definition to_context_item (m : value) : result value :=
  match member m "metadata" with
  | Throw e => Throw e
  | Ok metadata =>
      match metadata with
      | VUndefined =>
          Throw (JsError "Cannot read properties of undefined (reading 'input')")
      | VNull =>
          Throw (JsError "Cannot read properties of null (reading 'input')")
      | _ =>
          Ok (VObj [("input", member_opt metadata "input");
                    ("output", member_opt metadata "output");
                    ("created_at", member_opt metadata "created_at");
                    ("score", member_opt m "score");
                    ("problem", member_opt metadata "problem");
                    ("solution", member_opt metadata "solution");
                    ("type", member_opt metadata "type")])
      end
  end.

Fixpoint map_items (l : list value) : result (list value) :=
  match l with
  | [] => Ok []
  | m :: l' =>
      match to_context_item m with
      | Throw e => Throw e
      | Ok x =>
          match map_items l' with
          | Ok xs => Ok (x :: xs)
          | Throw e => Throw e
          end
      end
  end.

(** [results.matches?.map(...)]. *)
Definition context_of (results : value) : result value :=
  match member results "matches" with
  | Throw e => Throw e
  | Ok VUndefined => Ok VUndefined
  | Ok VNull => Ok VUndefined
  | Ok (VArr l _) =>
      match map_items l with
      | Ok xs => Ok (VArr xs [])
      | Throw e => Throw e
      end
  | Ok _ => Throw (JsError "results.matches?.map is not a function")
  end.

Definition subscribes : list string := ["fetch-context"].
Definition emits : list string := ["context-retrieved"].

Definition try_block (w : world) (i : input) : M (list event) unit :=
  let flowId := _handidFlowId i in
  (await (client_init w) ;;
   embedding <- await (generateEmbedding w (processedMessage i)) ;;
   await (index_handle w) ;;
   let filterExpression :=
     buildFilterExpression (dateFilters i) (metadataFilters i) in
   results <-
     await (traceWithHandit (trace_fault w) ragRetrieval_node flowId
              (index_query w embedding filterExpression)) ;;
   context <- await (context_of results) ;;
   emit "context-retrieved"
     [("originalMessage", VStr (originalMessage i));
      ("processedMessage", VStr (processedMessage i));
      ("timestamp", VStr (timestamp i));
      ("context", or_else context (VArr [] []));
      ("dateFilters", opt_value (dateFilters i));
      ("metadataFilters", opt_value (metadataFilters i));
      ("_handidFlowId", of_opt_str flowId)])%eff.

(** The payload of the [catch] block. *)
Definition fallback_data (i : input) : obj :=
  [("originalMessage", VStr (originalMessage i));
   ("processedMessage", VStr (processedMessage i));
   ("timestamp", VStr (timestamp i));
   ("context", VArr [] []);
   ("_handidFlowId", of_opt_str (_handidFlowId i))].

Definition catch_block (i : input) : M (list event) unit :=
  emit "context-retrieved" (fallback_data i).

Definition handler (w : world) (i : input) : M (list event) unit :=
  try_catch (try_block w i) (fun _ => catch_block i).

(** The input schema of the step, applied to the data of an event: the two
    filters are records (plain objects) when present. *)
Definition validate (d : obj) : option input :=
  match Schema.string_ (get_prop "originalMessage" d),
        Schema.string_ (get_prop "processedMessage" d),
        Schema.string_ (get_prop "timestamp" d),
        Schema.optional_record (get_prop "dateFilters" d),
        Schema.optional_record (get_prop "metadataFilters" d),
        Schema.optional_string (get_prop "_handidFlowId" d) with
  | Some om, Some pm, Some ts, Some df, Some mf, Some f =>
      Some {| originalMessage := om; processedMessage := pm;
              timestamp := ts; dateFilters := df; metadataFilters := mf;
              _handidFlowId := f |}
  | _, _, _, _, _, _ => None
  end.

End Retrieval.

(* ------------------------------------------------------------------ *)
(** ** steps/openai-generation.step.ts *)

Module Generation.

Record input : Type := {
  originalMessage : string;
  processedMessage : string;
  timestamp : string;
  context : option (list obj);
  _handidFlowId : option string
}.

(** The client built at the head of the [try] block, the completion the
    provider gives for a system prompt and a user text, the text a value
    takes inside a template literal, [score.toFixed(2)], and the tracing
    client. *)
Record world : Type := {
  client_init : result unit;
  completions_create : string -> string -> result completion;
  to_text : value -> string;
  toFixed2 : value -> result string;
  trace_fault : option exn
}.

Definition nl : string := String (ascii_of_N 10) EmptyString.

Definition format_item (w : world) (item : obj) : result string :=
  match toFixed2 w (get_prop "score" item) with
  | Throw e => Throw e
  | Ok score =>
      match get_prop "type" item with
      | VStr "insight" =>
          Ok ("--- Previous Insight ---" ++ nl
              ++ "Problem: " ++ to_text w (get_prop "problem" item) ++ nl
              ++ "Solution: " ++ to_text w (get_prop "solution" item) ++ nl
              ++ "Date: " ++ to_text w (get_prop "created_at" item) ++ nl
              ++ "Similarity Score: " ++ score ++ nl
              ++ "-------------------------")%string
      | _ =>
          Ok ("--- Previous User Query ---" ++ nl
              ++ "User: " ++ to_text w (get_prop "input" item) ++ nl
              ++ "Agent: " ++ to_text w (get_prop "output" item) ++ nl
              ++ "Date: " ++ to_text w (get_prop "created_at" item) ++ nl
              ++ "Similarity Score: " ++ score ++ nl
              ++ "-------------------------")%string
      end
  end.

(** [context.map(...).join("\n\n")] on a list that is not empty. *)
Fixpoint format_items (w : world) (items : list obj) : result string :=
  match items with
  | [] => Ok EmptyString
  | item :: rest =>
      match format_item w item with
      | Throw e => Throw e
      | Ok block =>
          match rest with
          | [] => Ok block
          | _ =>
              match format_items w rest with
              | Ok tail => Ok (block ++ nl ++ nl ++ tail)%string
              | Throw e => Throw e
              end
          end
      end
  end.

Definition formatContext (w : world) (context : option (list obj))
  : result string :=
  match context with
  | None | Some [] => Ok "No relevant previous conversations found."
  | Some items => format_items w items
  end.

Definition could_not_generate : string :=
  "I apologize, but I couldn't generate a response. Please try again.".

Definition fallbackResponse : string :=
  "I apologize, but I encountered an error while generating a response. Please try again later.".

Definition system_prompt (contextText : string) : string :=
  "You are an AI assistant that helps users with their questions. Below is some context from previous conversations that may be relevant to the current question. Use this context to inform your response, but still respond directly to the user's current query."
  ++ nl ++ nl ++ contextText ++ nl ++ nl
  ++ "IMPORTANT GUIDELINES:" ++ nl
  ++ "1. If the context provides information relevant to the query, use it to inform your answer." ++ nl
  ++ "2. If the context is not relevant to the current query, simply respond to the user's query without mentioning the irrelevant context." ++ nl
  ++ "3. Do not explicitly mention that you're using previous conversations unless directly asked." ++ nl
  ++ "4. Maintain a helpful, informative, and friendly tone." ++ nl
  ++ "5. If you're unsure or the question is outside your knowledge base, be honest about your limitations.".

(** [response.choices[0].message?.content || "..."]: the read of [message]
    is on [choices[0]], which is undefined on an empty list. *)
Definition first_content (response : completion) : result string :=
  match choices response with
  | [] =>
      Throw (JsError "Cannot read properties of undefined (reading 'message')")
  | c :: _ =>
      match choice_message c with
      | Some {| content := Some text |} =>
          Ok (if truthy (VStr text) then text else could_not_generate)
      | _ => Ok could_not_generate
      end
  end.

Definition generateResponse (w : world) (promptText contextText : string)
  : result value :=
  match completions_create w (system_prompt contextText) promptText with
  | Throw e => Throw e
  | Ok response =>
      match first_content response with
      | Ok text => Ok (VStr text)
      | Throw e => Throw e
      end
  end.

Definition context_value (c : option (list obj)) : value :=
  match c with
  | Some items => VArr (map VObj items) []
  | None => VUndefined
  end.

(** [error instanceof Error ? error.message : 'Failed to generate response'] *)
Definition error_text (error : exn) : string :=
  match error with
  | JsError m => m
  | JsThrown _ => "Failed to generate response"
  end.

Definition subscribes : list string := ["context-retrieved"].
Definition emits : list string := ["response-generated"].

(** The input schema of the step, applied to the data of an event: three
    strings, an optional array of objects with [input], [output] and
    [created_at] strings and a [score] number, an optional string. An
    object of the array is read with the keys the schema names and no
    other. *)
Definition item_of (v : value) : option obj :=
  match v with
  | VObj o =>
      match get_prop "input" o, get_prop "output" o,
            get_prop "created_at" o, get_prop "score" o with
      | VStr i, VStr out, VStr c, VNum n =>
          Some [("input", VStr i); ("output", VStr out);
                ("created_at", VStr c); ("score", VNum n)]
      | _, _, _, _ => None
      end
  | _ => None
  end.

Fixpoint items_of (l : list value) : option (list obj) :=
  match l with
  | [] => Some []
  | v :: l' =>
      match item_of v, items_of l' with
      | Some o, Some os => Some (o :: os)
      | _, _ => None
      end
  end.

Definition validate (d : obj) : option input :=
  match get_prop "originalMessage" d, get_prop "processedMessage" d,
        get_prop "timestamp" d with
  | VStr om, VStr pm, VStr ts =>
      let ctx :=
        match get_prop "context" d with
        | VUndefined => Some None
        | VArr l _ =>
            match items_of l with
            | Some os => Some (Some os)
            | None => None
            end
        | _ => None
        end in
      let fid :=
        match get_prop "_handidFlowId" d with
        | VUndefined => Some None
        | VStr f => Some (Some f)
        | _ => None
        end in
      match ctx, fid with
      | Some c, Some f =>
          Some {| originalMessage := om; processedMessage := pm;
                  timestamp := ts; context := c; _handidFlowId := f |}
      | _, _ => None
      end
  | _, _, _ => None
  end.

Definition try_block (w : world) (i : input) : M (list event) unit :=
  let flowId := _handidFlowId i in
  (await (client_init w) ;;
   contextString <- await (formatContext w (context i)) ;;
   generatedResponse <-
     await (traceWithHandit (trace_fault w) responseGeneration_node flowId
              (generateResponse w (processedMessage i) contextString)) ;;
   emit "response-generated"
     [("originalMessage", VStr (originalMessage i));
      ("processedMessage", VStr (processedMessage i));
      ("timestamp", VStr (timestamp i));
      ("response", generatedResponse);
      ("context", context_value (context i));
      ("_handidFlowId", of_opt_str flowId)])%eff.

(** The payload of the [catch] block. *)
Definition fallback_data (i : input) (error : exn) : obj :=
  [("originalMessage", VStr (originalMessage i));
   ("processedMessage", VStr (processedMessage i));
   ("timestamp", VStr (timestamp i));
   ("response", VStr fallbackResponse);
   ("error", VStr (error_text error));
   ("_handidFlowId", of_opt_str (_handidFlowId i))].

Definition catch_block (i : input) (error : exn) : M (list event) unit :=
  emit "response-generated" (fallback_data i error).

Definition handler (w : world) (i : input) : M (list event) unit :=
  try_catch (try_block w i) (catch_block i).

End Generation.

(* ------------------------------------------------------------------ *)
(** ** steps/flow-completion.step.ts *)

Module FlowCompletion.

Record input : Type := {
  originalMessage : string;
  processedMessage : string;
  timestamp : string;
  response : string;
  context : option (list value);
  _handidFlowId : option string
}.

Definition subscribes : list string := ["response-generated"].
Definition emits : list string := [].

Definition flow_id_truthy (flowId : option string) : bool :=
  truthy (of_opt_str flowId).

Definition handler (client : list string -> string -> option exn) (i : input)
  : M observed unit :=
  let flowId := _handidFlowId i in
  try_catch
    (if flow_id_truthy flowId then endAgentTracingHandit client flowId
     else ret tt)
    (fun _ => ret tt).

(** The input schema of the step, applied to the data of an event. *)
Definition required_string (k : string) (d : obj) : option string :=
  match get_prop k d with
  | VStr s => Some s
  | _ => None
  end.

Definition optional_string (k : string) (d : obj) : option (option string) :=
  match get_prop k d with
  | VStr s => Some (Some s)
  | VUndefined => Some None
  | _ => None
  end.

Definition optional_array (k : string) (d : obj) : option (option (list value)) :=
  match get_prop k d with
  | VArr l _ => Some (Some l)
  | VUndefined => Some None
  | _ => None
  end.

Definition validate (d : obj) : option input :=
  match required_string "originalMessage" d,
        required_string "processedMessage" d,
        required_string "timestamp" d,
        required_string "response" d,
        optional_array "context" d,
        optional_string "_handidFlowId" d with
  | Some om, Some pm, Some ts, Some r, Some c, Some f =>
      Some {| originalMessage := om; processedMessage := pm; timestamp := ts;
              response := r; context := c; _handidFlowId := f |}
  | _, _, _, _, _, _ => None
  end.

End FlowCompletion.

(* ------------------------------------------------------------------ *)
(** ** steps/message-api.step.ts *)

Module MessageApi.

(** The validated body of the request. *)
Record request : Type := { body_message : string }.

Definition emits : list string := ["message-received"].

(** The handler emits the message with the current time and answers at
    once; [now_iso] is [new Date().toISOString()]. *)
Definition handler (now_iso : string) (req : request) : M (list event) obj :=
  (emit "message-received"
     [("message", VStr (body_message req)); ("timestamp", VStr now_iso)] ;;
   ret [("status", VNum 200);
        ("body", VObj [("status", VStr "processing");
                       ("message", VStr "Your message is being processed")])])%eff.

End MessageApi.

(* ------------------------------------------------------------------ *)
(** ** scripts/pinecone-data-upload.ts, from the parsed records on *)

Module DataUpload.

(** What [extractDateComponents] returns for a date it can read. *)
Record date_components : Type := {
  date_str : string;
  time_str : string;
  year : Z;
  month : Z;
  day : Z;
  hour : Z;
  minute : Z;
  day_of_week : Z
}.

(** [JSON.parse] and [JSON.stringify], the decimal text of a number, the
    conversion of an object or an array to text (which raises a TypeError
    when the object has no callable [toString] or [valueOf], as the object
    [JSON.parse] reads from [{"toString": 1}]), the reading of a date by
    [extractDateComponents] (null for a date it cannot read), the answer of
    the embedding call for a text, and the answer of the store to an
    upsert. *)
Record world : Type := {
  JSON_parse : value -> result value;
  JSON_stringify : value -> string;
  number_text : Z -> string;
  object_text : value -> result string;
  extractDateComponents : value -> option date_components;
  embeddings_create : string -> result value;
  upsert : list value -> result unit
}.

(** The text a value takes in a template literal or as an element of
    [join] that is neither undefined nor null: a string is its own text,
    the other primitives have a fixed one, an object or an array is
    converted and the conversion may raise. *)
Definition text_of (w : world) (v : value) : result string :=
  match v with
  | VStr s => Ok s
  | VUndefined => Ok "undefined"
  | VNull => Ok "null"
  | VBool true => Ok "true"
  | VBool false => Ok "false"
  | VNum n => Ok (number_text w n)
  | VObj _ | VArr _ _ => object_text w v
  end.

(** [v === lit] for a string literal. *)
Definition str_is (lit : string) (v : value) : bool :=
  match v with
  | VStr s => (s =? lit)%string
  | _ => false
  end.

(** [l.join(sep)] on strings. *)
Fixpoint join (sep : string) (l : list string) : string :=
  match l with
  | [] => EmptyString
  | [x] => x
  | x :: rest => (x ++ sep ++ join sep rest)%string
  end.

(** [l.map(f)] for a callback that may throw. *)
Fixpoint map_result {A B : Type} (f : A -> result B) (l : list A)
  : result (list B) :=
  match l with
  | [] => Ok []
  | x :: rest =>
      (y <- f x ;;
       ys <- map_result f rest ;;
       Ok (y :: ys))%res
  end.

(** [items.filter(item => item.type !== 'file')]. *)
Fixpoint filter_items (items : list value) : result (list value) :=
  match items with
  | [] => Ok []
  | item :: rest =>
      (ty <- member item "type" ;;
       kept <- filter_items rest ;;
       Ok (if str_is "file" ty then kept else item :: kept))%res
  end.

(** [item.text || item.content || '']: the element [join] converts. *)
Definition item_part (item : value) : value :=
  or_else (or_else (member_opt item "text") (member_opt item "content"))
    (VStr EmptyString).

(** The text [join] writes for the element of an item. *)
Definition item_text (w : world) (item : value) : result string :=
  text_of w (item_part item).

Definition processed_message (role : string) (content_ : value) : value :=
  VObj [("role", VStr role); ("content", content_)].

(** The body of the loop over the messages of an entry: [acc] is
    [processedMessages] so far. *)
Definition process_message (w : world) (acc : list value) (message : value)
  : result (list value) :=
  (ty <- member message "type" ;;
   if str_is "image_url" ty then Ok acc
   else
     role <- member message "role" ;;
     if str_is "system" role
     then Ok (acc ++ [processed_message "system" (member_opt message "content")])
     else if str_is "user" role
     then
       match member_opt message "content" with
       | VArr items _ =>
           kept <- filter_items items ;;
           texts <- map_result (item_text w) kept ;;
           let filteredContent := join " " texts in
           if truthy (VStr filteredContent)
           then Ok (acc ++ [processed_message "user" (VStr filteredContent)])
           else Ok acc
       | c => Ok (acc ++ [processed_message "user" c])
       end
     else Ok acc)%res.

Fixpoint process_messages (w : world) (acc : list value)
  (messages : list value) : result (list value) :=
  match messages with
  | [] => Ok acc
  | m :: rest =>
      (acc' <- process_message w acc m ;;
       process_messages w acc' rest)%res
  end.

(** What [for (const message of messages)] goes through: the items of an
    array, the characters of a string; anything else is not iterable. *)
Definition iterate (v : value) : result (list value) :=
  match v with
  | VArr l _ => Ok l
  | VStr s =>
      Ok (map (fun c => VStr (String c EmptyString)) (list_ascii_of_string s))
  | _ => Throw (JsError "messages is not iterable")
  end.

(** [entry.is_correct.toLowerCase() === 'true']. *)
Definition is_correct_of (v : value) : result value :=
  match v with
  | VStr s => Ok (VBool (toLowerCase s =? "true")%string)
  | _ => Throw (JsError "Cannot read properties of undefined (reading 'toLowerCase')")
  end.

(** [if (src) target[k] = src]. *)
Definition set_if_truthy (k : string) (v : value) (o : obj) : obj :=
  if truthy v then set_prop k v o else o.

Definition with_date (dc : option date_components) (o : obj) : obj :=
  match dc with
  | Some c =>
      set_prop "day" (VNum (day c))
        (set_prop "month" (VNum (month c))
           (set_prop "year" (VNum (year c))
              (set_prop "time_str" (VStr (time_str c))
                 (set_prop "date_str" (VStr (date_str c)) o))))
  | None => o
  end.

(** The [try] block of the loop over the entries: the processed entry, or
    nothing when the entry has no message to keep. *)
Definition process_entry (w : world) (entry : obj) : result (option obj) :=
  (inputData <- JSON_parse w (get_prop "input" entry) ;;
   raw <- member inputData "messages" ;;
   messages <- iterate (or_else raw (VArr [] [])) ;;
   processedMessages <- process_messages w [] messages ;;
   let dateComponents := extractDateComponents w (get_prop "created_at" entry) in
   if (0 <? length processedMessages)%nat
   then
     is_correct <- is_correct_of (get_prop "is_correct" entry) ;;
     Ok (Some
           (with_date dateComponents
              (set_if_truthy "status" (get_prop "status" entry)
                 (set_if_truthy "environment" (get_prop "environment" entry)
                    [("id", get_prop "id" entry);
                     ("messages", VArr processedMessages []);
                     ("output", get_prop "output" entry);
                     ("is_correct", is_correct);
                     ("created_at", get_prop "created_at" entry);
                     ("updated_at", get_prop "updated_at" entry);
                     ("model_id", get_prop "model_id" entry)]))))
   else Ok None)%res.

(** The loop over the entries: an entry that raises is logged and left
    out. *)
Definition process_entries (w : world) (entries : list obj) : list obj :=
  flat_map
    (fun entry =>
       match process_entry w entry with
       | Ok (Some processed) => [processed]
       | _ => []
       end)
    entries.

Definition batchSize : nat := 100.

(** [Math.ceil(n / batchSize)]. *)
Definition batch_count (n : nat) : nat :=
  if (n mod batchSize =? 0)%nat then n / batchSize else S (n / batchSize).

(** [l.slice(start, end)] for [start <= end <= l.length]. *)
Definition slice {A : Type} (start end_ : nat) (l : list A) : list A :=
  firstn (end_ - start) (skipn start l).

Definition batch_at {A : Type} (l : list A) (i : nat) : list A :=
  let start := i * batchSize in
  let end_ := Nat.min (start + batchSize) (length l) in
  slice start end_ l.

(** The batches the upload loop goes through. *)
Definition batches {A : Type} (l : list A) : list (list A) :=
  map (batch_at l) (seq 0 (batch_count (length l))).

Definition nl : string := String (ascii_of_N 10) EmptyString.

(** [`${msg.role}: ${msg.content}`]: each value is read and converted in
    turn. *)
Definition message_line (w : world) (msg : value) : result string :=
  (role <- member msg "role" ;;
   role_text <- text_of w role ;;
   content_ <- member msg "content" ;;
   content_text <- text_of w content_ ;;
   Ok (role_text ++ ": " ++ content_text)%string)%res.

(** [entry.messages.map(...).join('\n')]. *)
Definition entry_text (w : world) (entry : obj) : result string :=
  match get_prop "messages" entry with
  | VArr msgs _ =>
      (lines <- map_result (message_line w) msgs ;;
       Ok (join nl lines))%res
  | _ => Throw (JsError "entry.messages.map is not a function")
  end.

(** [if (v !== undefined) target[k] = v]. *)
Definition set_if_defined (k : string) (v : value) (o : obj) : obj :=
  match v with
  | VUndefined => o
  | _ => set_prop k v o
  end.

(** The metadata of the vector of a processed entry. *)
Definition entry_metadata (w : world) (entry : obj) (text : string) : obj :=
  set_if_truthy "updated_at" (get_prop "updated_at" entry)
    (set_if_truthy "status" (get_prop "status" entry)
       (set_if_truthy "environment" (get_prop "environment" entry)
          (set_if_defined "day" (get_prop "day" entry)
             (set_if_defined "month" (get_prop "month" entry)
                (set_if_defined "year" (get_prop "year" entry)
                   (set_if_truthy "time_str" (get_prop "time_str" entry)
                      (set_if_truthy "date_str" (get_prop "date_str" entry)
                         [("type", VStr "entry");
                          ("messagesJson",
                           VStr (JSON_stringify w (get_prop "messages" entry)));
                          ("output", get_prop "output" entry);
                          ("is_correct", get_prop "is_correct" entry);
                          ("created_at", get_prop "created_at" entry);
                          ("model_id", get_prop "model_id" entry);
                          ("input_text", VStr text)]))))))).

(** [embeddingResponse.data[0].embedding]. *)
Definition first_embedding (response : value) : result value :=
  (d <- member response "data" ;;
   x <- Retrieval.first_item d ;;
   member x "embedding")%res.

(** The callback of [batch.map] in the upload loop. *)
Definition entry_vector (w : world) (entry : obj) : result value :=
  (text <- entry_text w entry ;;
   response <- embeddings_create w text ;;
   embedding <- first_embedding response ;;
   Ok (VObj [("id", get_prop "id" entry);
             ("values", embedding);
             ("metadata", VObj (entry_metadata w entry text))]))%res.

(** One turn of the upload loop; the state is the list of the upserts
    made so far, each with its vectors. [Promise.all] gives the vectors in
    the order of the batch when every callback returns; when several raise
    it raises the one that settles first, for which the first in the order
    of the batch stands here. *)
Definition upload_batch (w : world) (batch : list obj)
  : M (list (list value)) unit :=
  (vectors <- await (map_result (entry_vector w) batch) ;;
   modify (fun calls => calls ++ [vectors]) ;;
   await (upsert w vectors))%eff.

Fixpoint upload_batches (w : world) (bs : list (list obj))
  : M (list (list value)) unit :=
  match bs with
  | [] => ret tt
  | b :: rest => (upload_batch w b ;; upload_batches w rest)%eff
  end.

(** The metadata of the vector of an insight. *)
Definition insight_metadata (w : world) (insight : obj) : obj :=
  let md :=
    set_if_truthy "category" (get_prop "category" insight)
      [("type", VStr "insight");
       ("problem", get_prop "problem" insight);
       ("solution", get_prop "solution" insight)] in
  if truthy (get_prop "created_at" insight)
  then
    let md := set_prop "created_at" (get_prop "created_at" insight) md in
    match extractDateComponents w (get_prop "created_at" insight) with
    | Some c =>
        set_prop "day" (VNum (day c))
          (set_prop "month" (VNum (month c))
             (set_prop "year" (VNum (year c))
                (set_prop "date_str" (VStr (date_str c)) md)))
    | None => md
    end
  else md.

End DataUpload.

(* ------------------------------------------------------------------ *)
(** ** The workflow of examples/traced-agent.ts (first unit) *)

Module TracedAgent.

Record input : Type := {
  message_ : string;
  timestamp : string
}.

(** The completion the provider gives for a system prompt and a user
    text, [JSON.parse], the answer of the embedding call, the index
    handle, the answer of the store to the query options,
    [JSON.stringify], and the text a value takes in a template literal. *)
Record world : Type := {
  completions_create : string -> string -> result completion;
  JSON_parse : string -> result value;
  embeddings_create : string -> result value;
  index_handle : result unit;
  index_query : obj -> result value;
  JSON_stringify : value -> string;
  to_text : value -> string
}.

(** [response.choices[0].message.content]: no optional chaining here. *)
Definition strict_content (r : completion) : result (option string) :=
  match choices r with
  | [] =>
      Throw (JsError "Cannot read properties of undefined (reading 'message')")
  | c :: _ =>
      match choice_message c with
      | Some m => Ok (content m)
      | None =>
          Throw (JsError "Cannot read properties of undefined (reading 'content')")
      end
  end.

(** [content || fallback]. *)
Definition content_or (fallback : string) (c : option string) : string :=
  match c with
  | Some s => if truthy (VStr s) then s else fallback
  | None => fallback
  end.

Definition text_of (w : world) (v : value) : string :=
  match v with
  | VStr s => s
  | _ => to_text w v
  end.

Definition nl : string := String (ascii_of_N 10) EmptyString.

(** The callback of [relevantContext.map]. *)
Definition match_line (w : world) (m : value) : result string :=
  (md <- member m "metadata" ;;
   let metadata := or_else md (VObj []) in
   Ok ("Type: "
       ++ text_of w (or_else (member_opt metadata "type") (VStr "unknown"))
       ++ ", Content: "
       ++ substring 0 100 (JSON_stringify w metadata) ++ "...")%string)%res.

(** [relevantContext.map(...).join('\n\n')]. *)
Definition context_text (w : world) (relevantContext : value) : result string :=
  match relevantContext with
  | VArr l _ =>
      (lines <- DataUpload.map_result (match_line w) l ;;
       Ok (DataUpload.join (nl ++ nl) lines))%res
  | _ => Throw (JsError "relevantContext.map is not a function")
  end.

Definition apology : string :=
  "I'm sorry, I encountered an error while processing your request.".

(** [error instanceof Error ? error.message : 'Unknown error'] *)
Definition error_text (error : exn) : string :=
  match error with
  | JsError m => m
  | JsThrown _ => "Unknown error"
  end.

Definition try_block (w : world) (i : input) : result obj :=
  let processedMessage := trim (message_ i) in
  (filterResponse <-
     completions_create w "Extract date and metadata filters from this query."
       ("Extract filters from: " ++ FilterExtraction.quoted processedMessage) ;;
   filterContent <- strict_content filterResponse ;;
   filters <- JSON_parse w (content_or "{}" filterContent) ;;
   embeddingResponse <- embeddings_create w processedMessage ;;
   embedding <- DataUpload.first_embedding embeddingResponse ;;
   _ <- index_handle w ;;
   filter_ <- member filters "filter" ;;
   let queryOptions :=
     DataUpload.set_if_truthy "filter" filter_
       [("vector", embedding); ("topK", VNum 5);
        ("includeMetadata", VBool true)] in
   queryResponse <- index_query w queryOptions ;;
   matches <- member queryResponse "matches" ;;
   contextText <- context_text w (or_else matches (VArr [] [])) ;;
   response <-
     completions_create w
       "You are a helpful assistant providing insights about AI agents."
       ("Based on the following context, please answer: " ++ message_ i
        ++ nl ++ nl ++ "Context:" ++ nl ++ contextText) ;;
   responseContent <- strict_content response ;;
   Ok [("originalMessage", VStr (message_ i));
       ("generatedResponse", VStr (content_or EmptyString responseContent));
       ("timestamp", VStr (timestamp i))])%res.

Definition metaAgentWorkflow (w : world) (i : input) : obj :=
  match try_block w i with
  | Ok r => r
  | Throw error =>
      [("originalMessage", VStr (message_ i));
       ("generatedResponse", VStr apology);
       ("timestamp", VStr (timestamp i));
       ("error", VStr (error_text error))]
  end.

End TracedAgent.

(* ------------------------------------------------------------------ *)
(** ** The design document's vocabulary *)

Module Spec.

(** [pat] occurs in [s]. *)
Definition contains (s pat : string) : Prop :=
  exists pre post, s = (pre ++ pat ++ post)%string.

(** [d] is made of one character per class of [p]. *)
Definition has_shape (p : list cls) (d : string) : Prop :=
  Forall2 (fun k c => cls_ok k c = true) p (list_ascii_of_string d).

(** YYYY-MM-DD. *)
Definition iso_shape (d : string) : Prop := has_shape iso_pattern d.

(** The occurrence of an ISO date after [pre] in [q] is the leftmost one. *)
Definition leftmost_iso (q pre : string) : Prop :=
  forall pre' d' post',
    q = (pre' ++ d' ++ post')%string -> iso_shape d' ->
    (String.length pre <= String.length pre')%nat.

(** First and last keyword of a declared list that the text includes. *)
Definition first_match (kws : list string) (text : string) : option string :=
  find (includes text) kws.

Definition last_match (kws : list string) (text : string) : option string :=
  find (includes text) (rev kws).

(** The typed filters of the data model. *)
Inductive DateFilter : Type :=
| ExactDateF (date_str : string)
| MonthF (month : Z) (year : option Z)
| YearF (year : Z)
| DateRangeF (start end_ : string).

Record MetadataFilter : Type := {
  environment : option string;
  status : option string;
  is_correct : option bool
}.

Definition date_obj (d : DateFilter) : obj :=
  match d with
  | ExactDateF s => [("date_str", VStr s)]
  | MonthF m None => [("month", VNum m)]
  | MonthF m (Some y) => [("month", VNum m); ("year", VNum y)]
  | YearF y => [("year", VNum y)]
  | DateRangeF s e => [("dateRange", VObj [("start", VStr s); ("end", VStr e)])]
  end.

Definition opt_entry {A} (k : string) (f : A -> value) (o : option A) : obj :=
  match o with
  | Some x => [(k, f x)]
  | None => []
  end.

Definition metadata_obj (m : MetadataFilter) : obj :=
  opt_entry "environment" VStr (environment m)
  ++ opt_entry "status" VStr (status m)
  ++ opt_entry "is_correct" VBool (is_correct m).

(** The predicates the builder is to produce: an interval for a range, an
    equality for everything else. *)
Definition date_predicates (d : option DateFilter) : obj :=
  match d with
  | Some (DateRangeF s e) =>
      [("date_str", VObj [("$gte", VStr s); ("$lte", VStr e)])]
  | Some f => date_obj f
  | None => []
  end.

Definition metadata_predicates (m : option MetadataFilter) : obj :=
  match m with
  | Some f => metadata_obj f
  | None => []
  end.

Definition predicates (d : option DateFilter) (m : option MetadataFilter)
  : obj :=
  date_predicates d ++ metadata_predicates m.

(** The fields the retriever copies from the metadata of a match. *)
Definition metadata_fields : list string :=
  ["input"; "output"; "created_at"; "problem"; "solution"; "type"].

(** The close operation called twice in a row. *)
Definition close_twice (client : list string -> string -> option exn)
  (flowId : option string) : M observed unit :=
  (endAgentTracingHandit client flowId ;;
   endAgentTracingHandit client flowId)%eff.

(** The typed metadata filter of a query: per category the last keyword
    of the declared list that the lower-cased query includes, and the
    correctness the two tests give, "correct" being tested first. *)
Definition metadata_of (q : string) : MetadataFilter :=
  {| environment := last_match MetadataFilters.environments (toLowerCase q);
     status := last_match MetadataFilters.statuses (toLowerCase q);
     is_correct :=
       if includes (toLowerCase q) "correct" then Some true
       else if includes (toLowerCase q) "wrong" then Some false
       else None |}.

(** Every keyword the metadata extractor looks for. *)
Definition metadata_keywords : list string :=
  MetadataFilters.environments ++ MetadataFilters.statuses
  ++ ["correct"; "incorrect"; "wrong"].

(** Null for the empty object, as the extractors and the builder return. *)
Definition null_if_empty (o : obj) : option obj :=
  match o with
  | [] => None
  | _ => Some o
  end.

(** The name of month [m], 1 to 12. *)
Definition month_name (m : Z) : string :=
  nth (Z.to_nat (m - 1)) MetadataFilters.monthNames EmptyString.

(** An ISO date, YYYY-MM-DD: four, two and two decimal digits with a dash
    between them. *)
Definition all_digits (s : string) : Prop :=
  Forall (fun c => is_digit c = true) (list_ascii_of_string s).

Definition iso_date (d : string) : Prop :=
  exists y m dd,
    d = (y ++ "-" ++ m ++ "-" ++ dd)%string
    /\ String.length y = 4%nat /\ String.length m = 2%nat
    /\ String.length dd = 2%nat
    /\ all_digits y /\ all_digits m /\ all_digits dd.

(** The ISO date after [pre] in [q] is the leftmost one; no ISO date
    occurs in [q]. *)
Definition leftmost_date (q pre : string) : Prop :=
  forall pre' d' post',
    q = (pre' ++ d' ++ post')%string -> iso_date d' ->
    (String.length pre <= String.length pre')%nat.

Definition no_iso (q : string) : Prop :=
  forall d, iso_date d -> ~ contains q d.

(** The names of the months of the calendar, from 1 to 12. *)
Definition calendar_name (m : Z) : string :=
  match m with
  | 1 => "january" | 2 => "february" | 3 => "march" | 4 => "april"
  | 5 => "may" | 6 => "june" | 7 => "july" | 8 => "august"
  | 9 => "september" | 10 => "october" | 11 => "november"
  | 12 => "december"
  | _ => EmptyString
  end%Z.

(** None of the relative and range keywords occurs in the lower-cased
    query. *)
Definition no_keyword (q : string) : Prop :=
  ~ contains (toLowerCase q) "yesterday"
  /\ ~ contains (toLowerCase q) "today"
  /\ ~ contains (toLowerCase q) "last week".

(** [m] is the earliest month of the calendar whose name the lower-cased
    query contains; no month name occurs. *)
Definition first_month (q : string) (m : Z) : Prop :=
  (1 <= m <= 12)%Z
  /\ contains (toLowerCase q) (calendar_name m)
  /\ forall m', (1 <= m' < m)%Z ->
                 ~ contains (toLowerCase q) (calendar_name m').

Definition no_month (q : string) : Prop :=
  forall m, (1 <= m <= 12)%Z -> ~ contains (toLowerCase q) (calendar_name m).

(** A word character ends [pre] ([b] says so for the empty text); a word
    character heads [post]. *)
Fixpoint word_before (b : bool) (pre : string) : bool :=
  match pre with
  | EmptyString => b
  | String c pre' => word_before (is_word c) pre'
  end.

Definition word_after (post : string) : bool :=
  match post with
  | EmptyString => false
  | String c _ => is_word c
  end.

(** "20" and two digits. *)
Definition year_shape (y : string) : Prop :=
  exists a b,
    is_digit a = true /\ is_digit b = true
    /\ y = String "2" (String "0" (String a (String b EmptyString))).

(** [y] is a year token of [q] after [pre]: it has the shape of a year and
    stands between two word boundaries. *)
Definition year_token (q pre y : string) : Prop :=
  year_shape y
  /\ word_before false pre = false
  /\ exists post, q = (pre ++ y ++ post)%string /\ word_after post = false.

Definition leftmost_year (q pre y : string) : Prop :=
  year_token q pre y
  /\ forall pre' y', year_token q pre' y' ->
                     (String.length pre <= String.length pre')%nat.

(** The number a string of decimal digits writes. *)
Fixpoint decimal (s : string) : Z :=
  match s with
  | EmptyString => 0
  | String c s' =>
      (Z.of_N (code c) - 48) * 10 ^ Z.of_nat (String.length s') + decimal s'
  end.

(** The year of a query: the number of its leftmost year token, if it has
    one. *)
Definition year_of (q : string) (yr : option Z) : Prop :=
  match yr with
  | Some n => exists pre y, leftmost_year q pre y /\ n = decimal y
  | None => forall pre y, ~ year_token q pre y
  end.

(** The date filter of a query, category by category in the order exact
    date, relative keyword, range keyword, month name, bare year: each rule
    applies when no earlier one does. *)
Inductive date_rule (now : MetadataFilters.clock) (q : string)
  : option obj -> Prop :=
| rule_exact_date (pre d post : string) :
    q = (pre ++ d ++ post)%string -> iso_date d -> leftmost_date q pre ->
    date_rule now q (Some [("date_str", VStr d)])
| rule_yesterday :
    no_iso q -> contains (toLowerCase q) "yesterday" ->
    date_rule now q (Some [("date_str", VStr (MetadataFilters.yesterday now))])
| rule_today :
    no_iso q -> ~ contains (toLowerCase q) "yesterday" ->
    contains (toLowerCase q) "today" ->
    date_rule now q (Some [("date_str", VStr (MetadataFilters.today now))])
| rule_last_week :
    no_iso q -> ~ contains (toLowerCase q) "yesterday" ->
    ~ contains (toLowerCase q) "today" ->
    contains (toLowerCase q) "last week" ->
    date_rule now q
      (Some [("dateRange",
              VObj [("start", VStr (MetadataFilters.lastWeekStart now));
                    ("end", VStr (MetadataFilters.today now))])])
| rule_month (m : Z) (yr : option Z) :
    no_iso q -> no_keyword q -> first_month q m -> year_of q yr ->
    date_rule now q (Some (("month", VNum m) :: opt_entry "year" VNum yr))
| rule_year (y : Z) :
    no_iso q -> no_keyword q -> no_month q -> year_of q (Some y) ->
    date_rule now q (Some [("year", VNum y)])
| rule_none :
    no_iso q -> no_keyword q -> no_month q -> year_of q None ->
    date_rule now q None.

(** A class that does not see the case of a letter: lower-casing a
    character changes neither the verdict nor a character that passes. *)
Definition case_blind (k : cls) : Prop :=
  forall c, cls_ok k (lower_char c) = cls_ok k c
            /\ (cls_ok k c = true -> lower_char c = c).

(** Every call of the Retrieve step succeeds and the store answers its
    query, made with the embedding of the processed message and the filter
    the step built, with the matches [l]. *)
Definition store_answers (w : Retrieval.world) (i : Retrieval.input)
  (l : list value) : Prop :=
  Retrieval.client_init w = Ok tt
  /\ Retrieval.index_handle w = Ok tt
  /\ Retrieval.trace_fault w = None
  /\ exists embedding answer props,
       Retrieval.generateEmbedding w (Retrieval.processedMessage i)
       = Ok embedding
       /\ Retrieval.index_query w embedding
            (Retrieval.buildFilterExpression (Retrieval.dateFilters i)
               (Retrieval.metadataFilters i))
          = Ok (VObj answer)
       /\ get_prop "matches" answer = VArr l props.

(** The fields of [src] among [ks] whose value is truthy, in the order of
    [ks]; nothing for a missing [src]. *)
Definition truthy_fields (src : option obj) (ks : list string) : obj :=
  match src with
  | Some o =>
      flat_map (fun k => if truthy (get_prop k o) then [(k, get_prop k o)]
                         else []) ks
  | None => []
  end.

(** The fields the builder of the Retrieve step looks at. *)
Definition step_date_fields : list string := ["year"; "month"; "day"; "date_str"].
Definition step_metadata_fields : list string := ["environment"; "status"].

(** The [type] tag of an insight. *)
Definition is_insight (v : value) : bool :=
  match v with
  | VStr "insight" => true
  | _ => false
  end.

(** The items of the content of a user message that are no file. *)
Definition non_file (items : list value) : list value :=
  filter (fun item => negb (DataUpload.str_is "file" (member_opt item "type")))
    items.

(** What one message of a record adds to the kept messages: nothing for an
    image, a system message with its content as it is, a user message with
    its content as it is or, for a content in parts, with the texts of the
    parts that are no file put together (nothing when that text is empty),
    nothing for any other role. *)
Inductive kept_of (w : DataUpload.world) (m : value) : list value -> Prop :=
| kept_image :
    member_opt m "type" = VStr "image_url" -> kept_of w m []
| kept_system :
    member_opt m "type" <> VStr "image_url" ->
    member_opt m "role" = VStr "system" ->
    kept_of w m [DataUpload.processed_message "system" (member_opt m "content")]
| kept_user_plain :
    member_opt m "type" <> VStr "image_url" ->
    member_opt m "role" = VStr "user" ->
    (forall items props, member_opt m "content" <> VArr items props) ->
    kept_of w m [DataUpload.processed_message "user" (member_opt m "content")]
| kept_user_parts (items : list value) (props : obj) (texts : list string) :
    member_opt m "type" <> VStr "image_url" ->
    member_opt m "role" = VStr "user" ->
    member_opt m "content" = VArr items props ->
    Forall2 (fun item t => DataUpload.text_of w (DataUpload.item_part item) = Ok t)
      (non_file items) texts ->
    kept_of w m
      (match DataUpload.join " " texts with
       | EmptyString => []
       | text => [DataUpload.processed_message "user" (VStr text)]
       end)
| kept_other :
    member_opt m "type" <> VStr "image_url" ->
    member_opt m "role" <> VStr "system" ->
    member_opt m "role" <> VStr "user" ->
    kept_of w m [].

(** A kept message: the role is one of the two literals. *)
Definition kept_message (pm : value) : Prop :=
  exists content_,
    pm = DataUpload.processed_message "system" content_
    \/ pm = DataUpload.processed_message "user" content_.

(** The line of a kept message in the text that is embedded. *)
Definition line_of (w : DataUpload.world) (pm : value) (line : string) : Prop :=
  exists role content_ text,
    pm = DataUpload.processed_message role content_
    /\ (role = "system" \/ role = "user")
    /\ DataUpload.text_of w content_ = Ok text
    /\ line = (role ++ ": " ++ text)%string.

(** The two lines the close operation writes. *)
Definition closing_line (id : string) : stream * string :=
  (Out, ("[Handit] Ending tracing session for flow: " ++ id)%string).

Definition failure_line (id : string) : stream * string :=
  (Err, ("[Handit] Error ending tracing session for flow " ++ id ++ ":")%string).

End Spec.
Import Spec.

(* ------------------------------------------------------------------ *)
(** ** Sample runs *)

Module Samples.

Definition a_clock : MetadataFilters.clock :=
  {| MetadataFilters.today := "2025-03-10";
     MetadataFilters.yesterday := "2025-03-09";
     MetadataFilters.lastWeekStart := "2025-03-03" |}.

Definition provider_down : exn := JsError "503 Service Unavailable".

(** The tracing client answers every close request. *)
Definition good_client : list string -> string -> option exn :=
  fun _ _ => None.

Definition nothing_seen : observed := {| console := []; requests := [] |}.

(** The embedding provider throws. *)
Definition embedding_down : Retrieval.world :=
  {| Retrieval.client_init := Ok tt;
     Retrieval.embeddings_create := fun _ => Throw provider_down;
     Retrieval.index_handle := Ok tt;
     Retrieval.index_query := fun _ _ => Ok (VObj [("matches", VArr [] [])]);
     Retrieval.trace_fault := None |}.

Definition a_retrieval_input : Retrieval.input :=
  {| Retrieval.originalMessage := " Show me failures from 2023-05-15 ";
     Retrieval.processedMessage := "Show me failures from 2023-05-15";
     Retrieval.timestamp := "2025-03-10T08:00:00.000Z";
     Retrieval.dateFilters := Some [("date_str", VStr "2023-05-15")];
     Retrieval.metadataFilters := Some [("status", VStr "failed")];
     Retrieval._handidFlowId := Some "flow-1741593600000-k3x9q2a" |}.

(** The completion provider answers with no choice. *)
Definition no_choice : Generation.world :=
  {| Generation.client_init := Ok tt;
     Generation.completions_create := fun _ _ => Ok {| choices := [] |};
     Generation.to_text := fun _ => "x";
     Generation.toFixed2 := fun _ => Ok "0.90";
     Generation.trace_fault := None |}.

Definition a_generation_input : Generation.input :=
  {| Generation.originalMessage := "How did the agent perform?";
     Generation.processedMessage := "How did the agent perform?";
     Generation.timestamp := "2025-03-10T08:00:00.000Z";
     Generation.context := Some [];
     Generation._handidFlowId := Some "flow-1741593600000-k3x9q2a" |}.

(** The provider rewrites the query, and [JSON.parse] reads its answer. *)
Definition rewriting_llm : FilterExtraction.world :=
  {| FilterExtraction.api_key := Some "sk-test";
     FilterExtraction.client_init := Ok tt;
     FilterExtraction.completions_create := fun _ _ =>
       Ok {| choices :=
               [{| choice_message := Some {| content := Some "{...}" |} |}] |};
     FilterExtraction.JSON_parse := fun _ =>
       Ok (VObj [("dateFilters", VObj [("date_str", VStr "2023-05-15")]);
                 ("metadataFilters", VNull);
                 ("extractedQuery", VStr "failures")]);
     FilterExtraction.trace_fault := None |}.

Definition a_filter_input : FilterExtraction.input :=
  {| FilterExtraction.originalMessage := " Show me failures from 2023-05-15 ";
     FilterExtraction.processedMessage := "Show me failures from 2023-05-15";
     FilterExtraction.timestamp := "2025-03-10T08:00:00.000Z";
     FilterExtraction._handidFlowId := Some "flow-1741593600000-k3x9q2a" |}.

(** The store returns one insight, which has no [input] and no [output]. *)
Definition an_insight : value :=
  VObj [("id", VStr "insight-4"); ("score", VNum 1);
        ("metadata",
         VObj [("type", VStr "insight");
               ("problem", VStr "Timeouts in production");
               ("solution", VStr "Raise the limit");
               ("created_at", VStr "2023-05-15T10:00:00Z")])].

Definition store_with_insight : Retrieval.world :=
  {| Retrieval.client_init := Ok tt;
     Retrieval.embeddings_create := fun _ =>
       Ok (VObj [("data", VArr [VObj [("embedding", VArr [VNum 0] [])]] [])]);
     Retrieval.index_handle := Ok tt;
     Retrieval.index_query := fun _ _ =>
       Ok (VObj [("matches", VArr [an_insight] [])]);
     Retrieval.trace_fault := None |}.

(** A well-formed entry of the store, and a store that returns it beside
    a match without metadata. *)
Definition an_entry : value :=
  VObj [("id", VStr "entry-3"); ("score", VNum 1);
        ("metadata",
         VObj [("type", VStr "entry");
               ("input", VStr "How do I reset my password?");
               ("output", VStr "Use the reset link.");
               ("created_at", VStr "2023-05-15T10:00:00Z")])].

Definition store_with (matches : list value) : Retrieval.world :=
  {| Retrieval.client_init := Ok tt;
     Retrieval.embeddings_create := fun _ =>
       Ok (VObj [("data", VArr [VObj [("embedding", VArr [VNum 0] [])]] [])]);
     Retrieval.index_handle := Ok tt;
     Retrieval.index_query := fun _ _ =>
       Ok (VObj [("matches", VArr matches [])]);
     Retrieval.trace_fault := None |}.

(** A match of the store whose metadata has no field at all. *)
Definition bare_match : value :=
  VObj [("id", VStr "entry-17"); ("score", VNum 1); ("metadata", VObj [])].

(** A provider that answers, with the texts of strings as they are. *)
Definition plain_generation : Generation.world :=
  {| Generation.client_init := Ok tt;
     Generation.completions_create := fun _ _ =>
       Ok {| choices :=
               [{| choice_message := Some {| content := Some "Use the reset link." |} |}] |};
     Generation.to_text := fun v =>
       match v with
       | VStr s => s
       | _ => "undefined"
       end;
     Generation.toFixed2 := fun _ => Ok "0.90";
     Generation.trace_fault := None |}.

Definition an_entry_item : obj :=
  [("input", VStr "How do I reset my password?");
   ("output", VStr "Use the reset link.");
   ("created_at", VStr "2023-05-15T10:00:00Z");
   ("score", VNum 1)].

Definition an_insight_item : obj :=
  [("input", VStr "-"); ("output", VStr "-");
   ("created_at", VStr "2023-05-16T10:00:00Z"); ("score", VNum 1);
   ("type", VStr "insight");
   ("problem", VStr "Timeouts in production");
   ("solution", VStr "Raise the limit")].

Definition a_context_block : string :=
  match Generation.formatContext plain_generation
          (Some [an_entry_item; an_insight_item]) with
  | Ok text => text
  | Throw _ => EmptyString
  end.

(** The messages of one record of the CSV, as [JSON.parse] reads them. *)
Definition raw_messages : list value :=
  [VObj [("role", VStr "system"); ("content", VStr "You classify files.")];
   VObj [("role", VStr "user");
         ("content",
          VArr [VObj [("type", VStr "text"); ("text", VStr "Classify")];
                VObj [("type", VStr "file"); ("file", VStr "a.pdf")];
                VObj [("type", VStr "text"); ("text", VStr "this file")]] [])];
   VObj [("type", VStr "image_url"); ("role", VStr "user")];
   VObj [("role", VStr "assistant"); ("content", VStr "invoice")]].

Definition an_upload_world : DataUpload.world :=
  {| DataUpload.JSON_parse := fun _ =>
       Ok (VObj [("messages", VArr raw_messages [])]);
     DataUpload.JSON_stringify := fun _ => "[...]";
     DataUpload.number_text := fun _ => "0";
     DataUpload.object_text := fun v =>
       match v with
       | VObj o =>
           if has_prop "toString" o
           then Throw (JsError "Cannot convert object to primitive value")
           else Ok "[object Object]"
       | _ => Ok EmptyString
       end;
     DataUpload.extractDateComponents := fun _ => None;
     DataUpload.embeddings_create := fun _ =>
       Ok (VObj [("data", VArr [VObj [("embedding", VArr [VNum 0] [])]] [])]);
     DataUpload.upsert := fun _ => Ok tt |}.

Definition kept_messages : list value :=
  match DataUpload.process_messages an_upload_world [] raw_messages with
  | Ok l => l
  | Throw _ => []
  end.

(** A record whose system message has an object for content, with a
    [toString] that is no function. *)
Definition odd_messages : list value :=
  [VObj [("role", VStr "system");
         ("content", VObj [("toString", VNum 1)])];
   VObj [("role", VStr "user"); ("content", VStr "Classify this file")]].

Definition an_odd_world : DataUpload.world :=
  {| DataUpload.JSON_parse := fun _ =>
       Ok (VObj [("messages", VArr odd_messages [])]);
     DataUpload.JSON_stringify := DataUpload.JSON_stringify an_upload_world;
     DataUpload.number_text := DataUpload.number_text an_upload_world;
     DataUpload.object_text := DataUpload.object_text an_upload_world;
     DataUpload.extractDateComponents := fun _ => None;
     DataUpload.embeddings_create := DataUpload.embeddings_create an_upload_world;
     DataUpload.upsert := fun _ => Ok tt |}.

Definition a_record : obj :=
  [("id", VStr "17"); ("input", VStr "{...}"); ("output", VStr "invoice");
   ("is_correct", VStr "TRUE"); ("created_at", VStr "2023-05-15 10:00:00");
   ("updated_at", VStr "2023-05-15 10:00:01"); ("model_id", VStr "3");
   ("environment", VStr "production")].

Definition an_odd_entry : obj :=
  match DataUpload.process_entries an_odd_world [a_record] with
  | processed :: _ => processed
  | [] => []
  end.

Definition a_processed_entry : obj :=
  match DataUpload.process_entries an_upload_world [a_record] with
  | processed :: _ => processed
  | [] => []
  end.

End Samples.

(* ================================================================== *)
(** * Properties *)

(** ** Strings *)

Lemma append_assoc (a b c : string) :
  ((a ++ b) ++ c = a ++ (b ++ c))%string.
Proof. induction a as [|x a IH]; simpl; [reflexivity | now rewrite IH]. Qed.

Lemma prefix_spec (p s : string) :
  prefix p s = true <-> exists r, s = (p ++ r)%string.
Proof.
  revert s; induction p as [|c p IH]; intros s; simpl.
  - split; [intros _; now exists s | intros _; now destruct s].
  - destruct s as [|c' s]; simpl.
    + split; [discriminate | intros [r H]; discriminate].
    + destruct (Ascii.ascii_dec c c') as [->|Hne].
      * rewrite IH. split; intros [r H]; exists r.
        -- now rewrite H.
        -- now inversion H.
      * split; [discriminate | intros [r H]; inversion H; congruence].
Qed.

Lemma includes_spec (s pat : string) :
  includes s pat = true <-> contains s pat.
Proof.
  unfold contains. induction s as [|c s IH].
  - cbn [includes]. rewrite orb_false_r, prefix_spec. split.
    + intros [r H]. now exists EmptyString, r.
    + intros [pre [post H]]. destruct pre; simpl in H; [now exists post|discriminate].
  - cbn [includes]. rewrite orb_true_iff, prefix_spec, IH. split.
    + intros [[r H]|[pre [post H]]].
      * now exists EmptyString, r.
      * exists (String c pre), post. simpl. now rewrite H.
    + intros [pre [post H]]. destruct pre as [|c' pre]; simpl in H.
      * left. now exists post.
      * right. inversion H. now exists pre, post.
Qed.

(** A text that includes a word includes every part of the word. *)
Lemma includes_part (s a w b : string) :
  includes s (a ++ w ++ b) = true -> includes s w = true.
Proof.
  rewrite !includes_spec. intros [pre [post H]].
  exists (pre ++ a)%string, (b ++ post)%string.
  now rewrite H, !append_assoc.
Qed.

Lemma includes_incorrect (s : string) :
  includes s "incorrect" = true -> includes s "correct" = true.
Proof. apply (includes_part s "in" "correct" EmptyString). Qed.

(** ** Objects *)

Lemma get_set_same (k : string) (v : value) (o : obj) :
  get_prop k (set_prop k v o) = v.
Proof.
  induction o as [|[k' v'] o IH]; simpl.
  - now rewrite String.eqb_refl.
  - destruct (k' =? k)%string eqn:E; simpl.
    + now rewrite String.eqb_refl.
    + now rewrite E.
Qed.

Lemma get_set_other (k k' : string) (v : value) (o : obj) :
  (k' =? k)%string = false ->
  get_prop k (set_prop k' v o) = get_prop k o.
Proof.
  intros Hne. induction o as [|[k0 v0] o IH]; simpl.
  - now rewrite Hne.
  - destruct (k0 =? k')%string eqn:E; simpl.
    + apply String.eqb_eq in E; subst k0. now rewrite Hne.
    + now rewrite IH.
Qed.

Lemma set_prop_nonempty (k : string) (v : value) (o : obj) :
  set_prop k v o <> [].
Proof. destruct o as [|[k' v'] o]; simpl; [|destruct (k' =? k)%string]; discriminate. Qed.

Lemma nonempty_or_null_some (o : obj) :
  o <> [] -> MetadataFilters.nonempty_or_null o = Some o.
Proof. destruct o; [contradiction | reflexivity]. Qed.

Lemma field_of_nonempty_or_null (k : string) (o : obj) :
  MetadataFilters.field_of k (MetadataFilters.nonempty_or_null o) = get_prop k o.
Proof. destruct o; reflexivity. Qed.

(** ** The deterministic metadata extractor *)

Section KeywordLoop.

Variables (field : string) (query : string).

Lemma find_snoc {A} (p : A -> bool) (l : list A) (x : A) :
  find p (l ++ [x]) =
  match find p l with
  | Some y => Some y
  | None => if p x then Some x else None
  end.
Proof.
  induction l as [|a l IH]; simpl; [reflexivity|].
  destruct (p a); [reflexivity | exact IH].
Qed.

(** The loop leaves in [field] the last keyword, in declared order, that
    the lower-cased query includes. *)
Lemma keyword_loop_field (kws : list string) (filters : obj) :
  get_prop field (MetadataFilters.keyword_loop field kws query filters) =
  match last_match kws (toLowerCase query) with
  | Some kw => VStr kw
  | None => get_prop field filters
  end.
Proof.
  unfold MetadataFilters.keyword_loop, last_match.
  revert filters. induction kws as [|kw kws IH]; intros filters; simpl.
  - reflexivity.
  - rewrite IH, find_snoc.
    destruct (find (includes (toLowerCase query)) (rev kws)); [reflexivity|].
    destruct (includes (toLowerCase query) kw); [apply get_set_same | reflexivity].
Qed.

Lemma keyword_loop_other (k : string) (kws : list string) (filters : obj) :
  (field =? k)%string = false ->
  get_prop k (MetadataFilters.keyword_loop field kws query filters) =
  get_prop k filters.
Proof.
  intros Hne. unfold MetadataFilters.keyword_loop.
  revert filters. induction kws as [|kw kws IH]; intros filters; simpl.
  - reflexivity.
  - rewrite IH.
    destruct (includes (toLowerCase query) kw); [now apply get_set_other | reflexivity].
Qed.

End KeywordLoop.

Lemma correctness_other (k query : string) (filters : obj) :
  ("is_correct" =? k)%string = false ->
  get_prop k (MetadataFilters.correctness query filters) = get_prop k filters.
Proof.
  intros Hne. unfold MetadataFilters.correctness.
  destruct (includes (toLowerCase query) "correct").
  - now apply get_set_other.
  - destruct (includes (toLowerCase query) "incorrect"
              || includes (toLowerCase query) "wrong").
    + now apply get_set_other.
    + reflexivity.
Qed.

(** What the correctness test does, case by case: the test for "correct"
    comes first, and a text with "incorrect" passes it. *)
Lemma is_correct_cases (query : string) :
  MetadataFilters.field_of "is_correct" (MetadataFilters.extractMetadataFilters query) =
  if includes (toLowerCase query) "correct" then VBool true
  else if includes (toLowerCase query) "wrong" then VBool false
  else VUndefined.
Proof.
  unfold MetadataFilters.extractMetadataFilters.
  rewrite field_of_nonempty_or_null.
  unfold MetadataFilters.correctness.
  destruct (includes (toLowerCase query) "correct") eqn:Hc.
  - apply get_set_same.
  - destruct (includes (toLowerCase query) "incorrect") eqn:Hi.
    + apply includes_incorrect in Hi. congruence.
    + cbn [orb]. destruct (includes (toLowerCase query) "wrong").
      * apply get_set_same.
      * now rewrite !keyword_loop_other.
Qed.

(** C1 (defect in the code): every query whose lower-cased
    text contains "incorrect" gets [is_correct = true], since the test for
    "correct" is made first and "incorrect" contains "correct"; the branch
    that would set false on "incorrect" is never reached. *)
Theorem C1_incorrect_is_marked_correct (query : string) :
  contains (toLowerCase query) "incorrect" ->
  MetadataFilters.field_of "is_correct"
    (MetadataFilters.extractMetadataFilters query) = VBool true.
Proof.
  intros H. apply includes_spec, includes_incorrect in H.
  now rewrite is_correct_cases, H.
Qed.

Lemma C1_incorrect_is_marked_correct_witness :
  contains (toLowerCase "Show me incorrect outputs") "incorrect"
  /\ MetadataFilters.extractMetadataFilters "Show me incorrect outputs"
     = Some [("is_correct", VBool true)]
  /\ MetadataFilters.field_of "is_correct"
       (MetadataFilters.extractMetadataFilters "Show me incorrect outputs")
     = VBool true.
Proof.
  assert (H : contains (toLowerCase "Show me incorrect outputs") "incorrect")
    by (apply includes_spec; vm_compute; reflexivity).
  split; [exact H | split].
  - vm_compute; reflexivity.
  - apply (C1_incorrect_is_marked_correct "Show me incorrect outputs" H).
Defined.

(** The parts of the correctness rule that the code does follow: "wrong"
    without "correct" gives false, and no keyword leaves the field unset. *)
Lemma is_correct_wrong (query : string) :
  includes (toLowerCase query) "correct" = false ->
  includes (toLowerCase query) "wrong" = true ->
  MetadataFilters.field_of "is_correct"
    (MetadataFilters.extractMetadataFilters query) = VBool false.
Proof. intros Hc Hw. now rewrite is_correct_cases, Hc, Hw. Qed.

Lemma is_correct_unset (query : string) :
  includes (toLowerCase query) "correct" = false ->
  includes (toLowerCase query) "wrong" = false ->
  MetadataFilters.field_of "is_correct"
    (MetadataFilters.extractMetadataFilters query) = VUndefined.
Proof. intros Hc Hw. now rewrite is_correct_cases, Hc, Hw. Qed.

(** C6 (as stated, refuted): a query with two environment keywords need not
    get the first one in declared order. "Show production test results"
    includes "production" (declared first) and "test" (declared last), and
    the field is "test". *)
Lemma C6_first_match_refuted :
  ~ (forall query kw,
       first_match MetadataFilters.environments (toLowerCase query) = Some kw ->
       MetadataFilters.field_of "environment"
         (MetadataFilters.extractMetadataFilters query) = VStr kw).
Proof.
  intros H.
  specialize (H "Show production test results" "production" eq_refl).
  vm_compute in H. discriminate H.
Qed.

(** C6 (amended): for every query, the environment field and the status
    field are each the last keyword of their declared list that the
    lower-cased query includes, and are unset when it includes none: the
    loops have no break, so a later keyword overwrites an earlier one. *)
Theorem C6_last_match_wins (query : string) :
  MetadataFilters.field_of "environment"
    (MetadataFilters.extractMetadataFilters query)
  = of_opt_str (last_match MetadataFilters.environments (toLowerCase query))
  /\ MetadataFilters.field_of "status"
       (MetadataFilters.extractMetadataFilters query)
     = of_opt_str (last_match MetadataFilters.statuses (toLowerCase query)).
Proof.
  unfold MetadataFilters.extractMetadataFilters.
  rewrite !field_of_nonempty_or_null. split.
  - rewrite correctness_other by reflexivity.
    rewrite keyword_loop_other by reflexivity.
    rewrite keyword_loop_field.
    now destruct (last_match MetadataFilters.environments (toLowerCase query)).
  - rewrite correctness_other by reflexivity.
    rewrite keyword_loop_field.
    destruct (last_match MetadataFilters.statuses (toLowerCase query)); [reflexivity|].
    now rewrite keyword_loop_other.
Qed.

(** ** The deterministic date extractor *)

Lemma match_here_sound (p : list cls) (s m r : string) :
  match_here p s = Some (m, r) -> s = (m ++ r)%string /\ has_shape p m.
Proof.
  unfold has_shape. revert s m r.
  induction p as [|k p IH]; intros s m r; simpl.
  - intros H; inversion H; subst. split; [reflexivity | constructor].
  - destruct s as [|c s]; [discriminate|].
    destruct (cls_ok k c) eqn:Hk; [|discriminate].
    destruct (match_here p s) as [[m' r']|] eqn:Hm; [|discriminate].
    intros H; inversion H; subst. destruct (IH _ _ _ Hm) as [-> Hs].
    split; [reflexivity | now constructor].
Qed.

Lemma match_here_complete (p : list cls) (m r : string) :
  has_shape p m -> match_here p (m ++ r) = Some (m, r).
Proof.
  unfold has_shape. revert m.
  induction p as [|k p IH]; intros m H; destruct m as [|c m];
    simpl in *; inversion H; subst.
  - reflexivity.
  - rewrite H3, (IH m H5). reflexivity.
Qed.

Lemma match_iso_date_complete (pre d post : string) :
  iso_shape d -> exists d', match_iso_date (pre ++ d ++ post) = Some d'.
Proof.
  intros Hd. induction pre as [|c pre IH].
  - exists d. simpl append.
    destruct (d ++ post)%string eqn:E;
      cbn [match_iso_date]; rewrite <- E, (match_here_complete _ _ _ Hd);
      reflexivity.
  - change (String c pre ++ d ++ post)%string
      with (String c (pre ++ d ++ post)%string).
    cbn [match_iso_date].
    destruct (match_here iso_pattern (String c (pre ++ d ++ post)))
      as [[m r]|]; [now exists m | exact IH].
Qed.

(** A match of the date expression is an ISO date of the query, and the
    leftmost one. *)
Lemma match_iso_date_sound (q d : string) :
  match_iso_date q = Some d ->
  iso_shape d /\
  exists pre post, q = (pre ++ d ++ post)%string /\ leftmost_iso q pre.
Proof.
  revert d. induction q as [|c q IH]; intros d.
  - cbn. discriminate.
  - cbn [match_iso_date].
    destruct (match_here iso_pattern (String c q)) as [[m r]|] eqn:Hm.
    + intros H; inversion H; subst m.
      destruct (match_here_sound _ _ _ _ Hm) as [Hq Hs].
      split; [exact Hs|]. exists EmptyString, r. split; [exact Hq|].
      intros ? ? ? _ _. apply Nat.le_0_l.
    + intros H. destruct (IH d H) as [Hs [pre [post [Hq Hleft]]]].
      split; [exact Hs|]. exists (String c pre), post. split.
      * simpl. now rewrite Hq.
      * intros pre' d' post' Hq' Hs'. destruct pre' as [|c' pre'].
        -- simpl in Hq'. rewrite Hq', (match_here_complete _ _ _ Hs') in Hm.
           discriminate.
        -- simpl in Hq'. inversion Hq'; subst c'.
           simpl. apply le_n_S. now apply (Hleft pre' d' post').
Qed.

Lemma match_iso_date_leftmost (pre d post : string) :
  iso_shape d ->
  leftmost_iso (pre ++ d ++ post) pre ->
  match_iso_date (pre ++ d ++ post) = Some d.
Proof.
  intros Hd. induction pre as [|c pre IH]; intros Hleft.
  - simpl append.
    destruct (d ++ post)%string eqn:E;
      cbn [match_iso_date]; rewrite <- E, (match_here_complete _ _ _ Hd);
      reflexivity.
  - change (String c pre ++ d ++ post)%string
      with (String c (pre ++ d ++ post)%string) in *.
    cbn [match_iso_date].
    destruct (match_here iso_pattern (String c (pre ++ d ++ post)))
      as [[m r]|] eqn:Hm.
    + destruct (match_here_sound _ _ _ _ Hm) as [Hq Hs].
      specialize (Hleft EmptyString m r Hq Hs). simpl in Hleft. lia.
    + apply IH. intros pre' d' post' Hq' Hs'.
      apply le_S_n.
      apply (Hleft (String c pre') d' post'); [simpl; now rewrite Hq' | exact Hs'].
Qed.

(** The month loop returns at the first name of the list that the query
    includes. *)
Lemma month_loop_first (q : string) (names : list string) (i : Z) (o : obj) :
  MetadataFilters.month_loop q names i = Some o ->
  exists before name after,
    names = before ++ name :: after
    /\ Forall (fun n => includes (toLowerCase q) n = false) before
    /\ includes (toLowerCase q) name = true
    /\ o = MetadataFilters.with_year q
             [("month", VNum (i + Z.of_nat (length before) + 1))].
Proof.
  revert i. induction names as [|n names IH]; intros i;
    cbn [MetadataFilters.month_loop]; [discriminate|].
  destruct (includes (toLowerCase q) n) eqn:Hn.
  - intros H; inversion H. exists [], n, names.
    repeat split; [constructor | exact Hn |].
    cbn [length Z.of_nat set_prop]. now replace (i + 0 + 1)%Z with (i + 1)%Z by lia.
  - intros H. destruct (IH _ H) as [before [name [after [Hl [Hb [Hi Ho]]]]]].
    exists (n :: before), name, after.
    repeat split; [now rewrite Hl | now constructor | exact Hi |].
    rewrite Ho.
    replace (i + Z.of_nat (length (n :: before)) + 1)%Z
      with (i + 1 + Z.of_nat (length before) + 1)%Z by (cbn [length]; lia).
    reflexivity.
Qed.

Lemma month_loop_none (q : string) (names : list string) (i : Z) :
  MetadataFilters.month_loop q names i = None ->
  Forall (fun n => includes (toLowerCase q) n = false) names.
Proof.
  revert i. induction names as [|n names IH]; intros i;
    cbn [MetadataFilters.month_loop]; [constructor|].
  destruct (includes (toLowerCase q) n) eqn:Hn; [discriminate|].
  intros H. constructor; [exact Hn | exact (IH _ H)].
Qed.

Lemma not_contains (s pat : string) :
  includes s pat = false <-> ~ contains s pat.
Proof.
  rewrite <- includes_spec. destruct (includes s pat); split; intros H;
    congruence || (exfalso; now apply H) || reflexivity.
Qed.

(** The shape the date expression matches is that of an ISO date. *)
Lemma iso_shape_date (d : string) : iso_shape d <-> iso_date d.
Proof.
  unfold iso_shape, has_shape, iso_pattern, iso_date, all_digits. split.
  - intros H.
    destruct d as [|c1 [|c2 [|c3 [|c4 [|c5 [|c6 [|c7 [|c8 [|c9 [|c10 [|c11 d]]]]]]]]]]];
      simpl in H;
      repeat match goal with
             | H : Forall2 _ _ _ |- _ => inversion H; clear H; subst
             end.
    repeat match goal with
           | H : cls_ok (Lit _) _ = true |- _ =>
               simpl in H; apply Ascii.eqb_eq in H; subst
           | H : cls_ok Digit _ = true |- _ => simpl in H
           end.
    exists (String c1 (String c2 (String c3 (String c4 EmptyString)))),
      (String c6 (String c7 EmptyString)),
      (String c9 (String c10 EmptyString)).
    repeat split; simpl; repeat constructor; assumption.
  - intros [y [m [dd [-> [Hy [Hm [Hd [Dy [Dm Dd]]]]]]]]].
    destruct y as [|y1 [|y2 [|y3 [|y4 [|y5 y]]]]]; try discriminate Hy.
    destruct m as [|m1 [|m2 [|m3 m]]]; try discriminate Hm.
    destruct dd as [|d1 [|d2 [|d3 dd]]]; try discriminate Hd.
    simpl in Dy, Dm, Dd |- *.
    repeat match goal with
           | H : Forall _ (_ :: _) |- _ => inversion H; clear H; subst
           end.
    repeat constructor; assumption.
Qed.

Lemma leftmost_iso_date (q pre : string) :
  leftmost_iso q pre <-> leftmost_date q pre.
Proof.
  split; intros H pre' d' post' Hq Hd; apply (H pre' d' post' Hq);
    now apply iso_shape_date.
Qed.

(** The date expression: its match is the leftmost ISO date of the query,
    and it fails exactly on a query without one. *)
Lemma match_iso_date_cases (q : string) :
  match match_iso_date q with
  | Some d =>
      exists pre post,
        q = (pre ++ d ++ post)%string /\ iso_date d /\ leftmost_date q pre
  | None => no_iso q
  end.
Proof.
  destruct (match_iso_date q) as [d|] eqn:Hm.
  - destruct (match_iso_date_sound q d Hm) as [Hs [pre [post [Hq Hl]]]].
    exists pre, post. split; [exact Hq|].
    split; [now apply iso_shape_date | now apply leftmost_iso_date].
  - intros d Hd [pre [post Hq]]. apply iso_shape_date in Hd.
    destruct (match_iso_date_complete pre d post Hd) as [d' Hd'].
    rewrite <- Hq in Hd'. congruence.
Qed.

Lemma no_iso_no_match (q : string) : no_iso q -> match_iso_date q = None.
Proof.
  intros Hno. pose proof (match_iso_date_cases q) as H.
  destruct (match_iso_date q) as [d|]; [|reflexivity].
  destruct H as [pre [post [Hq [Hs _]]]].
  exfalso. apply (Hno d Hs). now exists pre, post.
Qed.

(** The month loop: the month it sets is the earliest one of the calendar
    whose name the query contains, and it falls through exactly when the
    query contains no month name. *)
Lemma calendar_name_nth (n : nat) :
  (n < 12)%nat ->
  calendar_name (Z.of_nat n + 1) = nth n MetadataFilters.monthNames EmptyString.
Proof.
  intros Hn.
  do 12 (destruct n as [|n]; [reflexivity|]). lia.
Qed.

Lemma month_loop_cases (q : string) :
  match MetadataFilters.month_loop q MetadataFilters.monthNames 0 with
  | Some o =>
      exists m, first_month q m
                /\ o = MetadataFilters.with_year q [("month", VNum m)]
  | None => no_month q
  end.
Proof.
  destruct (MetadataFilters.month_loop q MetadataFilters.monthNames 0)
    as [o|] eqn:Hloop.
  - destruct (month_loop_first _ _ _ _ Hloop)
      as [before [name [after [Hl [Hb [Hi Ho]]]]]].
    assert (Hlen : (length before < 12)%nat).
    { apply (f_equal (@length string)) in Hl.
      rewrite length_app in Hl. cbn in Hl. lia. }
    exists (Z.of_nat (length before) + 1)%Z. split; [|exact Ho].
    split; [lia|]. split.
    + apply includes_spec.
      rewrite calendar_name_nth, Hl, nth_middle by lia. exact Hi.
    + intros m' Hm'. apply not_contains.
      replace m' with (Z.of_nat (Z.to_nat (m' - 1)) + 1)%Z by lia.
      rewrite calendar_name_nth, Hl, app_nth1 by lia.
      rewrite Forall_forall in Hb. apply Hb, nth_In. lia.
  - pose proof (month_loop_none _ _ _ Hloop) as Hnone.
    intros m Hm. apply not_contains.
    replace m with (Z.of_nat (Z.to_nat (m - 1)) + 1)%Z by lia.
    rewrite calendar_name_nth by lia.
    rewrite Forall_forall in Hnone. apply Hnone, nth_In.
    change (length MetadataFilters.monthNames) with 12%nat. lia.
Qed.

Lemma first_month_unique (q : string) (m m' : Z) :
  first_month q m -> first_month q m' -> m = m'.
Proof.
  intros [Hm [Hc Hmin]] [Hm' [Hc' Hmin']].
  destruct (Z.lt_trichotomy m m') as [Hlt|[Heq|Hgt]]; [|exact Heq|].
  - exfalso. apply (Hmin' m); [lia | exact Hc].
  - exfalso. apply (Hmin m'); [lia | exact Hc'].
Qed.

(** The year expression. *)
Lemma year_shape_pattern (y : string) :
  has_shape year_pattern y <-> year_shape y.
Proof.
  unfold has_shape, year_pattern, year_shape. split.
  - intros H.
    destruct y as [|c1 [|c2 [|c3 [|c4 [|c5 y]]]]]; simpl in H;
      repeat match goal with
             | H : Forall2 _ _ _ |- _ => inversion H; clear H; subst
             end.
    repeat match goal with
           | H : cls_ok (Lit _) _ = true |- _ =>
               simpl in H; apply Ascii.eqb_eq in H; subst
           end.
    exists c3, c4. repeat split; assumption.
  - intros [a [b [Ha [Hb ->]]]]. simpl.
    repeat constructor; assumption.
Qed.

Lemma boundary_after_word (r : string) :
  boundary_after r = negb (word_after r).
Proof. now destruct r. Qed.

Lemma year_here_complete (b : bool) (y r : string) :
  has_shape year_pattern y -> b = false -> word_after r = false ->
  year_here b (y ++ r) = Some y.
Proof.
  intros Hs -> Hr. unfold year_here.
  rewrite (match_here_complete _ _ _ Hs), boundary_after_word, Hr.
  reflexivity.
Qed.

Lemma match_year_from_cases (s : string) (b : bool) :
  match match_year_from b s with
  | Some y =>
      exists p r,
        s = (p ++ y ++ r)%string /\ has_shape year_pattern y
        /\ word_before b p = false /\ word_after r = false
        /\ forall p' y' r',
             s = (p' ++ y' ++ r')%string -> has_shape year_pattern y' ->
             word_before b p' = false -> word_after r' = false ->
             (String.length p <= String.length p')%nat
  | None =>
      forall p' y' r',
        s = (p' ++ y' ++ r')%string -> has_shape year_pattern y' ->
        word_before b p' = false -> word_after r' = false -> False
  end.
Proof.
  revert b. induction s as [|c s IH]; intros b.
  - assert (Hnone : match_year_from b EmptyString = None)
      by (now destruct b).
    rewrite Hnone. intros p' y' r' Hq Hs _ _.
    destruct p'; [|discriminate Hq]. destruct y'; [|discriminate Hq].
    inversion Hs.
  - cbn [match_year_from].
    destruct (year_here b (String c s)) as [m|] eqn:Hy.
    + unfold year_here in Hy. destruct b; [discriminate|].
      destruct (match_here year_pattern (String c s)) as [[m' r]|] eqn:Hm;
        [|discriminate].
      destruct (boundary_after r) eqn:Hb; [|discriminate].
      inversion Hy; subst m'.
      destruct (match_here_sound _ _ _ _ Hm) as [Hq Hs].
      exists EmptyString, r. split; [exact Hq|]. split; [exact Hs|].
      split; [reflexivity|]. split.
      * rewrite boundary_after_word in Hb. now destruct (word_after r).
      * intros. apply Nat.le_0_l.
    + assert (Hhead : forall y' r',
                String c s = (y' ++ r')%string -> has_shape year_pattern y' ->
                b = false -> word_after r' = false -> False).
      { intros y' r' Hq Hs Hb Hr.
        rewrite Hq, (year_here_complete b y' r' Hs Hb Hr) in Hy. discriminate. }
      specialize (IH (is_word c)).
      destruct (match_year_from (is_word c) s) as [y|].
      * destruct IH as [p [r [Hq [Hs [Hb [Hr Hleft]]]]]].
        exists (String c p), r. split; [simpl; now rewrite Hq|].
        split; [exact Hs|]. split; [exact Hb|]. split; [exact Hr|].
        intros p' y' r' Hq' Hs' Hb' Hr'. destruct p' as [|c' p'].
        -- exfalso. exact (Hhead y' r' Hq' Hs' Hb' Hr').
        -- simpl in Hq'. inversion Hq'; subst c'. simpl.
           apply le_n_S. exact (Hleft p' y' r' H1 Hs' Hb' Hr').
      * intros p' y' r' Hq' Hs' Hb' Hr'. destruct p' as [|c' p'].
        -- exact (Hhead y' r' Hq' Hs' Hb' Hr').
        -- simpl in Hq'. inversion Hq'; subst c'.
           exact (IH p' y' r' H1 Hs' Hb' Hr').
Qed.

(** Its match is the leftmost year token of the query, and it fails
    exactly on a query without one. *)
Lemma match_year_cases (q : string) :
  match match_year q with
  | Some y => exists pre, leftmost_year q pre y
  | None => forall pre y, ~ year_token q pre y
  end.
Proof.
  unfold match_year. pose proof (match_year_from_cases q false) as H.
  destruct (match_year_from false q) as [y|].
  - destruct H as [p [r [Hq [Hs [Hb [Hr Hleft]]]]]].
    exists p. split.
    + split; [now apply year_shape_pattern|]. split; [exact Hb|]. now exists r.
    + intros pre' y' [Hs' [Hb' [post' [Hq' Hr']]]].
      apply (Hleft pre' y' post' Hq'); [now apply year_shape_pattern | | ];
        assumption.
  - intros pre y [Hs [Hb [post [Hq Hr]]]].
    apply (H pre y post Hq); [now apply year_shape_pattern | |]; assumption.
Qed.

Lemma append_same_length (a b c d : string) :
  String.length a = String.length c ->
  (a ++ b = c ++ d)%string -> a = c /\ b = d.
Proof.
  revert c. induction a as [|x a IH]; intros [|y c] Hlen H;
    try discriminate Hlen.
  - now split.
  - simpl in H. inversion H; subst y.
    destruct (IH c) as [-> ->]; [now inversion Hlen | assumption | now split].
Qed.

Lemma year_shape_length (y : string) : year_shape y -> String.length y = 4%nat.
Proof. now intros [a [b [_ [_ ->]]]]. Qed.

Lemma leftmost_year_unique (q p1 y1 p2 y2 : string) :
  leftmost_year q p1 y1 -> leftmost_year q p2 y2 -> y1 = y2.
Proof.
  intros [Ht1 Hl1] [Ht2 Hl2].
  pose proof (Hl1 _ _ Ht2) as H12. pose proof (Hl2 _ _ Ht1) as H21.
  destruct Ht1 as [Hs1 [_ [post1 [Hq1 _]]]].
  destruct Ht2 as [Hs2 [_ [post2 [Hq2 _]]]].
  rewrite Hq1 in Hq2.
  assert (Hlen : String.length p1 = String.length p2) by lia.
  destruct (append_same_length p1 (y1 ++ post1) p2 (y2 ++ post2) Hlen Hq2)
    as [_ Hrest].
  apply (append_same_length y1 post1 y2 post2); [|exact Hrest].
  now rewrite !year_shape_length.
Qed.

Lemma parse_digits_decimal (s : string) (acc : Z) :
  parse_digits acc s
  = (acc * 10 ^ Z.of_nat (String.length s) + decimal s)%Z.
Proof.
  revert acc. induction s as [|c s IH]; intros acc.
  - cbn. lia.
  - cbn [parse_digits decimal String.length]. rewrite IH.
    rewrite Nat2Z.inj_succ, Z.pow_succ_r by lia. ring.
Qed.

Lemma parseInt_decimal (s : string) : parseInt s = decimal s.
Proof. unfold parseInt. rewrite parse_digits_decimal. lia. Qed.

(** The year a query has, as the code reads it. *)
Lemma year_of_code (q : string) :
  year_of q (option_map parseInt (match_year q)).
Proof.
  pose proof (match_year_cases q) as H.
  destruct (match_year q) as [y|]; cbn [option_map year_of].
  - destruct H as [pre H]. exists pre, y. split; [exact H | apply parseInt_decimal].
  - exact H.
Qed.

Lemma year_of_functional (q : string) (yr : option Z) :
  year_of q yr -> option_map parseInt (match_year q) = yr.
Proof.
  pose proof (match_year_cases q) as H.
  destruct (match_year q) as [y|]; destruct yr as [n|];
    cbn [option_map year_of]; intros Hyr.
  - destruct H as [pre H]. destruct Hyr as [pre' [y' [H' ->]]].
    now rewrite parseInt_decimal, (leftmost_year_unique _ _ _ _ _ H H').
  - destruct H as [pre [H _]]. exfalso. exact (Hyr pre y H).
  - destruct Hyr as [pre' [y' [[H' _] _]]]. exfalso. exact (H pre' y' H').
  - reflexivity.
Qed.

Lemma with_year_entry (q : string) (m : Z) :
  MetadataFilters.with_year q [("month", VNum m)]
  = ("month", VNum m) :: opt_entry "year" VNum (option_map parseInt (match_year q)).
Proof.
  unfold MetadataFilters.with_year. now destruct (match_year q).
Qed.

(** The extractor follows the rule. *)
Lemma date_rule_of_code (now : MetadataFilters.clock) (q : string) :
  date_rule now q (MetadataFilters.extractDateFilters now q).
Proof.
  unfold MetadataFilters.extractDateFilters.
  pose proof (match_iso_date_cases q) as Hiso.
  destruct (match_iso_date q) as [d|].
  { destruct Hiso as [pre [post [Hq [Hs Hl]]]].
    exact (rule_exact_date now q pre d post Hq Hs Hl). }
  destruct (includes (toLowerCase q) "yesterday") eqn:Hy.
  { apply rule_yesterday; [exact Hiso | now apply includes_spec]. }
  apply not_contains in Hy.
  destruct (includes (toLowerCase q) "today") eqn:Ht.
  { apply rule_today; [exact Hiso | exact Hy | now apply includes_spec]. }
  apply not_contains in Ht.
  destruct (includes (toLowerCase q) "last week") eqn:Hw.
  { apply rule_last_week; [exact Hiso | exact Hy | exact Ht |
                            now apply includes_spec]. }
  apply not_contains in Hw.
  assert (Hkw : no_keyword q) by (repeat split; assumption).
  pose proof (month_loop_cases q) as Hmonth.
  destruct (MetadataFilters.month_loop q MetadataFilters.monthNames 0) as [o|].
  { destruct Hmonth as [m [Hm ->]]. rewrite with_year_entry.
    apply rule_month; [exact Hiso | exact Hkw | exact Hm | apply year_of_code]. }
  pose proof (year_of_code q) as Hyear.
  destruct (match_year q) as [y|]; cbn [option_map] in Hyear.
  - apply rule_year; assumption.
  - apply rule_none; assumption.
Qed.

(** The rule leaves no choice: it gives the result of the extractor. *)
Lemma date_rule_is_code (now : MetadataFilters.clock) (q : string)
  (r : option obj) :
  date_rule now q r -> MetadataFilters.extractDateFilters now q = r.
Proof.
  assert (Hkw : no_keyword q ->
            includes (toLowerCase q) "yesterday" = false
            /\ includes (toLowerCase q) "today" = false
            /\ includes (toLowerCase q) "last week" = false).
  { intros [Hy [Ht Hw]]. now rewrite !not_contains. }
  assert (Hno : no_month q ->
            MetadataFilters.month_loop q MetadataFilters.monthNames 0 = None).
  { intros Hnm. pose proof (month_loop_cases q) as H.
    destruct (MetadataFilters.month_loop q MetadataFilters.monthNames 0);
      [|reflexivity].
    destruct H as [m [[Hm [Hc _]] _]]. exfalso. exact (Hnm m Hm Hc). }
  unfold MetadataFilters.extractDateFilters.
  intros [pre d post Hq Hs Hl
         |Hiso Hy
         |Hiso Hy Ht
         |Hiso Hy Ht Hw
         |m yr Hiso Hk Hm Hyr
         |y Hiso Hk Hnm Hyr
         |Hiso Hk Hnm Hyr].
  - apply iso_shape_date in Hs. apply leftmost_iso_date in Hl.
    rewrite Hq in Hl |- *.
    now rewrite (match_iso_date_leftmost pre d post Hs Hl).
  - rewrite (no_iso_no_match q Hiso).
    apply includes_spec in Hy. now rewrite Hy.
  - rewrite (no_iso_no_match q Hiso).
    apply not_contains in Hy. apply includes_spec in Ht. now rewrite Hy, Ht.
  - rewrite (no_iso_no_match q Hiso).
    apply not_contains in Hy. apply not_contains in Ht.
    apply includes_spec in Hw. now rewrite Hy, Ht, Hw.
  - rewrite (no_iso_no_match q Hiso).
    destruct (Hkw Hk) as [-> [-> ->]].
    pose proof (month_loop_cases q) as H.
    destruct (MetadataFilters.month_loop q MetadataFilters.monthNames 0)
      as [o|].
    + destruct H as [m' [Hm' ->]].
      rewrite with_year_entry, (year_of_functional q yr Hyr).
      now rewrite (first_month_unique q m m' Hm Hm').
    + destruct Hm as [Hm [Hc _]]. exfalso. exact (H m Hm Hc).
  - rewrite (no_iso_no_match q Hiso).
    destruct (Hkw Hk) as [-> [-> ->]]. rewrite (Hno Hnm).
    apply year_of_functional in Hyr.
    destruct (match_year q) as [t|]; [|discriminate Hyr].
    cbn in Hyr |- *. now inversion Hyr.
  - rewrite (no_iso_no_match q Hiso).
    destruct (Hkw Hk) as [-> [-> ->]]. rewrite (Hno Hnm).
    apply year_of_functional in Hyr.
    destruct (match_year q) as [t|]; [discriminate Hyr | reflexivity].
Qed.

(** C7 (as stated, refuted): a query with an ISO date need not get that
    date. "from 2023-05-15 to 2024-01-01" contains 2024-01-01 and the
    filter is the other date, the one that comes first in the text. *)
Lemma C7_later_date_is_not_returned :
  ~ (forall now q pre d post,
       q = (pre ++ d ++ post)%string -> iso_date d ->
       MetadataFilters.extractDateFilters now q = Some [("date_str", VStr d)]).
Proof.
  intros H.
  assert (Hs : iso_date "2024-01-01")
    by (exists "2024", "01", "01"; repeat split; repeat constructor).
  specialize (H Samples.a_clock "from 2023-05-15 to 2024-01-01"
                "from 2023-05-15 to " "2024-01-01" EmptyString eq_refl Hs).
  vm_compute in H. discriminate H.
Qed.

(** C7 (amended): the date filter of a query is the one the rule
    of the categories gives, and nothing else. A query that contains an ISO
    date gets the leftmost one as [date_str] and no other predicate.
    Without an ISO date, "yesterday" gives the day before, else "today" the
    current day, else "last week" the range of the last seven days; else
    the earliest month of the calendar whose name the lower-cased query
    contains gives [month], with [year] beside it when the query has a year
    token ("20" and two digits between word boundaries, the leftmost one
    counting); else such a token gives [year] alone; else the filter is
    null. *)
Theorem C7_date_filter_follows_the_rule
  (now : MetadataFilters.clock) (q : string) (r : option obj) :
  MetadataFilters.extractDateFilters now q = r <-> date_rule now q r.
Proof.
  split.
  - intros <-. apply date_rule_of_code.
  - apply date_rule_is_code.
Qed.

Lemma C7_date_filter_follows_the_rule_witness :
  date_rule Samples.a_clock "from 2023-05-15 to 2024-01-01"
    (Some [("date_str", VStr "2023-05-15")])
  /\ date_rule Samples.a_clock "Errors in March 2023 or May 2024"
       (Some [("month", VNum 3); ("year", VNum 2023)]).
Proof.
  split.
  - apply (proj1 (C7_date_filter_follows_the_rule Samples.a_clock
                    "from 2023-05-15 to 2024-01-01"
                    (Some [("date_str", VStr "2023-05-15")]))).
    vm_compute. reflexivity.
  - apply (proj1 (C7_date_filter_follows_the_rule Samples.a_clock
                    "Errors in March 2023 or May 2024"
                    (Some [("month", VNum 3); ("year", VNum 2023)]))).
    vm_compute. reflexivity.
Defined.

(** The scenarios of the test script, run. *)
Example date_of_march_2023 :
  MetadataFilters.extractDateFilters Samples.a_clock
    "Give me insights from completed tasks in March 2023"
  = Some [("month", VNum 3); ("year", VNum 2023)].
Proof. vm_compute. reflexivity. Qed.

Example date_of_last_week :
  MetadataFilters.extractDateFilters Samples.a_clock
    "What were the most common errors in the production environment last week?"
  = Some [("dateRange",
           VObj [("start", VStr "2025-03-03"); ("end", VStr "2025-03-10")])].
Proof. vm_compute. reflexivity. Qed.

Example date_of_nothing :
  MetadataFilters.extractDateFilters Samples.a_clock
    "How did the agent perform in the production environment?" = None.
Proof. vm_compute. reflexivity. Qed.

(** ** The two filter-expression builders *)

(** The reference builder of scripts/metadata-filters.ts does what the
    design document says: a range becomes an interval on [date_str], every
    other field an equality, all of them in one object (a conjunction for
    the store), and the result is null exactly when there is no predicate. *)
Lemma reference_builder_spec (d : option DateFilter) (m : option MetadataFilter) :
  MetadataFilters.buildFilterExpression
    (option_map date_obj d) (option_map metadata_obj m)
  = match predicates d m with
    | [] => None
    | ps => Some ps
    end.
Proof.
  destruct d as [[s|mo [y|]|y|s e]|];
    destruct m as [[[en|] [st|] [b|]]|]; reflexivity.
Qed.

Lemma reference_builder_null_iff (d : option DateFilter) (m : option MetadataFilter) :
  MetadataFilters.buildFilterExpression
    (option_map date_obj d) (option_map metadata_obj m) = None
  <-> predicates d m = [].
Proof.
  rewrite reference_builder_spec.
  destruct (predicates d m); split; intros H; try reflexivity; discriminate H.
Qed.

Example reference_builder_empty :
  MetadataFilters.buildFilterExpression (Some []) (Some []) = None
  /\ MetadataFilters.buildFilterExpression None None = None.
Proof. split; reflexivity. Qed.

(** C5 (defect in the code): the builder that the Retrieve
    step runs copies only [year], [month], [day], [date_str],
    [environment] and [status]. A date range and a correctness filter are
    dropped: with nothing else present the step queries with no filter at
    all, although two predicates are present; the reference builder gives
    the interval and the equality for the same input. *)
Theorem C5_step_builder_drops_range_and_correctness
  (start end_ : string) (correct : bool) :
  let d := Some (DateRangeF start end_) in
  let m := Some {| environment := None; status := None;
                   is_correct := Some correct |} in
  Retrieval.buildFilterExpression
    (option_map date_obj d) (option_map metadata_obj m) = VUndefined
  /\ MetadataFilters.buildFilterExpression
       (option_map date_obj d) (option_map metadata_obj m)
     = Some [("date_str", VObj [("$gte", VStr start); ("$lte", VStr end_)]);
             ("is_correct", VBool correct)].
Proof. split; reflexivity. Qed.

(** Where the step's builder and the design document agree: the first scenario of the
    design document. *)
Example step_builder_scenario_1 :
  Retrieval.buildFilterExpression
    (MetadataFilters.extractDateFilters Samples.a_clock
       "Show me failures from 2023-05-15")
    (Some [("status", VStr "failed")])
  = VObj [("$and", VArr [VObj [("date_str", VStr "2023-05-15")];
                         VObj [("status", VStr "failed")]] [])].
Proof. vm_compute. reflexivity. Qed.

(** ** The steps *)

Ltac unfold_eff :=
  cbv beta iota zeta delta [try_catch bind await ret throw modify emit] in *.

(** Case analysis on the outcome of the next awaited call. *)
Ltac next_outcome :=
  match goal with
  | |- context [match ?r with Ok _ => _ | Throw _ => _ end] =>
      let E := fresh "Hcall" in destruct r eqn:E
  | H : context [match ?r with Ok _ => _ | Throw _ => _ end] |- _ =>
      let E := fresh "Hcall" in destruct r eqn:E
  end.

(** A [try] block of the Retrieve step that throws has emitted nothing. *)
Lemma retrieval_try_block_throw (w : Retrieval.world) (i : Retrieval.input)
  (log : list event) (e : exn) :
  fst (Retrieval.try_block w i log) = Throw e ->
  Retrieval.try_block w i log = (Throw e, log).
Proof.
  unfold Retrieval.try_block. unfold_eff.
  repeat (next_outcome; cbn [fst] in * ); intros H;
    first [discriminate H | now inversion H].
Qed.

(** The payload of the [catch] block passes the input schema of the
    Generate step, with the same correlation id and no context item. *)
Lemma retrieval_fallback_reaches_generation (i : Retrieval.input) :
  Generation.validate (Retrieval.fallback_data i)
  = Some {| Generation.originalMessage := Retrieval.originalMessage i;
            Generation.processedMessage := Retrieval.processedMessage i;
            Generation.timestamp := Retrieval.timestamp i;
            Generation.context := Some [];
            Generation._handidFlowId := Retrieval._handidFlowId i |}.
Proof. destruct i as [om pm ts df mf [fid|]]; reflexivity. Qed.

(** C2: whenever the processing of the Retrieve step raises, the step
    returns normally after emitting exactly one event, on the topic the
    Generate step subscribes to. Its payload holds the two messages and the
    timestamp of the input, the empty list as context and the correlation
    id of the input; it passes the input schema of the Generate step, which
    so receives the same messages, timestamp and id and no context item:
    the flow goes on to the Generate stage. *)
Theorem C2_retrieve_error_emits_empty_context
  (w : Retrieval.world) (i : Retrieval.input) (log : list event) (e : exn) :
  fst (Retrieval.try_block w i log) = Throw e ->
  exists d,
    Retrieval.handler w i log
    = (Ok tt, log ++ [{| topic := "context-retrieved"; data := d |}])
    /\ d = Retrieval.fallback_data i
    /\ In "context-retrieved" Generation.subscribes
    /\ get_prop "context" d = VArr [] []
    /\ get_prop "originalMessage" d = VStr (Retrieval.originalMessage i)
    /\ get_prop "processedMessage" d = VStr (Retrieval.processedMessage i)
    /\ get_prop "timestamp" d = VStr (Retrieval.timestamp i)
    /\ get_prop "_handidFlowId" d = of_opt_str (Retrieval._handidFlowId i)
    /\ Generation.validate d
       = Some {| Generation.originalMessage := Retrieval.originalMessage i;
                 Generation.processedMessage := Retrieval.processedMessage i;
                 Generation.timestamp := Retrieval.timestamp i;
                 Generation.context := Some [];
                 Generation._handidFlowId := Retrieval._handidFlowId i |}.
Proof.
  intros H. apply retrieval_try_block_throw in H.
  exists (Retrieval.fallback_data i). split.
  - unfold Retrieval.handler, try_catch. rewrite H. reflexivity.
  - split; [reflexivity|]. split; [now left|].
    repeat (split; [reflexivity|]).
    apply retrieval_fallback_reaches_generation.
Qed.

(** The embedding call throwing is such an error. *)
Lemma retrieval_embedding_throws (w : Retrieval.world) (i : Retrieval.input)
  (log : list event) (e : exn) :
  Retrieval.client_init w = Ok tt ->
  Retrieval.embeddings_create w (Retrieval.processedMessage i) = Throw e ->
  fst (Retrieval.try_block w i log) = Throw e.
Proof.
  intros Hinit Hembed.
  unfold Retrieval.try_block, Retrieval.generateEmbedding. unfold_eff.
  now rewrite Hinit, Hembed.
Qed.

Lemma C2_retrieve_error_emits_empty_context_witness :
  exists d,
    Retrieval.handler Samples.embedding_down Samples.a_retrieval_input []
    = (Ok tt, [] ++ [{| topic := "context-retrieved"; data := d |}])
    /\ d = Retrieval.fallback_data Samples.a_retrieval_input
    /\ In "context-retrieved" Generation.subscribes
    /\ get_prop "context" d = VArr [] []
    /\ get_prop "originalMessage" d
       = VStr (Retrieval.originalMessage Samples.a_retrieval_input)
    /\ get_prop "processedMessage" d
       = VStr (Retrieval.processedMessage Samples.a_retrieval_input)
    /\ get_prop "timestamp" d
       = VStr (Retrieval.timestamp Samples.a_retrieval_input)
    /\ get_prop "_handidFlowId" d
       = of_opt_str (Retrieval._handidFlowId Samples.a_retrieval_input)
    /\ Generation.validate d
       = Some {| Generation.originalMessage :=
                   Retrieval.originalMessage Samples.a_retrieval_input;
                 Generation.processedMessage :=
                   Retrieval.processedMessage Samples.a_retrieval_input;
                 Generation.timestamp :=
                   Retrieval.timestamp Samples.a_retrieval_input;
                 Generation.context := Some [];
                 Generation._handidFlowId :=
                   Retrieval._handidFlowId Samples.a_retrieval_input |}.
Proof.
  apply (C2_retrieve_error_emits_empty_context
           Samples.embedding_down Samples.a_retrieval_input []
           Samples.provider_down).
  apply retrieval_embedding_throws; reflexivity.
Defined.

(** Every step returns normally and emits exactly one event, whatever its
    collaborators do. *)
Lemma generation_try_block_cases (w : Generation.world) (i : Generation.input)
  (log : list event) :
  (exists r,
      Generation.try_block w i log
      = (Ok tt, log ++ [{| topic := "response-generated";
                           data :=
                             [("originalMessage", VStr (Generation.originalMessage i));
                              ("processedMessage", VStr (Generation.processedMessage i));
                              ("timestamp", VStr (Generation.timestamp i));
                              ("response", r);
                              ("context", Generation.context_value (Generation.context i));
                              ("_handidFlowId", of_opt_str (Generation._handidFlowId i))] |}]))
  \/ exists e, Generation.try_block w i log = (Throw e, log).
Proof.
  unfold Generation.try_block. unfold_eff.
  repeat next_outcome; try (right; eexists; reflexivity).
  left; eexists; reflexivity.
Qed.

Lemma generation_handler_emits_once (w : Generation.world) (i : Generation.input)
  (log : list event) :
  exists d,
    Generation.handler w i log
    = (Ok tt, log ++ [{| topic := "response-generated"; data := d |}])
    /\ get_prop "_handidFlowId" d = of_opt_str (Generation._handidFlowId i)
    /\ In "response-generated" FlowCompletion.subscribes.
Proof.
  unfold Generation.handler, try_catch.
  destruct (generation_try_block_cases w i log) as [[r H]|[e H]]; rewrite H.
  - eexists. split; [reflexivity|]. split; [reflexivity | now left].
  - eexists. split; [reflexivity|]. split; [reflexivity | now left].
Qed.

(** With a choice at hand, content that is missing or empty gives the fixed
    string as a result, not as an error. *)
Lemma first_content_no_usable_content (c : choice) (rest : list choice) :
  choice_message c = None
  \/ choice_message c = Some {| content := None |}
  \/ choice_message c = Some {| content := Some EmptyString |} ->
  Generation.first_content {| choices := c :: rest |}
  = Ok Generation.could_not_generate.
Proof.
  unfold Generation.first_content. cbn [choices].
  intros [H|[H|H]]; rewrite H; reflexivity.
Qed.

(** C3 (defect in the code): when the provider returns an
    empty list of choices, [generateResponse] does not return the fixed
    string; reading [message] on [choices[0]] raises a TypeError. The
    handler catches it and emits the error payload: the apology of the
    [catch] block together with an [error] field. The emit itself, and so
    the rest of the flow, is as the design document says. *)
Theorem C3_empty_choices_is_an_error
  (w : Generation.world) (i : Generation.input) (log : list event) :
  (forall system user,
      Generation.completions_create w system user = Ok {| choices := [] |}) ->
  (forall prompt contextText,
      Generation.generateResponse w prompt contextText
      = Throw (JsError "Cannot read properties of undefined (reading 'message')"))
  /\ exists e,
      Generation.handler w i log
      = (Ok tt, log ++ [{| topic := "response-generated";
                           data := Generation.fallback_data i e |}])
      /\ get_prop "response" (Generation.fallback_data i e)
         = VStr Generation.fallbackResponse
      /\ get_prop "error" (Generation.fallback_data i e)
         = VStr (Generation.error_text e).
Proof.
  intros Hempty.
  assert (Hgen : forall prompt contextText,
             Generation.generateResponse w prompt contextText
             = Throw (JsError "Cannot read properties of undefined (reading 'message')")).
  { intros. unfold Generation.generateResponse. now rewrite Hempty. }
  split; [exact Hgen|].
  unfold Generation.handler, Generation.try_block, Generation.catch_block.
  unfold_eff.
  destruct (Generation.client_init w) as [[]|e0].
  - destruct (Generation.formatContext w (Generation.context i)) as [c|e1].
    + rewrite Hgen. unfold traceWithHandit, traceAgentNode.
      destruct (Generation.trace_fault w) as [e2|]; eexists; repeat split.
    + eexists; repeat split.
  - eexists; repeat split.
Qed.

Lemma C3_empty_choices_is_an_error_witness :
  Generation.generateResponse Samples.no_choice "How did the agent perform?"
    "No relevant previous conversations found."
  = Throw (JsError "Cannot read properties of undefined (reading 'message')")
  /\ Generation.handler Samples.no_choice Samples.a_generation_input []
     = (Ok tt,
        [{| topic := "response-generated";
            data :=
              [("originalMessage", VStr "How did the agent perform?");
               ("processedMessage", VStr "How did the agent perform?");
               ("timestamp", VStr "2025-03-10T08:00:00.000Z");
               ("response", VStr Generation.fallbackResponse);
               ("error",
                VStr "Cannot read properties of undefined (reading 'message')");
               ("_handidFlowId", VStr "flow-1741593600000-k3x9q2a")] |}]).
Proof.
  split.
  - apply (proj1 (C3_empty_choices_is_an_error
                    Samples.no_choice Samples.a_generation_input []
                    (fun _ _ => eq_refl))).
  - reflexivity.
Defined.

Lemma preprocess_handler_emits_once (w : Preprocess.world) (i : Preprocess.input)
  (log : list event) :
  exists d,
    Preprocess.handler w i log
    = (Ok tt, log ++ [{| topic := "preprocess-complete"; data := d |}])
    /\ get_prop "_handidFlowId" d
       = VStr (generateFlowId (Preprocess.now_ms w) (Preprocess.random36 w))
    /\ In "preprocess-complete" FilterExtraction.subscribes.
Proof.
  unfold Preprocess.handler, Preprocess.try_block, Preprocess.catch_block.
  unfold_eff.
  next_outcome; eexists; (split; [reflexivity|]); split;
    solve [reflexivity | now left].
Qed.

Lemma attach_flow_id_member (flowId : option string) (r v : value) (k : string) :
  ("_handidFlowId" =? k)%string = false ->
  member r k = Ok v ->
  member (attach_flow_id flowId r) k = Ok v.
Proof.
  intros Hk. unfold attach_flow_id.
  destruct r; try (intros H; exact H);
    destruct (truthy (of_opt_str flowId)); try (intros H; exact H);
    cbn [member]; now rewrite get_set_other.
Qed.

(** The answer of [extractFilters] carries the message it was given as
    [extractedQuery], whatever the provider returned and whatever
    [JSON.parse] made of it. *)
Lemma parse_answer_query (w : FilterExtraction.world) (msg : string)
  (response : completion) :
  member (FilterExtraction.parse_answer w msg response) "extractedQuery"
  = Ok (VStr msg).
Proof.
  unfold FilterExtraction.parse_answer.
  destruct (choices response) as [|[[m|]] rest]; try reflexivity.
  destruct (FilterExtraction.JSON_parse w _) as [answer|e]; [|reflexivity].
  destruct answer; try reflexivity; cbn [assign_member member];
    now rewrite get_set_same.
Qed.

Lemma traced_extraction_query (w : FilterExtraction.world)
  (flowId : option string) (msg prompt : string) (r : value) :
  traceWithHandit (FilterExtraction.trace_fault w) llmFiltersExtraction_node
    flowId (FilterExtraction.extractFilters w msg prompt) = Ok r ->
  member r "extractedQuery" = Ok (VStr msg).
Proof.
  unfold traceWithHandit, traceAgentNode, FilterExtraction.extractFilters.
  destruct (FilterExtraction.trace_fault w); [discriminate|].
  destruct (FilterExtraction.completions_create w _ _) as [response|e];
    [|discriminate].
  intros H; inversion H; subst r.
  apply attach_flow_id_member; [reflexivity | apply parse_answer_query].
Qed.

Lemma or_else_same (s : string) : or_else (VStr s) (VStr s) = VStr s.
Proof. unfold or_else. now destruct (truthy (VStr s)). Qed.

Lemma filter_extraction_handler_emits_once
  (w : FilterExtraction.world) (i : FilterExtraction.input) (log : list event) :
  exists d,
    FilterExtraction.handler w i log
    = (Ok tt, log ++ [{| topic := "fetch-context"; data := d |}])
    /\ get_prop "_handidFlowId" d = of_opt_str (FilterExtraction._handidFlowId i)
    /\ get_prop "processedMessage" d = VStr (FilterExtraction.processedMessage i)
    /\ In "fetch-context" Retrieval.subscribes.
Proof.
  unfold FilterExtraction.handler, FilterExtraction.try_block,
    FilterExtraction.catch_block.
  unfold_eff.
  destruct (FilterExtraction.key_present (FilterExtraction.api_key w));
    [|eexists; repeat split; now left].
  destruct (FilterExtraction.client_init w) as [[]|e0];
    [|eexists; repeat split; now left].
  destruct (traceWithHandit _ _ _ _) as [r|e1] eqn:Htraced;
    [|eexists; repeat split; now left].
  pose proof (traced_extraction_query _ _ _ _ _ Htraced) as Hq.
  destruct (member r "dateFilters") as [df|e2];
    [|eexists; repeat split; now left].
  destruct (member r "metadataFilters") as [mf|e3];
    [|eexists; repeat split; now left].
  rewrite Hq.
  eexists. split; [reflexivity|]. split; [reflexivity|].
  split; [apply or_else_same | now left].
Qed.

Lemma retrieval_handler_emits_once
  (w : Retrieval.world) (i : Retrieval.input) (log : list event) :
  exists d,
    Retrieval.handler w i log
    = (Ok tt, log ++ [{| topic := "context-retrieved"; data := d |}])
    /\ get_prop "_handidFlowId" d = of_opt_str (Retrieval._handidFlowId i)
    /\ In "context-retrieved" Generation.subscribes.
Proof.
  unfold Retrieval.handler, try_catch.
  destruct (Retrieval.try_block w i log) as [[[]|e] log'] eqn:H.
  - revert H. unfold Retrieval.try_block. unfold_eff.
    repeat next_outcome; intros H; inversion H; subst.
    eexists. split; [reflexivity|]. split; [reflexivity | now left].
  - assert (Hthrow : fst (Retrieval.try_block w i log) = Throw e)
      by now rewrite H.
    apply retrieval_try_block_throw in Hthrow. rewrite H in Hthrow.
    inversion Hthrow; subst.
    eexists. split; [reflexivity|]. split; [reflexivity | now left].
Qed.

(** C4: each step that receives a payload emits exactly one event, on its
    normal path and on its fallback path alike, and the payload of that
    event has the correlation id of the input under [_handidFlowId] (the
    given id when the input carries one). The Preprocess step, whose input
    has no id, emits on both paths the id it generated. *)
Theorem C4_correlation_id_is_forwarded :
  (forall (w : FilterExtraction.world) (i : FilterExtraction.input) log,
      exists d,
        FilterExtraction.handler w i log
        = (Ok tt, log ++ [{| topic := "fetch-context"; data := d |}])
        /\ get_prop "_handidFlowId" d
           = of_opt_str (FilterExtraction._handidFlowId i)
        /\ forall id, FilterExtraction._handidFlowId i = Some id ->
                      get_prop "_handidFlowId" d = VStr id)
  /\ (forall (w : Retrieval.world) (i : Retrieval.input) log,
      exists d,
        Retrieval.handler w i log
        = (Ok tt, log ++ [{| topic := "context-retrieved"; data := d |}])
        /\ get_prop "_handidFlowId" d = of_opt_str (Retrieval._handidFlowId i)
        /\ forall id, Retrieval._handidFlowId i = Some id ->
                      get_prop "_handidFlowId" d = VStr id)
  /\ (forall (w : Generation.world) (i : Generation.input) log,
      exists d,
        Generation.handler w i log
        = (Ok tt, log ++ [{| topic := "response-generated"; data := d |}])
        /\ get_prop "_handidFlowId" d = of_opt_str (Generation._handidFlowId i)
        /\ forall id, Generation._handidFlowId i = Some id ->
                      get_prop "_handidFlowId" d = VStr id)
  /\ (forall (w : Preprocess.world) (i : Preprocess.input) log,
      exists d,
        Preprocess.handler w i log
        = (Ok tt, log ++ [{| topic := "preprocess-complete"; data := d |}])
        /\ get_prop "_handidFlowId" d
           = VStr (generateFlowId (Preprocess.now_ms w) (Preprocess.random36 w))).
Proof.
  split; [|split; [|split]]; intros w i log.
  - destruct (filter_extraction_handler_emits_once w i log) as [d [H [Hid _]]].
    exists d. repeat split; [exact H | exact Hid |].
    intros id Hsome. now rewrite Hid, Hsome.
  - destruct (retrieval_handler_emits_once w i log) as [d [H [Hid _]]].
    exists d. repeat split; [exact H | exact Hid |].
    intros id Hsome. now rewrite Hid, Hsome.
  - destruct (generation_handler_emits_once w i log) as [d [H [Hid _]]].
    exists d. repeat split; [exact H | exact Hid |].
    intros id Hsome. now rewrite Hid, Hsome.
  - destruct (preprocess_handler_emits_once w i log) as [d [H [Hid _]]].
    exists d. split; [exact H | exact Hid].
Qed.

Lemma C4_correlation_id_is_forwarded_witness :
  exists d,
    Retrieval.handler Samples.embedding_down Samples.a_retrieval_input []
    = (Ok tt, [] ++ [{| topic := "context-retrieved"; data := d |}])
    /\ get_prop "_handidFlowId" d = VStr "flow-1741593600000-k3x9q2a".
Proof.
  destruct (proj1 (proj2 C4_correlation_id_is_forwarded)
              Samples.embedding_down Samples.a_retrieval_input [])
    as [d [H [_ Hsome]]].
  exists d. split; [exact H | apply Hsome; reflexivity].
Defined.

(** ** The mapping of the matches *)

Lemma get_prop_absent (k : string) (o : obj) :
  has_prop k o = false -> get_prop k o = VUndefined.
Proof.
  induction o as [|[k' v] o IH]; simpl; [reflexivity|].
  destruct (k' =? k)%string; [discriminate | exact IH].
Qed.

Lemma attach_flow_id_other (flowId : option string) (r : value) (k : string) :
  ("_handidFlowId" =? k)%string = false ->
  member (attach_flow_id flowId r) k = member r k.
Proof.
  intros Hk. unfold attach_flow_id.
  destruct r; try reflexivity;
    destruct (truthy (of_opt_str flowId)); try reflexivity;
    cbn [member]; now rewrite get_set_other.
Qed.

Lemma map_items_ok (l xs : list value) :
  Retrieval.map_items l = Ok xs <->
  Forall2 (fun m x => Retrieval.to_context_item m = Ok x) l xs.
Proof.
  revert xs. induction l as [|m l IH]; intros xs; cbn [Retrieval.map_items].
  - split; [intros H; inversion H; constructor | intros H; now inversion H].
  - destruct (Retrieval.to_context_item m) as [x|e] eqn:Hm.
    + destruct (Retrieval.map_items l) as [ys|e] eqn:Hl.
      * split.
        -- intros H; inversion H; subst. constructor; [exact Hm | now apply IH].
        -- intros H; inversion H; subst.
           match goal with
           | H1 : Retrieval.to_context_item m = Ok _ |- _ =>
               rewrite Hm in H1; inversion H1; subst
           end.
           match goal with
           | H2 : Forall2 _ l _ |- _ => apply IH in H2; now inversion H2
           end.
      * split; [discriminate|].
        intros H; inversion H; subst.
        match goal with
        | H2 : Forall2 _ l _ |- _ => apply IH in H2; discriminate H2
        end.
    + split; [discriminate|].
      intros H; inversion H; subst. congruence.
Qed.

Lemma map_items_throw (l : list value) :
  Exists (fun m => exists e, Retrieval.to_context_item m = Throw e) l ->
  exists e, Retrieval.map_items l = Throw e.
Proof.
  induction 1 as [m l [e Hm]|m l Hex IH]; cbn [Retrieval.map_items].
  - rewrite Hm. now exists e.
  - destruct (Retrieval.to_context_item m) as [x|e]; [|now exists e].
    destruct IH as [e He]. rewrite He. now exists e.
Qed.

(** The handler when every call succeeds: what it emits hangs on the
    mapping of the matches alone. *)
Lemma retrieval_answered (w : Retrieval.world) (i : Retrieval.input)
  (log : list event) (l : list value) :
  store_answers w i l ->
  Retrieval.handler w i log =
  match Retrieval.map_items l with
  | Ok xs =>
      (Ok tt,
       log ++ [{| topic := "context-retrieved";
                  data :=
                    [("originalMessage", VStr (Retrieval.originalMessage i));
                     ("processedMessage", VStr (Retrieval.processedMessage i));
                     ("timestamp", VStr (Retrieval.timestamp i));
                     ("context", VArr xs []);
                     ("dateFilters", Retrieval.opt_value (Retrieval.dateFilters i));
                     ("metadataFilters",
                      Retrieval.opt_value (Retrieval.metadataFilters i));
                     ("_handidFlowId", of_opt_str (Retrieval._handidFlowId i))] |}])
  | Throw _ =>
      (Ok tt,
       log ++ [{| topic := "context-retrieved";
                  data := Retrieval.fallback_data i |}])
  end.
Proof.
  intros [Hinit [Hindex [Hfault [emb [answer [props [Hemb [Hquery Hm]]]]]]]].
  unfold Retrieval.handler, Retrieval.try_block, Retrieval.catch_block,
    traceWithHandit, traceAgentNode.
  unfold_eff.
  rewrite Hinit, Hemb, Hindex, Hfault, Hquery.
  assert (Hctx : Retrieval.context_of
                   (attach_flow_id (Retrieval._handidFlowId i) (VObj answer))
                 = match Retrieval.map_items l with
                   | Ok xs => Ok (VArr xs [])
                   | Throw e => Throw e
                   end).
  { unfold Retrieval.context_of.
    rewrite attach_flow_id_other by reflexivity.
    cbn [member]. now rewrite Hm. }
  rewrite Hctx.
  destruct (Retrieval.map_items l) as [xs|e]; reflexivity.
Qed.

(** For a match whose metadata is an object the mapping returns an item
    (it does not raise) that holds each metadata field as the metadata has
    it, and the score of the match. *)
Lemma to_context_item_copies (m : value) (md : obj) :
  member m "metadata" = Ok (VObj md) ->
  exists item,
    Retrieval.to_context_item m = Ok (VObj item)
    /\ (forall k, In k metadata_fields -> get_prop k item = get_prop k md)
    /\ get_prop "score" item = member_opt m "score".
Proof.
  intros Hmd. unfold Retrieval.to_context_item. rewrite Hmd. cbn [member_opt].
  eexists. split; [reflexivity|]. split; [|reflexivity].
  intros k Hk. unfold metadata_fields in Hk. simpl in Hk.
  repeat (destruct Hk as [<-|Hk]; [reflexivity|]). contradiction.
Qed.

Lemma map_items_in (l xs : list value) (m : value) :
  Retrieval.map_items l = Ok xs -> In m l ->
  exists x, Retrieval.to_context_item m = Ok x /\ In x xs.
Proof.
  rewrite map_items_ok. induction 1 as [|m' x l xs Hx _ IH]; intros Hin.
  - destruct Hin.
  - destruct Hin as [->|Hin].
    + exists x. split; [exact Hx | now left].
    + destruct (IH Hin) as [x' [Hx' Hin']]. exists x'. split; [exact Hx' | now right].
Qed.

(** One item the item schema refuses makes the schema refuse the list, and
    the event that carries it. *)
Lemma items_of_refused (l : list value) (v : value) :
  In v l -> Generation.item_of v = None -> Generation.items_of l = None.
Proof.
  intros Hin Hv. induction l as [|x l IH]; [destruct Hin|].
  cbn [Generation.items_of]. destruct Hin as [->|Hin].
  - now rewrite Hv.
  - rewrite (IH Hin). now destruct (Generation.item_of x).
Qed.

Lemma item_of_needs_strings (item : obj) (k : string) :
  In k ["input"; "output"; "created_at"] ->
  get_prop k item = VUndefined ->
  Generation.item_of (VObj item) = None.
Proof.
  intros Hk Hu. simpl in Hk. unfold Generation.item_of.
  destruct Hk as [<-|[<-|[<-|[]]]]; rewrite Hu;
    repeat match goal with
           | |- context [match ?v with VUndefined => _ | _ => _ end] =>
               destruct v
           end; reflexivity.
Qed.

(** C8 (defect in the code): a metadata field that is missing
    is not surfaced as the empty string. When the store answers and the
    matches map to items, the step returns normally after one emit, so
    nothing is fatal for the stage; but for a match whose metadata lacks one
    of the fields the mapping copies, the item holds undefined for it. If
    the field is [input], [output] or [created_at], the event the step has
    emitted does not pass the input schema of the Generate step, which asks
    for strings there. *)
Theorem C8_missing_field_is_undefined_and_refused
  (w : Retrieval.world) (i : Retrieval.input) (log : list event)
  (l items : list value) (m : value) (md : obj) (k : string) :
  store_answers w i l ->
  Retrieval.map_items l = Ok items ->
  In m l ->
  member m "metadata" = Ok (VObj md) ->
  In k metadata_fields ->
  has_prop k md = false ->
  exists d item,
    Retrieval.handler w i log
    = (Ok tt, log ++ [{| topic := "context-retrieved"; data := d |}])
    /\ get_prop "context" d = VArr items []
    /\ Retrieval.to_context_item m = Ok (VObj item)
    /\ In (VObj item) items
    /\ get_prop k item = VUndefined
    /\ get_prop k item <> VStr EmptyString
    /\ (In k ["input"; "output"; "created_at"] -> Generation.validate d = None).
Proof.
  intros Hstore Hmap Hin Hmd Hk Habs.
  destruct (to_context_item_copies m md Hmd) as [item [Hitem [Hcopy _]]].
  destruct (map_items_in l items m Hmap Hin) as [x [Hx Hinx]].
  rewrite Hitem in Hx. inversion Hx; subst x. clear Hx.
  assert (Hu : get_prop k item = VUndefined)
    by (rewrite (Hcopy k Hk); now apply get_prop_absent).
  rewrite (retrieval_answered w i log l Hstore), Hmap.
  eexists. exists item. split; [reflexivity|]. split; [reflexivity|].
  split; [exact Hitem|]. split; [exact Hinx|]. split; [exact Hu|].
  split; [rewrite Hu; discriminate|].
  intros Hreq.
  pose proof (items_of_refused items (VObj item) Hinx
                (item_of_needs_strings item k Hreq Hu)) as Hnone.
  unfold Generation.validate. cbn [get_prop String.eqb Ascii.eqb Bool.eqb].
  now rewrite Hnone.
Qed.

Lemma C8_missing_field_is_undefined_and_refused_witness :
  exists d item,
    Retrieval.handler (Samples.store_with [Samples.an_entry; Samples.bare_match])
      Samples.a_retrieval_input []
    = (Ok tt, [] ++ [{| topic := "context-retrieved"; data := d |}])
    /\ get_prop "context" d
       = VArr [VObj [("input", VStr "How do I reset my password?");
                     ("output", VStr "Use the reset link.");
                     ("created_at", VStr "2023-05-15T10:00:00Z");
                     ("score", VNum 1);
                     ("problem", VUndefined); ("solution", VUndefined);
                     ("type", VStr "entry")];
               VObj [("input", VUndefined); ("output", VUndefined);
                     ("created_at", VUndefined); ("score", VNum 1);
                     ("problem", VUndefined); ("solution", VUndefined);
                     ("type", VUndefined)]] []
    /\ Retrieval.to_context_item Samples.bare_match = Ok (VObj item)
    /\ In (VObj item)
         [VObj [("input", VStr "How do I reset my password?");
                ("output", VStr "Use the reset link.");
                ("created_at", VStr "2023-05-15T10:00:00Z");
                ("score", VNum 1);
                ("problem", VUndefined); ("solution", VUndefined);
                ("type", VStr "entry")];
          VObj [("input", VUndefined); ("output", VUndefined);
                ("created_at", VUndefined); ("score", VNum 1);
                ("problem", VUndefined); ("solution", VUndefined);
                ("type", VUndefined)]]
    /\ get_prop "input" item = VUndefined
    /\ get_prop "input" item <> VStr EmptyString
    /\ (In "input" ["input"; "output"; "created_at"] ->
        Generation.validate d = None).
Proof.
  apply (C8_missing_field_is_undefined_and_refused
           (Samples.store_with [Samples.an_entry; Samples.bare_match])
           Samples.a_retrieval_input []
           [Samples.an_entry; Samples.bare_match] _
           Samples.bare_match [] "input").
  - repeat split. eexists. eexists. eexists.
    split; [reflexivity|]. split; reflexivity.
  - reflexivity.
  - right. now left.
  - reflexivity.
  - now left.
  - reflexivity.
Defined.

(** An item with an undefined field is emitted by the Retrieve step and
    refused by the schema of the Generate step, which asks for strings. *)
Example insight_item_fails_generation_schema :
  exists d,
    Retrieval.handler Samples.store_with_insight Samples.a_retrieval_input []
    = (Ok tt, [{| topic := "context-retrieved"; data := d |}])
    /\ Generation.validate d = None.
Proof. eexists. split; reflexivity. Qed.

(** A match without metadata makes the mapping raise; the [catch] block of
    the handler turns that into the empty context. *)
Example match_without_metadata_raises :
  exists e,
    Retrieval.to_context_item (VObj [("id", VStr "entry-17"); ("score", VNum 1)])
    = Throw e.
Proof. eexists. reflexivity. Qed.

(** ** Closing the trace session *)

(** C9 (as stated, refuted): a second close with the same id is seen. With
    a client that answers every request, two closes of "flow-1" leave two
    requests and two console lines, one close leaves one of each. *)
Lemma C9_second_close_is_observable :
  ~ (forall client id o,
       snd (close_twice client (Some id) o)
       = snd (endAgentTracingHandit client (Some id) o)).
Proof.
  intros H.
  specialize (H Samples.good_client "flow-1" Samples.nothing_seen).
  vm_compute in H. discriminate H.
Qed.

(** C9 (amended): the close operation never raises, called once or twice,
    and neither does the Complete step. Without an id, or with the empty
    id, it does nothing. With an id it writes one line and makes one
    end-of-session request to the tracing client, each time it is called,
    so a second call repeats the request; a failure of the client adds one
    line on the error stream and goes no further. Whether a repeated
    request has an effect is left to the tracing client. *)
Theorem C9_close_is_total_and_forwards
  (client : list string -> string -> option exn) (o : observed) :
  endAgentTracingHandit client None o = (Ok tt, o)
  /\ endAgentTracingHandit client (Some EmptyString) o = (Ok tt, o)
  /\ (forall flowId, fst (endAgentTracingHandit client flowId o) = Ok tt)
  /\ (forall flowId, fst (close_twice client flowId o) = Ok tt)
  /\ (forall c s,
         let id := String c s in
         requests (snd (endAgentTracingHandit client (Some id) o))
         = requests o ++ [id]
         /\ console (snd (endAgentTracingHandit client (Some id) o))
            = console o ++ closing_line id ::
                match client (requests o) id with
                | Some _ => [failure_line id]
                | None => []
                end
         /\ requests (snd (close_twice client (Some id) o))
            = requests o ++ [id; id])
  /\ (forall i, fst (FlowCompletion.handler client i o) = Ok tt).
Proof.
  assert (Htotal : forall flowId o',
             fst (endAgentTracingHandit client flowId o') = Ok tt).
  { intros [id|] o'; [|reflexivity].
    unfold endAgentTracingHandit.
    destruct (negb (truthy (VStr id))); [reflexivity|].
    unfold endAgentTracing, console_write. unfold_eff. cbn [requests].
    destruct (client (requests o') id); reflexivity. }
  assert (Hreq : forall c s o',
             requests (snd (endAgentTracingHandit client (Some (String c s)) o'))
             = requests o' ++ [String c s]).
  { intros c s o'. unfold endAgentTracingHandit. cbn [truthy negb String.eqb].
    unfold endAgentTracing, console_write. unfold_eff. cbn [requests].
    destruct (client (requests o') (String c s)); reflexivity. }
  split; [reflexivity|]. split; [reflexivity|].
  split; [intros; apply Htotal|].
  split.
  { intros flowId. unfold close_twice, bind.
    pose proof (Htotal flowId o) as H1.
    destruct (endAgentTracingHandit client flowId o) as [[[]|e] o1];
      [apply Htotal | discriminate H1]. }
  split.
  { intros c s id. subst id. split; [apply Hreq|]. split.
    - unfold endAgentTracingHandit. cbn [truthy negb String.eqb].
      unfold endAgentTracing, console_write. unfold_eff. cbn [requests console].
      destruct (client (requests o) (String c s)); cbn [snd console];
        [now rewrite <- app_assoc | reflexivity].
    - unfold close_twice, bind.
      pose proof (Htotal (Some (String c s)) o) as H1.
      pose proof (Hreq c s o) as H2.
      destruct (endAgentTracingHandit client (Some (String c s)) o)
        as [[[]|e] o1]; [|discriminate H1].
      cbn [snd] in H2. rewrite Hreq, H2, <- app_assoc.
      reflexivity. }
  intros i. unfold FlowCompletion.handler, try_catch.
  destruct (FlowCompletion.flow_id_truthy (FlowCompletion._handidFlowId i));
    [|reflexivity].
  pose proof (Htotal (FlowCompletion._handidFlowId i) o) as H1.
  now destruct (endAgentTracingHandit client (FlowCompletion._handidFlowId i) o)
    as [[[]|e] o1].
Qed.

Example close_with_failing_client :
  endAgentTracingHandit (fun _ _ => Some Samples.provider_down) (Some "flow-1")
    Samples.nothing_seen
  = (Ok tt,
     {| console := [closing_line "flow-1"; failure_line "flow-1"];
        requests := ["flow-1"] |}).
Proof. reflexivity. Qed.

(** ** The query handed to the Retrieve step *)

(** C10: whatever the provider answers and whatever [JSON.parse] makes of
    it, the result of [extractFilters] has the message it was given as
    [extractedQuery] (the parsed answer is overwritten, the two fallbacks
    are built with it), also after the tracing wrapper has tagged it; and
    the one event the step emits, on either path, has the preprocessed
    input query as [processedMessage]. A query rewritten by the LLM never
    reaches the Retrieve step. *)
Theorem C10_extracted_query_is_input
  (w : FilterExtraction.world) (i : FilterExtraction.input) (log : list event) :
  (forall response,
      member (FilterExtraction.parse_answer w (FilterExtraction.processedMessage i)
                response) "extractedQuery"
      = Ok (VStr (FilterExtraction.processedMessage i)))
  /\ match traceWithHandit (FilterExtraction.trace_fault w)
             llmFiltersExtraction_node (FilterExtraction._handidFlowId i)
             (FilterExtraction.extractFilters w
                (FilterExtraction.processedMessage i)
                FilterExtraction.systemPrompt) with
     | Ok r =>
         member r "extractedQuery"
         = Ok (VStr (FilterExtraction.processedMessage i))
     | Throw _ => True
     end
  /\ exists d,
      FilterExtraction.handler w i log
      = (Ok tt, log ++ [{| topic := "fetch-context"; data := d |}])
      /\ get_prop "processedMessage" d
         = VStr (FilterExtraction.processedMessage i)
      /\ In "fetch-context" Retrieval.subscribes.
Proof.
  split; [intros; apply parse_answer_query|]. split.
  - destruct (traceWithHandit _ _ _ _) as [r|e] eqn:H; [|exact I].
    exact (traced_extraction_query _ _ _ _ _ H).
  - destruct (filter_extraction_handler_emits_once w i log)
      as [d [H [_ [Hq Hsub]]]].
    now exists d.
Qed.

(** The rewriting of the provider is parsed, overwritten and not emitted;
    the filters it extracted are. *)
Example rewritten_query_is_discarded :
  FilterExtraction.handler Samples.rewriting_llm Samples.a_filter_input []
  = (Ok tt,
     [{| topic := "fetch-context";
         data :=
           [("originalMessage", VStr " Show me failures from 2023-05-15 ");
            ("processedMessage", VStr "Show me failures from 2023-05-15");
            ("timestamp", VStr "2025-03-10T08:00:00.000Z");
            ("dateFilters", VObj [("date_str", VStr "2023-05-15")]);
            ("metadataFilters", VNull);
            ("_handidFlowId", VStr "flow-1741593600000-k3x9q2a")] |}]).
Proof. reflexivity. Qed.

(** ** From Generate to Complete *)

(** The event of the Generate step, on either path, passes the input
    schema of the Complete step with the same correlation id, and the
    Complete step then asks the tracing client to end that session. *)
Lemma generation_reaches_completion
  (w : Generation.world) (i : Generation.input) (log : list event) :
  exists d input',
    Generation.handler w i log
    = (Ok tt, log ++ [{| topic := "response-generated"; data := d |}])
    /\ FlowCompletion.validate d = Some input'
    /\ FlowCompletion._handidFlowId input' = Generation._handidFlowId i.
Proof.
  destruct i as [om pm ts [ctx|] [fid|]];
    unfold Generation.handler, Generation.try_block, Generation.catch_block,
      Generation.generateResponse, traceWithHandit, traceAgentNode;
    cbn [Generation.originalMessage Generation.processedMessage
         Generation.timestamp Generation.context Generation._handidFlowId];
    unfold_eff;
    repeat next_outcome;
    try (destruct (Generation.trace_fault w));
    try discriminate;
    repeat match goal with H : Ok _ = Ok _ |- _ => inversion H; subst; clear H end;
    eexists; eexists; (split; [reflexivity|]);
    split; reflexivity.
Qed.

Lemma completion_closes_session
  (client : list string -> string -> option exn) (i : FlowCompletion.input)
  (c : ascii) (s : string) (o : observed) :
  FlowCompletion._handidFlowId i = Some (String c s) ->
  fst (FlowCompletion.handler client i o) = Ok tt
  /\ requests (snd (FlowCompletion.handler client i o))
     = requests o ++ [String c s].
Proof.
  intros Hid.
  unfold FlowCompletion.handler, FlowCompletion.flow_id_truthy, try_catch.
  rewrite Hid. cbn [of_opt_str truthy negb String.eqb].
  unfold endAgentTracingHandit. cbn [truthy negb String.eqb].
  unfold endAgentTracing, console_write. unfold_eff. cbn [requests].
  destruct (client (requests o) (String c s)); split; reflexivity.
Qed.

(* ================================================================== *)
(** * Further properties of the code *)

(** ** Letter case *)

Lemma lower_char_idempotent (c : ascii) :
  lower_char (lower_char c) = lower_char c.
Proof. destruct c as [[] [] [] [] [] [] [] []]; reflexivity. Qed.

Lemma lower_char_digit (c : ascii) : is_digit (lower_char c) = is_digit c.
Proof. destruct c as [[] [] [] [] [] [] [] []]; reflexivity. Qed.

Lemma lower_char_word (c : ascii) : is_word (lower_char c) = is_word c.
Proof. destruct c as [[] [] [] [] [] [] [] []]; reflexivity. Qed.

Lemma lower_char_dash (c : ascii) :
  Ascii.eqb (lower_char c) "-" = Ascii.eqb c "-".
Proof. destruct c as [[] [] [] [] [] [] [] []]; reflexivity. Qed.

Lemma lower_char_two (c : ascii) :
  Ascii.eqb (lower_char c) "2" = Ascii.eqb c "2".
Proof. destruct c as [[] [] [] [] [] [] [] []]; reflexivity. Qed.

Lemma lower_char_zero (c : ascii) :
  Ascii.eqb (lower_char c) "0" = Ascii.eqb c "0".
Proof. destruct c as [[] [] [] [] [] [] [] []]; reflexivity. Qed.

Lemma lower_char_fixes_digit (c : ascii) :
  is_digit c = true -> lower_char c = c.
Proof. destruct c as [[] [] [] [] [] [] [] []]; try reflexivity; discriminate. Qed.

Lemma lower_char_fixes_dash (c : ascii) :
  Ascii.eqb c "-" = true -> lower_char c = c.
Proof. intros H. apply Ascii.eqb_eq in H. now subst. Qed.

Lemma toLowerCase_idempotent (s : string) :
  toLowerCase (toLowerCase s) = toLowerCase s.
Proof.
  induction s as [|c s IH]; simpl; [reflexivity|].
  now rewrite lower_char_idempotent, IH.
Qed.

Lemma case_blind_digit : case_blind Digit.
Proof.
  intros c. split; [apply lower_char_digit | apply lower_char_fixes_digit].
Qed.

Lemma case_blind_dash : case_blind (Lit "-").
Proof.
  intros c. split; [apply lower_char_dash | apply lower_char_fixes_dash].
Qed.

Lemma case_blind_two : case_blind (Lit "2").
Proof.
  intros c. split; [apply lower_char_two|].
  simpl. intros H. apply Ascii.eqb_eq in H. now subst.
Qed.

Lemma case_blind_zero : case_blind (Lit "0").
Proof.
  intros c. split; [apply lower_char_zero|].
  simpl. intros H. apply Ascii.eqb_eq in H. now subst.
Qed.

Lemma match_here_lower (p : list cls) (s : string) :
  Forall case_blind p ->
  match_here p (toLowerCase s) =
  match match_here p s with
  | Some (m, r) => Some (m, toLowerCase r)
  | None => None
  end.
Proof.
  intros Hp. revert s. induction Hp as [|k p Hk Hp IH]; intros s.
  - reflexivity.
  - destruct s as [|c s]; [reflexivity|].
    cbn [toLowerCase match_here].
    destruct (Hk c) as [Hsame Hfix]. rewrite Hsame.
    destruct (cls_ok k c) eqn:Hc; [|reflexivity].
    rewrite IH, (Hfix eq_refl).
    now destruct (match_here p s) as [[m r]|].
Qed.

Lemma iso_pattern_case_blind : Forall case_blind iso_pattern.
Proof.
  unfold iso_pattern.
  repeat (apply Forall_cons;
          [first [exact case_blind_digit | exact case_blind_dash]|]).
  apply Forall_nil.
Qed.

Lemma year_pattern_case_blind : Forall case_blind year_pattern.
Proof.
  unfold year_pattern.
  repeat (apply Forall_cons;
          [first [exact case_blind_digit | exact case_blind_two
                 | exact case_blind_zero]|]).
  apply Forall_nil.
Qed.

Lemma match_iso_date_lower (s : string) :
  match_iso_date (toLowerCase s) = match_iso_date s.
Proof.
  induction s as [|c s IH].
  - reflexivity.
  - change (toLowerCase (String c s))
      with (String (lower_char c) (toLowerCase s)).
    cbn [match_iso_date].
    change (String (lower_char c) (toLowerCase s))
      with (toLowerCase (String c s)).
    rewrite (match_here_lower _ _ iso_pattern_case_blind).
    destruct (match_here iso_pattern (String c s)) as [[m r]|];
      [reflexivity | exact IH].
Qed.

Lemma boundary_after_lower (r : string) :
  boundary_after (toLowerCase r) = boundary_after r.
Proof. destruct r as [|c r]; simpl; [reflexivity | now rewrite lower_char_word]. Qed.

Lemma year_here_lower (b : bool) (s : string) :
  year_here b (toLowerCase s) = year_here b s.
Proof.
  unfold year_here. destruct b; [reflexivity|].
  rewrite (match_here_lower _ _ year_pattern_case_blind).
  destruct (match_here year_pattern s) as [[m r]|]; [|reflexivity].
  now rewrite boundary_after_lower.
Qed.

Lemma match_year_from_lower (b : bool) (s : string) :
  match_year_from b (toLowerCase s) = match_year_from b s.
Proof.
  revert b. induction s as [|c s IH]; intros b.
  - cbn [toLowerCase match_year_from]. now destruct (year_here b EmptyString).
  - change (toLowerCase (String c s))
      with (String (lower_char c) (toLowerCase s)).
    cbn [match_year_from].
    change (String (lower_char c) (toLowerCase s))
      with (toLowerCase (String c s)).
    rewrite year_here_lower, lower_char_word, IH. reflexivity.
Qed.

Lemma month_loop_lower (q q' : string) (names : list string) (i : Z) :
  toLowerCase q = toLowerCase q' ->
  MetadataFilters.month_loop q names i = MetadataFilters.month_loop q' names i.
Proof.
  intros H. revert i. induction names as [|name names IH]; intros i.
  - reflexivity.
  - cbn [MetadataFilters.month_loop]. rewrite H, IH.
    unfold MetadataFilters.with_year, match_year.
    rewrite <- (match_year_from_lower false q),
            <- (match_year_from_lower false q'), H.
    reflexivity.
Qed.

(** X1: two queries that differ only in the case of their letters get the
    same date filter and the same metadata filter: the keyword tests run
    on the lower-cased query, and the two expressions, which run on the
    query as written, only look at digits, dashes and word boundaries.
    This is for queries of code units below 256, where lower-casing never
    turns a character that is not a word character into one. *)
Theorem extractors_ignore_letter_case
  (now : MetadataFilters.clock) (q q' : string) :
  toLowerCase q = toLowerCase q' ->
  MetadataFilters.extractDateFilters now q
  = MetadataFilters.extractDateFilters now q'
  /\ MetadataFilters.extractMetadataFilters q
     = MetadataFilters.extractMetadataFilters q'.
Proof.
  intros H. split.
  - unfold MetadataFilters.extractDateFilters.
    rewrite <- (match_iso_date_lower q), <- (match_iso_date_lower q'), H.
    rewrite (month_loop_lower q q' _ _ H).
    unfold match_year.
    rewrite <- (match_year_from_lower false q),
            <- (match_year_from_lower false q'), H.
    reflexivity.
  - unfold MetadataFilters.extractMetadataFilters, MetadataFilters.keyword_loop,
      MetadataFilters.correctness.
    now rewrite H.
Qed.

Lemma extractors_ignore_letter_case_witness :
  MetadataFilters.extractDateFilters Samples.a_clock
    "ERRORS in PRODUCTION, March 2023"
  = MetadataFilters.extractDateFilters Samples.a_clock
      "errors in production, march 2023"
  /\ MetadataFilters.extractMetadataFilters "ERRORS in PRODUCTION, March 2023"
     = MetadataFilters.extractMetadataFilters "errors in production, march 2023".
Proof.
  apply (extractors_ignore_letter_case Samples.a_clock
           "ERRORS in PRODUCTION, March 2023"
           "errors in production, march 2023").
  reflexivity.
Defined.

(** ** Years and months *)

Lemma match_year_from_shape (b : bool) (s y : string) :
  match_year_from b s = Some y -> has_shape year_pattern y /\ contains s y.
Proof.
  revert b. induction s as [|c s IH]; intros b.
  - cbn [match_year_from]. unfold year_here.
    destruct b; [discriminate|]. cbn. discriminate.
  - cbn [match_year_from]. unfold year_here at 1.
    destruct b.
    + intros H. destruct (IH _ H) as [Hs [pre [post Hq]]].
      split; [exact Hs|]. exists (String c pre), post. simpl. now rewrite Hq.
    + destruct (match_here year_pattern (String c s)) as [[m r]|] eqn:Hm.
      * destruct (boundary_after r).
        -- intros H; inversion H; subst m.
           destruct (match_here_sound _ _ _ _ Hm) as [Hq Hs].
           split; [exact Hs|]. now exists EmptyString, r.
        -- intros H. destruct (IH _ H) as [Hs [pre [post Hq]]].
           split; [exact Hs|]. exists (String c pre), post. simpl. now rewrite Hq.
      * intros H. destruct (IH _ H) as [Hs [pre [post Hq]]].
        split; [exact Hs|]. exists (String c pre), post. simpl. now rewrite Hq.
Qed.

Lemma year_shape_bounds (y : string) :
  has_shape year_pattern y -> (2000 <= parseInt y <= 2099)%Z.
Proof.
  unfold has_shape, year_pattern. intros H.
  destruct y as [|c1 [|c2 [|c3 [|c4 [|c5 y]]]]]; simpl in H;
    try (repeat match goal with
                | H : Forall2 _ _ _ |- _ => inversion H; clear H; subst
                end; fail).
  repeat match goal with
         | H : Forall2 _ _ _ |- _ => inversion H; clear H; subst
         end.
  repeat match goal with
         | H : cls_ok (Lit _) _ = true |- _ =>
             simpl in H; apply Ascii.eqb_eq in H; subst
         | H : cls_ok Digit _ = true |- _ =>
             simpl in H; unfold is_digit in H;
             apply andb_true_iff in H; destruct H as [?H ?H]
         end.
  repeat match goal with
         | H : (_ <=? _)%N = true |- _ => apply N.leb_le in H
         end.
  unfold parseInt. cbn [parse_digits].
  change (code "2") with 50%N. change (code "0") with 48%N. lia.
Qed.

(** X2: a year set by the date extractor, alone or beside a month, is an
    integer from 2000 to 2099, read from a four-character token "20dd" of
    the query. *)
Theorem extracted_year_in_this_century
  (now : MetadataFilters.clock) (q : string) (o : obj) (y : Z) :
  MetadataFilters.extractDateFilters now q = Some o ->
  get_prop "year" o = VNum y ->
  (2000 <= y <= 2099)%Z
  /\ exists token, contains q token /\ has_shape year_pattern token
                   /\ y = parseInt token.
Proof.
  assert (Hyear : forall t, match_year q = Some t ->
            (2000 <= parseInt t <= 2099)%Z
            /\ exists token, contains q token /\ has_shape year_pattern token
                             /\ parseInt t = parseInt token).
  { intros t Ht. destruct (match_year_from_shape _ _ _ Ht) as [Hs Hc].
    split; [now apply year_shape_bounds | now exists t]. }
  unfold MetadataFilters.extractDateFilters.
  destruct (match_iso_date q); [intros H; inversion H; subst; discriminate|].
  destruct (includes (toLowerCase q) "yesterday");
    [intros H; inversion H; subst; discriminate|].
  destruct (includes (toLowerCase q) "today");
    [intros H; inversion H; subst; discriminate|].
  destruct (includes (toLowerCase q) "last week");
    [intros H; inversion H; subst; discriminate|].
  destruct (MetadataFilters.month_loop q MetadataFilters.monthNames 0)
    as [filters|] eqn:Hloop.
  - intros H; inversion H; subst filters. clear H. revert Hloop.
    generalize 0%Z. generalize MetadataFilters.monthNames.
    induction l as [|name names IH]; intros i; cbn [MetadataFilters.month_loop];
      [discriminate|].
    destruct (includes (toLowerCase q) name); [|apply IH].
    unfold MetadataFilters.with_year.
    destruct (match_year q) as [t|] eqn:Ht;
      intros H; inversion H; subst o; cbn; intros Hy; inversion Hy; subst.
    now apply Hyear.
  - destruct (match_year q) as [t|] eqn:Ht; [|discriminate].
    intros H; inversion H; subst o. cbn. intros Hy; inversion Hy; subst.
    now apply Hyear.
Qed.

Lemma extracted_year_in_this_century_witness :
  (2000 <= 2023 <= 2099)%Z
  /\ exists token,
       contains "Give me insights from completed tasks in March 2023" token
       /\ has_shape year_pattern token /\ 2023%Z = parseInt token.
Proof.
  apply (extracted_year_in_this_century Samples.a_clock
           "Give me insights from completed tasks in March 2023"
           [("month", VNum 3); ("year", VNum 2023)] 2023);
    vm_compute; reflexivity.
Defined.

(** X3: when the date extractor sets a month, it is the earliest month of
    the calendar whose name the lower-cased query includes (not the first
    one in the text), from 1 to 12, and the year goes with it exactly when
    the year expression matches. *)
Theorem extracted_month_is_first_of_calendar
  (now : MetadataFilters.clock) (q : string) (o : obj) (m : Z) :
  MetadataFilters.extractDateFilters now q = Some o ->
  get_prop "month" o = VNum m ->
  (1 <= m <= 12)%Z
  /\ includes (toLowerCase q) (month_name m) = true
  /\ (forall m', (1 <= m' < m)%Z ->
                 includes (toLowerCase q) (month_name m') = false)
  /\ get_prop "year" o
     = match match_year q with
       | Some y => VNum (parseInt y)
       | None => VUndefined
       end.
Proof.
  unfold MetadataFilters.extractDateFilters.
  destruct (match_iso_date q); [intros H; inversion H; subst; discriminate|].
  destruct (includes (toLowerCase q) "yesterday");
    [intros H; inversion H; subst; discriminate|].
  destruct (includes (toLowerCase q) "today");
    [intros H; inversion H; subst; discriminate|].
  destruct (includes (toLowerCase q) "last week");
    [intros H; inversion H; subst; discriminate|].
  destruct (MetadataFilters.month_loop q MetadataFilters.monthNames 0)
    as [filters|] eqn:Hloop.
  - intros H; inversion H; subst filters. clear H.
    destruct (month_loop_first _ _ _ _ Hloop)
      as [before [name [after [Hl [Hb [Hi Ho]]]]]].
    assert (Hlen : (length before < 12)%nat).
    { apply (f_equal (@length string)) in Hl.
      rewrite length_app in Hl. cbn in Hl. lia. }
    assert (Hm : forall v, get_prop "month" o = VNum v ->
                           v = (Z.of_nat (length before) + 1)%Z).
    { rewrite Ho. unfold MetadataFilters.with_year.
      destruct (match_year q); cbn; intros v Hv; inversion Hv; lia. }
    intros Hmonth. apply Hm in Hmonth. subst m.
    split; [lia|]. unfold month_name.
    replace (Z.to_nat (Z.of_nat (length before) + 1 - 1)) with (length before)
      by lia.
    split; [|split].
    + rewrite Hl, nth_middle. exact Hi.
    + intros m' Hm'.
      replace (nth (Z.to_nat (m' - 1)) MetadataFilters.monthNames EmptyString)
        with (nth (Z.to_nat (m' - 1)) before EmptyString)
        by (rewrite Hl, app_nth1 by lia; reflexivity).
      rewrite Forall_forall in Hb. apply Hb, nth_In. lia.
    + rewrite Ho. unfold MetadataFilters.with_year.
      now destruct (match_year q).
  - destruct (match_year q); [|discriminate].
    intros H; inversion H; subst o. cbn. discriminate.
Qed.

Lemma extracted_month_is_first_of_calendar_witness :
  (1 <= 5 <= 12)%Z
  /\ includes (toLowerCase "Maybe in December 2024") (month_name 5) = true
  /\ (forall m', (1 <= m' < 5)%Z ->
                 includes (toLowerCase "Maybe in December 2024") (month_name m')
                 = false)
  /\ get_prop "year" [("month", VNum 5); ("year", VNum 2024)]
     = match match_year "Maybe in December 2024" with
       | Some y => VNum (parseInt y)
       | None => VUndefined
       end.
Proof.
  apply (extracted_month_is_first_of_calendar Samples.a_clock
           "Maybe in December 2024" [("month", VNum 5); ("year", VNum 2024)] 5);
    vm_compute; reflexivity.
Defined.

(** ** The shape of the extracted filters *)

Lemma set_prop_absent (k : string) (v : value) (o : obj) :
  has_prop k o = false -> set_prop k v o = o ++ [(k, v)].
Proof.
  induction o as [|[k' v'] o IH]; simpl; [reflexivity|].
  destruct (k' =? k)%string; [discriminate|].
  intros H. now rewrite IH.
Qed.

Lemma set_prop_last (k : string) (v v0 : value) (o : obj) :
  has_prop k o = false -> set_prop k v (o ++ [(k, v0)]) = o ++ [(k, v)].
Proof.
  induction o as [|[k' v'] o IH]; simpl.
  - now rewrite String.eqb_refl.
  - destruct (k' =? k)%string; [discriminate|].
    intros H. now rewrite IH.
Qed.

(** On an object without [field], the loop appends the field with the last
    keyword that matches, or leaves the object as it is. *)
Lemma keyword_loop_shape (field query : string) (kws : list string)
  (o : obj) (cur : option string) :
  has_prop field o = false ->
  MetadataFilters.keyword_loop field kws query (o ++ opt_entry field VStr cur)
  = o ++ opt_entry field VStr
           match last_match kws (toLowerCase query) with
           | Some kw => Some kw
           | None => cur
           end.
Proof.
  intros Habs. unfold MetadataFilters.keyword_loop, last_match.
  revert cur. induction kws as [|kw kws IH]; intros cur.
  - reflexivity.
  - cbn [fold_left rev]. rewrite find_snoc.
    destruct (includes (toLowerCase query) kw) eqn:Hkw.
    + replace (set_prop field (VStr kw) (o ++ opt_entry field VStr cur))
        with (o ++ opt_entry field VStr (Some kw)).
      * rewrite IH.
        now destruct (find (includes (toLowerCase query)) (rev kws)).
      * destruct cur as [c|]; cbn [opt_entry].
        -- now rewrite set_prop_last.
        -- now rewrite app_nil_r, set_prop_absent.
    + rewrite IH.
      now destruct (find (includes (toLowerCase query)) (rev kws)).
Qed.

Lemma metadata_extractor_shape (q : string) :
  MetadataFilters.extractMetadataFilters q
  = null_if_empty (metadata_obj (metadata_of q)).
Proof.
  unfold MetadataFilters.extractMetadataFilters.
  pose proof (keyword_loop_shape "environment" q MetadataFilters.environments
                [] None eq_refl) as He.
  cbn [opt_entry app] in He. rewrite He. clear He.
  unfold metadata_of, metadata_obj.
  cbn [environment status is_correct].
  destruct (last_match MetadataFilters.environments (toLowerCase q)) as [e|];
    cbn [opt_entry app].
  - pose proof (keyword_loop_shape "status" q MetadataFilters.statuses
                  [("environment", VStr e)] None eq_refl) as Hs.
    cbn [opt_entry] in Hs. rewrite app_nil_r in Hs. rewrite Hs. clear Hs.
    unfold MetadataFilters.correctness.
    destruct (last_match MetadataFilters.statuses (toLowerCase q)) as [st|];
      destruct (includes (toLowerCase q) "correct") eqn:Hc; try reflexivity;
      (destruct (includes (toLowerCase q) "incorrect") eqn:Hi;
       [apply includes_incorrect in Hi; congruence|]);
      destruct (includes (toLowerCase q) "wrong"); reflexivity.
  - pose proof (keyword_loop_shape "status" q MetadataFilters.statuses
                  [] None eq_refl) as Hs.
    cbn [opt_entry app] in Hs. rewrite Hs. clear Hs.
    unfold MetadataFilters.correctness.
    destruct (last_match MetadataFilters.statuses (toLowerCase q)) as [st|];
      destruct (includes (toLowerCase q) "correct") eqn:Hc; try reflexivity;
      (destruct (includes (toLowerCase q) "incorrect") eqn:Hi;
       [apply includes_incorrect in Hi; congruence|]);
      destruct (includes (toLowerCase q) "wrong"); reflexivity.
Qed.

Lemma last_match_in (kws : list string) (text kw : string) :
  last_match kws text = Some kw -> In kw kws /\ includes text kw = true.
Proof.
  unfold last_match. intros H. apply find_some in H.
  destruct H as [Hin Hinc]. split; [now apply in_rev | exact Hinc].
Qed.

Lemma last_match_none (kws : list string) (text : string) :
  last_match kws text = None <->
  forall kw, In kw kws -> includes text kw = false.
Proof.
  unfold last_match. split.
  - intros H kw Hin. apply (find_none _ _ H). now apply in_rev in Hin.
  - intros H. destruct (find (includes text) (rev kws)) as [kw|] eqn:Hf;
      [|reflexivity].
    apply find_some in Hf. destruct Hf as [Hin Hinc].
    apply in_rev in Hin. rewrite (H kw Hin) in Hinc. discriminate.
Qed.

(** X4: the object the metadata extractor returns has at most the keys
    [environment], [status] and [is_correct], in that order; the
    environment and the status are keywords of their declared lists that
    the lower-cased query includes, the correctness is a boolean; and the
    result is null instead of the empty object. *)
Theorem metadata_filters_are_typed (q : string) :
  MetadataFilters.extractMetadataFilters q
  = null_if_empty (metadata_obj (metadata_of q))
  /\ (forall e, environment (metadata_of q) = Some e ->
                In e MetadataFilters.environments
                /\ includes (toLowerCase q) e = true)
  /\ (forall st, status (metadata_of q) = Some st ->
                 In st MetadataFilters.statuses
                 /\ includes (toLowerCase q) st = true).
Proof.
  split; [apply metadata_extractor_shape|].
  split; intros x H; now apply last_match_in in H.
Qed.

(** X5: the metadata extractor returns null exactly when the lower-cased
    query includes none of the keywords it looks for. *)
Theorem metadata_filters_null_iff (q : string) :
  MetadataFilters.extractMetadataFilters q = None
  <-> forall kw, In kw metadata_keywords -> includes (toLowerCase q) kw = false.
Proof.
  rewrite metadata_extractor_shape.
  unfold metadata_of, metadata_obj, metadata_keywords.
  cbn [environment status is_correct].
  split.
  - intros H kw Hin.
    destruct (last_match MetadataFilters.environments (toLowerCase q)) eqn:He;
      [discriminate H|].
    destruct (last_match MetadataFilters.statuses (toLowerCase q)) eqn:Hs;
      [discriminate H|].
    destruct (includes (toLowerCase q) "correct") eqn:Hc; [discriminate H|].
    destruct (includes (toLowerCase q) "wrong") eqn:Hw; [discriminate H|].
    rewrite !in_app_iff in Hin. destruct Hin as [Hin|[Hin|Hin]].
    + now apply (proj1 (last_match_none _ _) He).
    + now apply (proj1 (last_match_none _ _) Hs).
    + destruct Hin as [<-|[<-|[<-|[]]]]; [exact Hc | | exact Hw].
      destruct (includes (toLowerCase q) "incorrect") eqn:Hi; [|reflexivity].
      apply includes_incorrect in Hi. congruence.
  - intros H.
    assert (He : last_match MetadataFilters.environments (toLowerCase q) = None).
    { apply last_match_none. intros kw Hin. apply H.
      rewrite !in_app_iff. now left. }
    assert (Hs : last_match MetadataFilters.statuses (toLowerCase q) = None).
    { apply last_match_none. intros kw Hin. apply H.
      rewrite !in_app_iff. right. now left. }
    rewrite He, Hs.
    rewrite (H "correct"), (H "wrong"); [reflexivity| |];
      rewrite !in_app_iff; right; right; simpl; auto.
Qed.

(** The object the date extractor returns is the object of a typed date
    filter. *)
Lemma date_extractor_typed (now : MetadataFilters.clock) (q : string) :
  exists d : option DateFilter,
    MetadataFilters.extractDateFilters now q = option_map date_obj d.
Proof.
  unfold MetadataFilters.extractDateFilters.
  destruct (match_iso_date q) as [d|]; [now exists (Some (ExactDateF d))|].
  destruct (includes (toLowerCase q) "yesterday");
    [now exists (Some (ExactDateF (MetadataFilters.yesterday now)))|].
  destruct (includes (toLowerCase q) "today");
    [now exists (Some (ExactDateF (MetadataFilters.today now)))|].
  destruct (includes (toLowerCase q) "last week");
    [now exists (Some (DateRangeF (MetadataFilters.lastWeekStart now)
                         (MetadataFilters.today now)))|].
  destruct (MetadataFilters.month_loop q MetadataFilters.monthNames 0)
    as [o|] eqn:Hloop.
  - destruct (month_loop_first _ _ _ _ Hloop)
      as [before [name [after [_ [_ [_ Ho]]]]]].
    rewrite Ho. unfold MetadataFilters.with_year.
    destruct (match_year q) as [y|].
    + now exists (Some (MonthF (0 + Z.of_nat (length before) + 1)
                          (Some (parseInt y)))).
    + now exists (Some (MonthF (0 + Z.of_nat (length before) + 1) None)).
  - destruct (match_year q) as [y|];
      [now exists (Some (YearF (parseInt y))) | now exists None].
Qed.

(** X6: for every query, the filter that the reference builder makes from
    the two extractions of that query holds exactly the extracted
    predicates: the metadata fields as they are, the date fields as they
    are except a range, which becomes an interval on [date_str]; and it is
    null exactly when both extractions are null. *)
Theorem extract_then_build (now : MetadataFilters.clock) (q : string) :
  exists d : option DateFilter,
    MetadataFilters.extractDateFilters now q = option_map date_obj d
    /\ MetadataFilters.buildFilterExpression
         (MetadataFilters.extractDateFilters now q)
         (MetadataFilters.extractMetadataFilters q)
       = null_if_empty (predicates d (Some (metadata_of q)))
    /\ (MetadataFilters.buildFilterExpression
          (MetadataFilters.extractDateFilters now q)
          (MetadataFilters.extractMetadataFilters q) = None
        <-> MetadataFilters.extractDateFilters now q = None
            /\ MetadataFilters.extractMetadataFilters q = None).
Proof.
  destruct (date_extractor_typed now q) as [d Hd].
  exists d. split; [exact Hd|].
  assert (Hbuild :
            MetadataFilters.buildFilterExpression
              (MetadataFilters.extractDateFilters now q)
              (MetadataFilters.extractMetadataFilters q)
            = null_if_empty (predicates d (Some (metadata_of q)))).
  { rewrite Hd, metadata_extractor_shape.
    destruct (metadata_obj (metadata_of q)) as [|kv o] eqn:Hm.
    - cbn [null_if_empty].
      change (@None obj) with (option_map metadata_obj None).
      rewrite reference_builder_spec. unfold predicates.
      cbn [metadata_predicates]. rewrite Hm.
      now destruct (date_predicates d).
    - cbn [null_if_empty]. rewrite <- Hm.
      change (Some (metadata_obj (metadata_of q)))
        with (option_map metadata_obj (Some (metadata_of q))).
      rewrite reference_builder_spec.
      now destruct (predicates d (Some (metadata_of q))). }
  split; [exact Hbuild|].
  rewrite Hbuild, Hd, metadata_extractor_shape.
  unfold predicates. cbn [metadata_predicates].
  destruct d as [[s|mo [y|]|y|s e]|]; cbn [option_map date_predicates date_obj app null_if_empty];
    try (split; [discriminate | intros [H _]; discriminate H]).
  destruct (metadata_obj (metadata_of q)); cbn [null_if_empty].
  - split; [now split | reflexivity].
  - split; [discriminate | intros [_ H]; discriminate H].
Qed.

(** ** Flow ids *)

Lemma member_truthy (v : value) (k : string) :
  truthy v = true -> member v k = Ok (member_opt v k).
Proof. destruct v; try reflexivity; discriminate. Qed.

Lemma and_member_ok (a : value) (k : string) :
  and_member a k = Ok (if truthy a then member_opt a k else a).
Proof.
  unfold and_member. destruct (truthy a) eqn:Ha; [|reflexivity].
  now apply member_truthy.
Qed.

Ltac flow_id_step :=
  repeat first
    [ rewrite and_member_ok
    | progress cbn [and_then]
    | match goal with
      | H : truthy ?a = true |- context [member ?a ?k] =>
          rewrite (member_truthy a k H)
      end
    | match goal with
      | H : truthy ?a = _ |- context [truthy ?a] => rewrite H
      end ].

(** X7: [extractFlowId] never raises, whatever value it is given (null, a
    primitive, an object whose [data] or [event] is missing, null or a
    primitive), and what it returns is undefined or truthy. *)
Theorem extractFlowId_never_raises (v : value) :
  exists r, extractFlowId v = Ok r /\ (r = VUndefined \/ truthy r = true).
Proof.
  unfold extractFlowId.
  destruct (truthy v) eqn:Hv; cbn [negb]; [|exists VUndefined; auto].
  repeat (flow_id_step;
          match goal with
          | |- context [if truthy ?a then _ else _] =>
              lazymatch a with
              | context [truthy] => fail
              | _ => let E := fresh "Ht" in destruct (truthy a) eqn:E
              end
          end);
    flow_id_step;
    (eexists; split; [reflexivity|]);
    first [left; reflexivity | right; assumption].
Qed.

Lemma extractFlowId_own (o : obj) (c : ascii) (s : string) :
  get_prop "_handidFlowId" o = VStr (String c s) ->
  extractFlowId (VObj o) = Ok (VStr (String c s)).
Proof.
  intros H. unfold extractFlowId. cbn [truthy negb member and_then].
  now rewrite H.
Qed.

Lemma extractFlowId_in_data (t : string) (d : obj) (c : ascii) (s : string) :
  get_prop "_handidFlowId" d = VStr (String c s) ->
  extractFlowId (VObj [("topic", VStr t); ("data", VObj d)])
  = Ok (VStr (String c s)).
Proof.
  intros H. unfold extractFlowId, and_member.
  cbn [truthy negb member and_then get_prop String.eqb Ascii.eqb Bool.eqb].
  now rewrite H.
Qed.

(** X8: the id that [traceWithHandit] attaches to an object is the one
    [extractFlowId] reads back: for every object result and every id that
    is not empty, extracting from the tagged result gives the id, whatever
    id the object carried before. *)
Theorem attached_flow_id_is_extracted
  (node : string) (o : obj) (c : ascii) (s : string) :
  traceWithHandit None node (Some (String c s)) (Ok (VObj o))
  = Ok (attach_flow_id (Some (String c s)) (VObj o))
  /\ extractFlowId (attach_flow_id (Some (String c s)) (VObj o))
     = Ok (VStr (String c s)).
Proof.
  split; [reflexivity|].
  unfold attach_flow_id. cbn [of_opt_str truthy negb String.eqb].
  apply extractFlowId_own, get_set_same.
Qed.

(** X9: from the payload a step emits, and from the event around it,
    [extractFlowId] gives back the correlation id of the step's input,
    on the normal path and on the fallback path, for ExtractFilters,
    Retrieve and Generate; for Preprocess it gives the id the step
    generated. *)
Theorem emitted_flow_id_is_extracted (c : ascii) (s : string) :
  (forall (w : FilterExtraction.world) (i : FilterExtraction.input) log,
      FilterExtraction._handidFlowId i = Some (String c s) ->
      exists ev,
        snd (FilterExtraction.handler w i log) = log ++ [ev]
        /\ extractFlowId (VObj (data ev)) = Ok (VStr (String c s))
        /\ extractFlowId (VObj [("topic", VStr (topic ev)); ("data", VObj (data ev))])
           = Ok (VStr (String c s)))
  /\ (forall (w : Retrieval.world) (i : Retrieval.input) log,
      Retrieval._handidFlowId i = Some (String c s) ->
      exists ev,
        snd (Retrieval.handler w i log) = log ++ [ev]
        /\ extractFlowId (VObj (data ev)) = Ok (VStr (String c s))
        /\ extractFlowId (VObj [("topic", VStr (topic ev)); ("data", VObj (data ev))])
           = Ok (VStr (String c s)))
  /\ (forall (w : Generation.world) (i : Generation.input) log,
      Generation._handidFlowId i = Some (String c s) ->
      exists ev,
        snd (Generation.handler w i log) = log ++ [ev]
        /\ extractFlowId (VObj (data ev)) = Ok (VStr (String c s))
        /\ extractFlowId (VObj [("topic", VStr (topic ev)); ("data", VObj (data ev))])
           = Ok (VStr (String c s)))
  /\ (forall (w : Preprocess.world) (i : Preprocess.input) log,
      exists ev,
        snd (Preprocess.handler w i log) = log ++ [ev]
        /\ extractFlowId (VObj (data ev))
           = Ok (VStr (generateFlowId (Preprocess.now_ms w) (Preprocess.random36 w)))).
Proof.
  split; [|split; [|split]]; intros w i log.
  - intros Hid.
    destruct (filter_extraction_handler_emits_once w i log) as [d [H [Hd _]]].
    rewrite Hid in Hd. eexists. rewrite H. split; [reflexivity|].
    split; [now apply extractFlowId_own | now apply extractFlowId_in_data].
  - intros Hid.
    destruct (retrieval_handler_emits_once w i log) as [d [H [Hd _]]].
    rewrite Hid in Hd. eexists. rewrite H. split; [reflexivity|].
    split; [now apply extractFlowId_own | now apply extractFlowId_in_data].
  - intros Hid.
    destruct (generation_handler_emits_once w i log) as [d [H [Hd _]]].
    rewrite Hid in Hd. eexists. rewrite H. split; [reflexivity|].
    split; [now apply extractFlowId_own | now apply extractFlowId_in_data].
  - destruct (preprocess_handler_emits_once w i log) as [d [H [Hd _]]].
    eexists. rewrite H. split; [reflexivity|].
    cbn [data]. now apply extractFlowId_own.
Qed.

Lemma emitted_flow_id_is_extracted_witness :
  exists ev,
    snd (Retrieval.handler Samples.embedding_down Samples.a_retrieval_input [])
    = [] ++ [ev]
    /\ extractFlowId (VObj (data ev)) = Ok (VStr "flow-1741593600000-k3x9q2a")
    /\ extractFlowId (VObj [("topic", VStr (topic ev)); ("data", VObj (data ev))])
       = Ok (VStr "flow-1741593600000-k3x9q2a").
Proof.
  apply (proj1 (proj2 (emitted_flow_id_is_extracted "f" "low-1741593600000-k3x9q2a"))
           Samples.embedding_down Samples.a_retrieval_input []).
  reflexivity.
Defined.

Lemma dash_splits_once (ts ts' r r' : string) :
  ~ contains ts "-" -> ~ contains ts' "-" ->
  (ts ++ "-" ++ r)%string = (ts' ++ "-" ++ r')%string ->
  ts = ts' /\ r = r'.
Proof.
  revert ts'. induction ts as [|c ts IH]; intros [|c' ts'] Hn Hn' H;
    simpl in H.
  - inversion H. now split.
  - inversion H; subst c'. exfalso. apply Hn'. now exists EmptyString, ts'.
  - inversion H; subst c. exfalso. apply Hn. now exists EmptyString, ts.
  - inversion H; subst c'.
    destruct (IH ts') as [-> ->]; [| |assumption|now split].
    + intros [pre [post Hc]]. apply Hn. exists (String c pre), post.
      simpl. now rewrite Hc.
    + intros [pre [post Hc]]. apply Hn'. exists (String c pre), post.
      simpl. now rewrite Hc.
Qed.

(** X10: a generated flow id is never empty (so it is truthy and every
    traced result is tagged with it), and two ids are equal only when they
    were made from the same timestamp and the same random suffix, the
    timestamps being texts without a dash, as the decimal text of
    [Date.now()] is. *)
Theorem generated_flow_ids (ts ts' r r' : string) :
  ~ contains ts "-" -> ~ contains ts' "-" ->
  truthy (VStr (generateFlowId ts r)) = true
  /\ prefix "flow-" (generateFlowId ts r) = true
  /\ (generateFlowId ts r = generateFlowId ts' r' -> ts = ts' /\ r = r').
Proof.
  intros Hn Hn'. unfold generateFlowId. split; [reflexivity|].
  split; [apply prefix_spec; eexists; reflexivity|].
  intros H. simpl in H. inversion H.
  now apply dash_splits_once.
Qed.

Lemma generated_flow_ids_witness :
  truthy (VStr (generateFlowId "1741593600000" "k3x9q2a")) = true
  /\ prefix "flow-" (generateFlowId "1741593600000" "k3x9q2a") = true
  /\ (generateFlowId "1741593600000" "k3x9q2a"
      = generateFlowId "1741593600001" "k3x9q2a" ->
      "1741593600000" = "1741593600001" /\ "k3x9q2a" = "k3x9q2a").
Proof.
  apply (generated_flow_ids "1741593600000" "1741593600001" "k3x9q2a" "k3x9q2a");
    intros H; apply includes_spec in H; vm_compute in H; discriminate H.
Defined.

(** X11: the traced function returns a value only when the callback has
    returned one, whatever the tracing client does, and the value is the
    result of the callback with the flow id attached: for a result that is
    an object or an array and an id that is not empty, [_handidFlowId] is
    the id, every other property is as it was and the items of an array
    are kept; any other result, and any result when there is no id or the
    empty id, is returned as it is. With a tracing client that does not
    fail the traced function returns whenever the callback does. *)
Theorem tracing_wrapper_tags_the_result
  (fault : option exn) (node : string) (flowId : option string)
  (callback : result value) :
  (forall r',
      traceWithHandit fault node flowId callback = Ok r' ->
      exists r,
        callback = Ok r
        /\ (forall k, ("_handidFlowId" =? k)%string = false ->
                      member r' k = member r k)
        /\ match r, flowId with
           | VObj o, Some (String c s) =>
               exists o', r' = VObj o'
                          /\ get_prop "_handidFlowId" o' = VStr (String c s)
           | VArr items props, Some (String c s) =>
               exists props', r' = VArr items props'
                              /\ get_prop "_handidFlowId" props'
                                 = VStr (String c s)
           | _, _ => r' = r
           end)
  /\ (fault = None ->
      forall r, callback = Ok r ->
                exists r', traceWithHandit fault node flowId callback = Ok r').
Proof.
  split.
  - unfold traceWithHandit, traceAgentNode.
    destruct fault as [e|]; [discriminate|].
    destruct callback as [r|e]; [|discriminate].
    intros r' H. inversion H; subst r'. clear H.
    exists r. split; [reflexivity|].
    split; [intros k Hk; now apply attach_flow_id_other|].
    unfold attach_flow_id.
    destruct r as [| | | | |o|items props];
      destruct flowId as [[|ch id]|]; try reflexivity;
      cbn [of_opt_str truthy negb String.eqb];
      eexists; (split; [reflexivity | apply get_set_same]).
  - intros -> r ->. eexists. reflexivity.
Qed.

(** ** What the steps forward *)

Ltac handler_paths :=
  unfold_eff; repeat next_outcome;
  eexists; repeat split; reflexivity.

(** X12: every step forwards the original message and the timestamp of
    its input unchanged, on the normal path and on the fallback path;
    Retrieve and Generate also forward the processed message unchanged.
    Preprocess sets the original message to the message it received and
    keeps a timestamp that is not empty. *)
Theorem messages_and_timestamp_are_forwarded :
  (forall (w : FilterExtraction.world) (i : FilterExtraction.input) log,
      exists d,
        FilterExtraction.handler w i log
        = (Ok tt, log ++ [{| topic := "fetch-context"; data := d |}])
        /\ get_prop "originalMessage" d = VStr (FilterExtraction.originalMessage i)
        /\ get_prop "timestamp" d = VStr (FilterExtraction.timestamp i))
  /\ (forall (w : Retrieval.world) (i : Retrieval.input) log,
      exists d,
        Retrieval.handler w i log
        = (Ok tt, log ++ [{| topic := "context-retrieved"; data := d |}])
        /\ get_prop "originalMessage" d = VStr (Retrieval.originalMessage i)
        /\ get_prop "processedMessage" d = VStr (Retrieval.processedMessage i)
        /\ get_prop "timestamp" d = VStr (Retrieval.timestamp i))
  /\ (forall (w : Generation.world) (i : Generation.input) log,
      exists d,
        Generation.handler w i log
        = (Ok tt, log ++ [{| topic := "response-generated"; data := d |}])
        /\ get_prop "originalMessage" d = VStr (Generation.originalMessage i)
        /\ get_prop "processedMessage" d = VStr (Generation.processedMessage i)
        /\ get_prop "timestamp" d = VStr (Generation.timestamp i))
  /\ (forall (w : Preprocess.world) (i : Preprocess.input) log,
      exists d,
        Preprocess.handler w i log
        = (Ok tt, log ++ [{| topic := "preprocess-complete"; data := d |}])
        /\ get_prop "originalMessage" d = VStr (Preprocess.message_ i)
        /\ forall c s, Preprocess.timestamp i = Some (String c s) ->
                       get_prop "timestamp" d = VStr (String c s)).
Proof.
  split; [|split; [|split]]; intros w i log.
  - unfold FilterExtraction.handler, FilterExtraction.try_block,
      FilterExtraction.catch_block.
    destruct (FilterExtraction.key_present (FilterExtraction.api_key w));
      handler_paths.
  - unfold Retrieval.handler, Retrieval.try_block, Retrieval.catch_block,
      Retrieval.fallback_data.
    handler_paths.
  - unfold Generation.handler, Generation.try_block, Generation.catch_block,
      Generation.fallback_data.
    handler_paths.
  - unfold Preprocess.handler, Preprocess.try_block, Preprocess.catch_block.
    unfold_eff. next_outcome; eexists; (split; [reflexivity|]);
      (split; [reflexivity|]); intros c s Hts; cbn; now rewrite Hts.
Qed.

Lemma attach_flow_id_string (flowId : option string) (s : string) :
  attach_flow_id flowId (VStr s) = VStr s.
Proof. reflexivity. Qed.

Lemma first_content_nonempty (response : completion) (text : string) :
  Generation.first_content response = Ok text -> text <> EmptyString.
Proof.
  unfold Generation.first_content.
  destruct (choices response) as [|c rest]; [discriminate|].
  destruct (choice_message c) as [[[t|]]|];
    try (intros H; inversion H; discriminate).
  destruct t as [|a t]; intros H; inversion H; discriminate.
Qed.

Ltac generation_fallback :=
  eexists; eexists;
  (split; [reflexivity|]); (split; [reflexivity|]); (split; [discriminate|]);
  cbn [fst]; split; reflexivity.

(** X13: the Generate step always emits a response that is a string and is
    not empty, whatever the provider and the tracing client do; and the
    payload has an [error] field exactly when the [try] block raised, in
    which case the response is the fixed apology. *)
Theorem generation_response_is_never_empty
  (w : Generation.world) (i : Generation.input) (log : list event) :
  exists d text,
    Generation.handler w i log
    = (Ok tt, log ++ [{| topic := "response-generated"; data := d |}])
    /\ get_prop "response" d = VStr text
    /\ text <> EmptyString
    /\ match fst (Generation.try_block w i log) with
       | Ok _ => has_prop "error" d = false
       | Throw e =>
           get_prop "error" d = VStr (Generation.error_text e)
           /\ text = Generation.fallbackResponse
       end.
Proof.
  unfold Generation.handler, Generation.try_block, Generation.catch_block,
    Generation.fallback_data, Generation.generateResponse,
    traceWithHandit, traceAgentNode.
  unfold_eff.
  destruct (Generation.client_init w) as [[]|e0]; [|generation_fallback].
  destruct (Generation.formatContext w (Generation.context i)) as [ctx|e1];
    [|generation_fallback].
  destruct (Generation.trace_fault w) as [e2|]; [generation_fallback|].
  destruct (Generation.completions_create w _ _) as [response|e3];
    [|generation_fallback].
  destruct (Generation.first_content response) as [text|e4] eqn:Hc;
    [|generation_fallback].
  eexists. exists text. cbn [attach_flow_id fst].
  split; [reflexivity|]. split; [reflexivity|].
  split; [now apply (first_content_nonempty response) | reflexivity].
Qed.

(** X15: the Complete step returns normally and makes exactly one
    end-of-session request, for the id of its input, when that id is
    present and not empty; with no id or the empty id it makes none and
    writes nothing. *)
Theorem completion_ends_the_session_once
  (client : list string -> string -> option exn) (i : FlowCompletion.input)
  (o : observed) :
  fst (FlowCompletion.handler client i o) = Ok tt
  /\ match FlowCompletion._handidFlowId i with
     | Some (String c s) =>
         requests (snd (FlowCompletion.handler client i o))
         = requests o ++ [String c s]
     | _ => snd (FlowCompletion.handler client i o) = o
     end.
Proof.
  destruct (FlowCompletion._handidFlowId i) as [[|c s]|] eqn:Hid.
  - unfold FlowCompletion.handler, FlowCompletion.flow_id_truthy, try_catch.
    rewrite Hid. split; reflexivity.
  - apply (completion_closes_session client i c s o Hid).
  - unfold FlowCompletion.handler, FlowCompletion.flow_id_truthy, try_catch.
    rewrite Hid. split; reflexivity.
Qed.

(** ** From one step to the next *)

(** X14: the event of the Generate step, on either path, passes the input
    schema of the Complete step with the response it carries, and the
    Complete step run on it ends the session of the id the Generate step
    received. *)
Theorem generate_then_complete
  (w : Generation.world) (client : list string -> string -> option exn)
  (i : Generation.input) (log : list event) (o : observed)
  (c : ascii) (s : string) :
  Generation._handidFlowId i = Some (String c s) ->
  exists d input',
    Generation.handler w i log
    = (Ok tt, log ++ [{| topic := "response-generated"; data := d |}])
    /\ FlowCompletion.validate d = Some input'
    /\ get_prop "response" d = VStr (FlowCompletion.response input')
    /\ fst (FlowCompletion.handler client input' o) = Ok tt
    /\ requests (snd (FlowCompletion.handler client input' o))
       = requests o ++ [String c s].
Proof.
  intros Hid.
  destruct (generation_reaches_completion w i log) as [d [input' [H [Hv Hf]]]].
  exists d, input'. split; [exact H|]. split; [exact Hv|].
  rewrite Hid in Hf.
  split; [|apply (completion_closes_session client input' c s o Hf)].
  revert Hv. unfold FlowCompletion.validate, FlowCompletion.required_string.
  destruct (get_prop "originalMessage" d); try discriminate.
  destruct (get_prop "processedMessage" d); try discriminate.
  destruct (get_prop "timestamp" d); try discriminate.
  destruct (get_prop "response" d); try discriminate.
  destruct (FlowCompletion.optional_array "context" d); try discriminate.
  destruct (FlowCompletion.optional_string "_handidFlowId" d); try discriminate.
  intros Hv; inversion Hv. reflexivity.
Qed.

Lemma generate_then_complete_witness :
  exists d input',
    Generation.handler Samples.no_choice Samples.a_generation_input []
    = (Ok tt, [] ++ [{| topic := "response-generated"; data := d |}])
    /\ FlowCompletion.validate d = Some input'
    /\ get_prop "response" d = VStr (FlowCompletion.response input')
    /\ fst (FlowCompletion.handler Samples.good_client input' Samples.nothing_seen)
       = Ok tt
    /\ requests (snd (FlowCompletion.handler Samples.good_client input'
                        Samples.nothing_seen))
       = requests Samples.nothing_seen ++ ["flow-1741593600000-k3x9q2a"].
Proof.
  apply (generate_then_complete Samples.no_choice Samples.good_client
           Samples.a_generation_input [] Samples.nothing_seen
           "f" "low-1741593600000-k3x9q2a").
  reflexivity.
Defined.

(** X16: the event of the API step passes the input schema of Preprocess,
    and the event Preprocess then emits, on either path, passes the input
    schema of ExtractFilters: with the message of the request as original
    message, the time the API step took as timestamp, the generated id,
    and the trimmed message as processed message, or the message as it is
    when the tracing client failed. *)
Theorem api_then_preprocess
  (w : Preprocess.world) (req : MessageApi.request) (c : ascii) (s : string) :
  exists d0 i0 d1 i1,
    MessageApi.handler (String c s) req []
    = (Ok [("status", VNum 200);
           ("body", VObj [("status", VStr "processing");
                          ("message", VStr "Your message is being processed")])],
       [{| topic := "message-received"; data := d0 |}])
    /\ Preprocess.validate d0 = Some i0
    /\ Preprocess.handler w i0 []
       = (Ok tt, [{| topic := "preprocess-complete"; data := d1 |}])
    /\ FilterExtraction.validate d1 = Some i1
    /\ FilterExtraction.originalMessage i1 = MessageApi.body_message req
    /\ FilterExtraction.timestamp i1 = String c s
    /\ FilterExtraction._handidFlowId i1
       = Some (generateFlowId (Preprocess.now_ms w) (Preprocess.random36 w))
    /\ FilterExtraction.processedMessage i1
       = match Preprocess.trace_fault w with
         | None => trim (MessageApi.body_message req)
         | Some _ => MessageApi.body_message req
         end.
Proof.
  destruct (Preprocess.trace_fault w) as [e|] eqn:Hf;
    eexists; eexists; eexists; eexists;
    (split; [reflexivity|]); (split; [reflexivity|]);
    unfold Preprocess.handler, Preprocess.try_block, Preprocess.catch_block,
      Preprocess.preprocessMessage, traceWithHandit, traceAgentNode;
    unfold_eff; rewrite Hf;
    (split; [reflexivity|]); (split; [reflexivity|]); repeat split.
Qed.

(** The payload of the ExtractFilters step, path by path. *)
Lemma filter_extraction_payload
  (w : FilterExtraction.world) (i : FilterExtraction.input) (log : list event) :
  exists d,
    FilterExtraction.handler w i log
    = (Ok tt, log ++ [{| topic := "fetch-context"; data := d |}])
    /\ ((exists df mf,
           d = [("originalMessage", VStr (FilterExtraction.originalMessage i));
                ("processedMessage", VStr (FilterExtraction.processedMessage i));
                ("timestamp", VStr (FilterExtraction.timestamp i));
                ("dateFilters", df);
                ("metadataFilters", mf);
                ("_handidFlowId", of_opt_str (FilterExtraction._handidFlowId i))])
        \/ d = [("originalMessage", VStr (FilterExtraction.originalMessage i));
                ("processedMessage", VStr (FilterExtraction.processedMessage i));
                ("timestamp", VStr (FilterExtraction.timestamp i));
                ("_handidFlowId", of_opt_str (FilterExtraction._handidFlowId i))]).
Proof.
  unfold FilterExtraction.handler, FilterExtraction.try_block,
    FilterExtraction.catch_block.
  unfold_eff.
  destruct (FilterExtraction.key_present (FilterExtraction.api_key w));
    [|eexists; split; [reflexivity | now right]].
  destruct (FilterExtraction.client_init w) as [[]|e0];
    [|eexists; split; [reflexivity | now right]].
  destruct (traceWithHandit _ _ _ _) as [r|e1] eqn:Htraced;
    [|eexists; split; [reflexivity | now right]].
  pose proof (traced_extraction_query _ _ _ _ _ Htraced) as Hq.
  destruct (member r "dateFilters") as [df|e2];
    [|eexists; split; [reflexivity | now right]].
  destruct (member r "metadataFilters") as [mf|e3];
    [|eexists; split; [reflexivity | now right]].
  rewrite Hq, or_else_same.
  eexists. split; [reflexivity|]. left. now exists df, mf.
Qed.

Lemma optional_record_inv (v : value) (a : option obj) :
  Schema.optional_record v = Some a -> Retrieval.opt_value a = v.
Proof. destruct v; intros H; inversion H; reflexivity. Qed.

Lemma retrieval_validate_normal (om pm ts : string) (df mf : value)
  (fid : option string) :
  Retrieval.validate
    [("originalMessage", VStr om); ("processedMessage", VStr pm);
     ("timestamp", VStr ts); ("dateFilters", df); ("metadataFilters", mf);
     ("_handidFlowId", of_opt_str fid)]
  = match Schema.optional_record df, Schema.optional_record mf with
    | Some a, Some b =>
        Some {| Retrieval.originalMessage := om;
                Retrieval.processedMessage := pm;
                Retrieval.timestamp := ts;
                Retrieval.dateFilters := a;
                Retrieval.metadataFilters := b;
                Retrieval._handidFlowId := fid |}
    | _, _ => None
    end.
Proof. destruct fid; reflexivity. Qed.

Lemma retrieval_validate_fallback (om pm ts : string) (fid : option string) :
  Retrieval.validate
    [("originalMessage", VStr om); ("processedMessage", VStr pm);
     ("timestamp", VStr ts); ("_handidFlowId", of_opt_str fid)]
  = Some {| Retrieval.originalMessage := om;
            Retrieval.processedMessage := pm;
            Retrieval.timestamp := ts;
            Retrieval.dateFilters := None;
            Retrieval.metadataFilters := None;
            Retrieval._handidFlowId := fid |}.
Proof. destruct fid; reflexivity. Qed.

(** X17: the event of the ExtractFilters step passes the input schema of
    the Retrieve step exactly when each of the two filters it carries is
    absent or a plain object; the fallback event always passes. When it
    passes, Retrieve receives the messages, the timestamp, the id and the
    filters as they were emitted. *)
Theorem extraction_event_and_retrieval_schema
  (w : FilterExtraction.world) (i : FilterExtraction.input) (log : list event) :
  exists d,
    FilterExtraction.handler w i log
    = (Ok tt, log ++ [{| topic := "fetch-context"; data := d |}])
    /\ (Retrieval.validate d = None
        <-> Schema.optional_record (get_prop "dateFilters" d) = None
            \/ Schema.optional_record (get_prop "metadataFilters" d) = None)
    /\ (has_prop "dateFilters" d = false -> Retrieval.validate d <> None)
    /\ forall i', Retrieval.validate d = Some i' ->
         Retrieval.originalMessage i' = FilterExtraction.originalMessage i
         /\ Retrieval.processedMessage i' = FilterExtraction.processedMessage i
         /\ Retrieval.timestamp i' = FilterExtraction.timestamp i
         /\ Retrieval._handidFlowId i' = FilterExtraction._handidFlowId i
         /\ Retrieval.opt_value (Retrieval.dateFilters i')
            = get_prop "dateFilters" d
         /\ Retrieval.opt_value (Retrieval.metadataFilters i')
            = get_prop "metadataFilters" d.
Proof.
  destruct (filter_extraction_payload w i log) as [d [H [[df [mf Hd]]|Hd]]];
    exists d; (split; [exact H|]); subst d.
  - rewrite retrieval_validate_normal.
    change (get_prop "dateFilters" _) with df.
    change (get_prop "metadataFilters" _) with mf.
    destruct (Schema.optional_record df) as [a|] eqn:Hdf;
      destruct (Schema.optional_record mf) as [b|] eqn:Hmf.
    + split; [split; [discriminate | intros [Hx|Hx]; discriminate Hx]|].
      split; [discriminate|].
      intros i' Hi; inversion Hi; subst i'; cbn.
      repeat split; now apply optional_record_inv.
    + split; [split; [now right | reflexivity]|].
      split; [discriminate | discriminate].
    + split; [split; [now left | reflexivity]|].
      split; [discriminate | discriminate].
    + split; [split; [now left | reflexivity]|].
      split; [discriminate | discriminate].
  - rewrite retrieval_validate_fallback.
    split; [split; [discriminate | intros [Hx|Hx]; discriminate Hx]|].
    split; [discriminate|].
    intros i' Hi; inversion Hi; subst i'; cbn. repeat split.
Qed.

(** X18: when the provider answers and [JSON.parse] reads an object whose
    [dateFilters] or [metadataFilters] is null (what the instruction
    prompt asks for when no filter is found), the ExtractFilters step
    forwards the null as it is, and the event it emits does not pass the
    input schema of the Retrieve step, whose filters are optional records:
    the flow stops before Retrieve. *)
Theorem null_filters_fail_the_retrieval_schema
  (w : FilterExtraction.world) (i : FilterExtraction.input) (log : list event)
  (m : message) (rest : list choice) (answer : obj) :
  FilterExtraction.key_present (FilterExtraction.api_key w) = true ->
  FilterExtraction.client_init w = Ok tt ->
  FilterExtraction.trace_fault w = None ->
  (forall system user,
      FilterExtraction.completions_create w system user
      = Ok {| choices := {| choice_message := Some m |} :: rest |}) ->
  (forall text, FilterExtraction.JSON_parse w text = Ok (VObj answer)) ->
  get_prop "dateFilters" answer = VNull
  \/ get_prop "metadataFilters" answer = VNull ->
  exists d,
    FilterExtraction.handler w i log
    = (Ok tt, log ++ [{| topic := "fetch-context"; data := d |}])
    /\ get_prop "dateFilters" d = get_prop "dateFilters" answer
    /\ get_prop "metadataFilters" d = get_prop "metadataFilters" answer
    /\ Retrieval.validate d = None.
Proof.
  intros Hkey Hinit Hfault Hcomp Hparse Hnull.
  unfold FilterExtraction.handler, FilterExtraction.try_block,
    FilterExtraction.catch_block, traceWithHandit, traceAgentNode,
    FilterExtraction.extractFilters, FilterExtraction.parse_answer.
  unfold_eff.
  rewrite Hkey, Hinit, Hfault, Hcomp. cbn [choices].
  rewrite Hparse. cbn [assign_member].
  assert (Hget : forall k,
             ("_handidFlowId" =? k)%string = false ->
             ("extractedQuery" =? k)%string = false ->
             member (attach_flow_id (FilterExtraction._handidFlowId i)
                       (VObj (set_prop "extractedQuery"
                                (VStr (FilterExtraction.processedMessage i))
                                answer))) k
             = Ok (get_prop k answer)).
  { intros k H1 H2. rewrite attach_flow_id_other by exact H1.
    cbn [member]. now rewrite get_set_other. }
  rewrite !Hget by reflexivity.
  assert (Hq : member (attach_flow_id (FilterExtraction._handidFlowId i)
                         (VObj (set_prop "extractedQuery"
                                  (VStr (FilterExtraction.processedMessage i))
                                  answer))) "extractedQuery"
               = Ok (VStr (FilterExtraction.processedMessage i))).
  { rewrite attach_flow_id_other by reflexivity.
    cbn [member]. now rewrite get_set_same. }
  rewrite Hq, or_else_same.
  eexists. split; [reflexivity|]. split; [reflexivity|]. split; [reflexivity|].
  rewrite retrieval_validate_normal.
  destruct Hnull as [Hn|Hn]; rewrite Hn; cbn [Schema.optional_record];
    [reflexivity|].
  now destruct (Schema.optional_record (get_prop "dateFilters" answer)).
Qed.

Lemma null_filters_fail_the_retrieval_schema_witness :
  exists d,
    FilterExtraction.handler Samples.rewriting_llm Samples.a_filter_input []
    = (Ok tt, [] ++ [{| topic := "fetch-context"; data := d |}])
    /\ get_prop "dateFilters" d = VObj [("date_str", VStr "2023-05-15")]
    /\ get_prop "metadataFilters" d = VNull
    /\ Retrieval.validate d = None.
Proof.
  apply (null_filters_fail_the_retrieval_schema
           Samples.rewriting_llm Samples.a_filter_input []
           {| content := Some "{...}" |} []
           [("dateFilters", VObj [("date_str", VStr "2023-05-15")]);
            ("metadataFilters", VNull);
            ("extractedQuery", VStr "failures")]);
    try reflexivity.
  right. reflexivity.
Defined.

(** ** The context the Retrieve step emits *)

(** X19: when every call succeeds and every match of the store maps to an
    item, the context the Retrieve step emits has exactly one item per
    match, in the order of the store, each built from the match at the
    same place; nothing is filtered, re-ranked or cut. *)
Theorem retrieved_context_follows_the_matches
  (w : Retrieval.world) (i : Retrieval.input) (log : list event)
  (l : list value) :
  store_answers w i l ->
  Forall (fun m => exists x, Retrieval.to_context_item m = Ok x) l ->
  exists d xs,
    Retrieval.handler w i log
    = (Ok tt, log ++ [{| topic := "context-retrieved"; data := d |}])
    /\ get_prop "context" d = VArr xs []
    /\ length xs = length l
    /\ Forall2 (fun m x => Retrieval.to_context_item m = Ok x) l xs
    /\ get_prop "dateFilters" d = Retrieval.opt_value (Retrieval.dateFilters i)
    /\ get_prop "metadataFilters" d
       = Retrieval.opt_value (Retrieval.metadataFilters i).
Proof.
  intros Hstore Hall.
  assert (Hmap : exists xs, Retrieval.map_items l = Ok xs).
  { clear Hstore. induction Hall as [|m l [x Hx] _ [xs IH]].
    - now exists [].
    - exists (x :: xs). cbn [Retrieval.map_items]. now rewrite Hx, IH. }
  destruct Hmap as [xs Hxs].
  rewrite (retrieval_answered w i log l Hstore), Hxs.
  apply map_items_ok in Hxs.
  eexists. exists xs. split; [reflexivity|]. split; [reflexivity|].
  split; [symmetry; exact (Forall2_length Hxs)|].
  split; [exact Hxs|]. split; reflexivity.
Qed.

Lemma retrieved_context_follows_the_matches_witness :
  exists d xs,
    Retrieval.handler (Samples.store_with [Samples.an_entry; Samples.an_insight])
      Samples.a_retrieval_input []
    = (Ok tt, [] ++ [{| topic := "context-retrieved"; data := d |}])
    /\ get_prop "context" d = VArr xs []
    /\ length xs = length [Samples.an_entry; Samples.an_insight]
    /\ Forall2 (fun m x => Retrieval.to_context_item m = Ok x)
         [Samples.an_entry; Samples.an_insight] xs
    /\ get_prop "dateFilters" d
       = Retrieval.opt_value (Retrieval.dateFilters Samples.a_retrieval_input)
    /\ get_prop "metadataFilters" d
       = Retrieval.opt_value (Retrieval.metadataFilters Samples.a_retrieval_input).
Proof.
  apply (retrieved_context_follows_the_matches
           (Samples.store_with [Samples.an_entry; Samples.an_insight])
           Samples.a_retrieval_input []
           [Samples.an_entry; Samples.an_insight]).
  - repeat split. eexists. eexists. eexists.
    split; [reflexivity|]. split; reflexivity.
  - repeat constructor; eexists; reflexivity.
Defined.

(** X20: when every call succeeds but one match of the store has no
    metadata (or is itself null), the whole context is lost: the step
    emits the fallback payload with the empty context, whatever the other
    matches are. *)
Theorem one_bad_match_empties_the_context
  (w : Retrieval.world) (i : Retrieval.input) (log : list event)
  (l : list value) :
  store_answers w i l ->
  Exists (fun m => member_opt m "metadata" = VUndefined
                   \/ member_opt m "metadata" = VNull) l ->
  Retrieval.handler w i log
  = (Ok tt, log ++ [{| topic := "context-retrieved";
                       data := Retrieval.fallback_data i |}])
  /\ get_prop "context" (Retrieval.fallback_data i) = VArr [] [].
Proof.
  intros Hstore Hbad. split; [|reflexivity].
  rewrite (retrieval_answered w i log l Hstore).
  destruct (map_items_throw l) as [e He]; [|now rewrite He].
  apply Exists_exists in Hbad. destruct Hbad as [m [Hin Hm]].
  apply Exists_exists. exists m. split; [exact Hin|].
  unfold Retrieval.to_context_item.
  destruct m; cbn in Hm |- *;
    try (eexists; reflexivity);
    destruct Hm as [Hm|Hm]; try discriminate Hm;
    rewrite Hm; eexists; reflexivity.
Qed.

Lemma one_bad_match_empties_the_context_witness :
  Retrieval.handler
    (Samples.store_with
       [Samples.an_entry; VObj [("id", VStr "entry-9"); ("score", VNum 1)]])
    Samples.a_retrieval_input []
  = (Ok tt, [] ++ [{| topic := "context-retrieved";
                      data := Retrieval.fallback_data Samples.a_retrieval_input |}])
  /\ get_prop "context" (Retrieval.fallback_data Samples.a_retrieval_input)
     = VArr [] [].
Proof.
  apply (one_bad_match_empties_the_context
           (Samples.store_with
              [Samples.an_entry; VObj [("id", VStr "entry-9"); ("score", VNum 1)]])
           Samples.a_retrieval_input []
           [Samples.an_entry; VObj [("id", VStr "entry-9"); ("score", VNum 1)]]).
  - repeat split. eexists. eexists. eexists.
    split; [reflexivity|]. split; reflexivity.
  - apply Exists_cons_tl, Exists_cons_hd. now left.
Defined.

(** ** What the LLM extraction does with a bad answer *)

(** X21: [extractFilters] raises only what the completion call raises. An
    answer without a choice, a choice without a message, a content that
    [JSON.parse] refuses, and a parsed value that is not an object (null,
    a number, a string, a boolean) all give the fallback result: no
    filters and the original message as query. *)
Theorem extraction_survives_a_bad_answer
  (w : FilterExtraction.world) (msg prompt : string) :
  (forall e,
      FilterExtraction.extractFilters w msg prompt = Throw e
      <-> FilterExtraction.completions_create w prompt
            ("Extract filters from this query: " ++ FilterExtraction.quoted msg)
          = Throw e)
  /\ (forall rest,
        FilterExtraction.parse_answer w msg {| choices := [] |}
        = FilterExtraction.fallback_filters msg
        /\ FilterExtraction.parse_answer w msg
             {| choices := {| choice_message := None |} :: rest |}
           = FilterExtraction.fallback_filters msg)
  /\ (forall m rest response,
        response = {| choices := {| choice_message := Some m |} :: rest |} ->
        match FilterExtraction.JSON_parse w
                match content m with
                | Some c => if truthy (VStr c) then c else "{}"
                | None => "{}"
                end with
        | Throw _ | Ok VUndefined | Ok VNull | Ok (VBool _) | Ok (VNum _)
        | Ok (VStr _) =>
            FilterExtraction.parse_answer w msg response
            = FilterExtraction.fallback_filters msg
        | Ok (VObj o) =>
            FilterExtraction.parse_answer w msg response
            = VObj (set_prop "extractedQuery" (VStr msg) o)
        | Ok (VArr items o) =>
            FilterExtraction.parse_answer w msg response
            = VArr items (set_prop "extractedQuery" (VStr msg) o)
        end).
Proof.
  split; [|split].
  - intros e. unfold FilterExtraction.extractFilters.
    destruct (FilterExtraction.completions_create w prompt _) as [r|e'].
    + split; discriminate.
    + split; intros H; inversion H; reflexivity.
  - intros rest. split; reflexivity.
  - intros m rest response ->. unfold FilterExtraction.parse_answer.
    cbn [choices].
    destruct (FilterExtraction.JSON_parse w _) as [[]|e]; reflexivity.
Qed.

(** ** The filter of the Retrieve step *)

Lemma copy_if_truthy_absent (src : obj) (k : string) (filters : obj) :
  has_prop k filters = false ->
  Retrieval.copy_if_truthy src k filters
  = filters ++ (if truthy (get_prop k src) then [(k, get_prop k src)] else []).
Proof.
  intros H. unfold Retrieval.copy_if_truthy.
  destruct (truthy (get_prop k src)).
  - now apply set_prop_absent.
  - now rewrite app_nil_r.
Qed.

(** X22: the filter the Retrieve step builds is made of the truthy values
    of six fields and of nothing else: [year], [month], [day], [date_str]
    of the date filters, then [environment], [status] of the metadata
    filters, one single-key object per field, in that order, under
    [$and]; a field that is missing, zero or the empty string is left
    out, every other key is ignored, and with nothing left the filter is
    undefined, not an empty conjunction. *)
Theorem step_filter_is_the_truthy_whitelist
  (dateFilters metadataFilters : option obj) :
  Retrieval.buildFilterExpression dateFilters metadataFilters
  = match truthy_fields dateFilters step_date_fields
          ++ truthy_fields metadataFilters step_metadata_fields with
    | [] => VUndefined
    | kv :: rest =>
        VObj [("$and", VArr (map (fun p => VObj [p]) (kv :: rest)) [])]
    end.
Proof.
  unfold Retrieval.buildFilterExpression, truthy_fields,
    step_date_fields, step_metadata_fields, Retrieval.copy_if_truthy.
  cbn [flat_map].
  destruct dateFilters as [df|]; destruct metadataFilters as [mf|];
    repeat match goal with
           | |- context [truthy (get_prop ?k ?o)] =>
               destruct (truthy (get_prop k o))
           end;
    reflexivity.
Qed.

(** ** The context block of the prompt *)

Lemma contains_refl (s : string) : contains s s.
Proof.
  exists EmptyString, EmptyString. simpl.
  induction s as [|c s IH]; simpl; [reflexivity | now rewrite <- IH].
Qed.

Lemma contains_append_r (a s pat : string) :
  contains s pat -> contains (a ++ s) pat.
Proof.
  intros [pre [post H]]. exists (a ++ pre)%string, post.
  now rewrite H, append_assoc.
Qed.

Lemma contains_append_l (s b pat : string) :
  contains s pat -> contains (s ++ b) pat.
Proof.
  intros [pre [post H]]. exists pre, (post ++ b)%string.
  now rewrite H, !append_assoc.
Qed.

Lemma contains_trans (s mid pat : string) :
  contains s mid -> contains mid pat -> contains s pat.
Proof.
  intros [pre [post H]] Hm. rewrite H.
  now apply contains_append_r, contains_append_l.
Qed.

Lemma contains_head2 (a b c : string) : contains (a ++ b ++ c) (a ++ b).
Proof. exists EmptyString, c. simpl. now rewrite append_assoc. Qed.

Lemma insight_match {T : Type} (v : value) (X Y : T) :
  match v with
  | VStr "insight" => X
  | _ => Y
  end = if is_insight v then X else Y.
Proof.
  unfold is_insight. destruct v as [| | | |s| |]; try reflexivity.
  repeat (destruct s as [|[[] [] [] [] [] [] [] []] s]; try reflexivity).
Qed.

Lemma format_items_keeps_blocks (w : Generation.world) (items : list obj)
  (text : string) :
  Generation.format_items w items = Ok text ->
  forall item, In item items ->
    exists block, Generation.format_item w item = Ok block
                  /\ contains text block.
Proof.
  revert text. induction items as [|it rest IH]; intros text H item Hin.
  - destruct Hin.
  - cbn [Generation.format_items] in H.
    destruct (Generation.format_item w it) as [block|e] eqn:Hb; [|discriminate].
    destruct rest as [|it' rest'].
    + inversion H; subst text. destruct Hin as [<-|[]].
      exists block. split; [exact Hb | apply contains_refl].
    + destruct (Generation.format_items w (it' :: rest')) as [tail|e] eqn:Ht;
        [|discriminate].
      inversion H; subst text. destruct Hin as [<-|Hin].
      * exists block. split; [exact Hb|].
        apply contains_append_l, contains_refl.
      * destruct (IH tail eq_refl item Hin) as [b [Hbl Hc]].
        exists b. split; [exact Hbl|].
        apply contains_append_r.
        change (contains (Generation.nl ++ Generation.nl ++ tail) b).
        now do 2 apply contains_append_r.
Qed.

Lemma format_item_pieces (w : Generation.world) (item : obj) (block : string) :
  Generation.format_item w item = Ok block ->
  exists score,
    Generation.toFixed2 w (get_prop "score" item) = Ok score
    /\ block =
       if is_insight (get_prop "type" item)
       then ("--- Previous Insight ---" ++ Generation.nl
             ++ "Problem: " ++ Generation.to_text w (get_prop "problem" item)
             ++ Generation.nl
             ++ "Solution: " ++ Generation.to_text w (get_prop "solution" item)
             ++ Generation.nl
             ++ "Date: " ++ Generation.to_text w (get_prop "created_at" item)
             ++ Generation.nl
             ++ "Similarity Score: " ++ score ++ Generation.nl
             ++ "-------------------------")%string
       else ("--- Previous User Query ---" ++ Generation.nl
             ++ "User: " ++ Generation.to_text w (get_prop "input" item)
             ++ Generation.nl
             ++ "Agent: " ++ Generation.to_text w (get_prop "output" item)
             ++ Generation.nl
             ++ "Date: " ++ Generation.to_text w (get_prop "created_at" item)
             ++ Generation.nl
             ++ "Similarity Score: " ++ score ++ Generation.nl
             ++ "-------------------------")%string.
Proof.
  unfold Generation.format_item.
  destruct (Generation.toFixed2 w (get_prop "score" item)) as [score|e];
    [|discriminate].
  rewrite insight_match.
  destruct (is_insight (get_prop "type" item));
    intros H; exists score; (split; [reflexivity|]);
    injection H as <-; reflexivity.
Qed.

(** X23: the context block keeps every item: when formatting succeeds,
    the text holds, for each item of the context, its block in full, with
    the text of its [input] and [output] after "User: " and "Agent: ", or
    the text of its [problem] and [solution] for an insight, and the score
    as [toFixed(2)] gave it; nothing is cut. *)
Theorem formatted_context_keeps_every_item
  (w : Generation.world) (items : list obj) (text : string) (item : obj) :
  Generation.formatContext w (Some items) = Ok text ->
  In item items ->
  exists score,
    Generation.toFixed2 w (get_prop "score" item) = Ok score
    /\ contains text ("Similarity Score: " ++ score)
    /\ match get_prop "type" item with
       | VStr "insight" =>
           contains text
             ("Problem: " ++ Generation.to_text w (get_prop "problem" item))
           /\ contains text
                ("Solution: " ++ Generation.to_text w (get_prop "solution" item))
       | _ =>
           contains text
             ("User: " ++ Generation.to_text w (get_prop "input" item))
           /\ contains text
                ("Agent: " ++ Generation.to_text w (get_prop "output" item))
       end.
Proof.
  intros H Hin.
  assert (Hitems : Generation.format_items w items = Ok text).
  { destruct items; [destruct Hin | exact H]. }
  destruct (format_items_keeps_blocks w items text Hitems item Hin)
    as [block [Hb Hc]].
  destruct (format_item_pieces w item block Hb) as [score [Hs Hblock]].
  exists score. split; [exact Hs|].
  assert (Hin_block : forall p, contains block p -> contains text p).
  { intros p Hp. exact (contains_trans _ _ _ Hc Hp). }
  rewrite insight_match.
  destruct (is_insight (get_prop "type" item));
    (split; [|split]); apply Hin_block; rewrite Hblock.
  - do 11 apply contains_append_r. apply contains_head2.
  - do 2 apply contains_append_r. apply contains_head2.
  - do 5 apply contains_append_r. apply contains_head2.
  - do 11 apply contains_append_r. apply contains_head2.
  - do 2 apply contains_append_r. apply contains_head2.
  - do 5 apply contains_append_r. apply contains_head2.
Qed.

Lemma formatted_context_keeps_every_item_witness :
  exists score,
    Generation.toFixed2 Samples.plain_generation
      (get_prop "score" Samples.an_entry_item) = Ok score
    /\ contains Samples.a_context_block ("Similarity Score: " ++ score)
    /\ match get_prop "type" Samples.an_entry_item with
       | VStr "insight" =>
           contains Samples.a_context_block
             ("Problem: "
              ++ Generation.to_text Samples.plain_generation
                   (get_prop "problem" Samples.an_entry_item))
           /\ contains Samples.a_context_block
                ("Solution: "
                 ++ Generation.to_text Samples.plain_generation
                      (get_prop "solution" Samples.an_entry_item))
       | _ =>
           contains Samples.a_context_block
             ("User: "
              ++ Generation.to_text Samples.plain_generation
                   (get_prop "input" Samples.an_entry_item))
           /\ contains Samples.a_context_block
                ("Agent: "
                 ++ Generation.to_text Samples.plain_generation
                      (get_prop "output" Samples.an_entry_item))
       end.
Proof.
  apply (formatted_context_keeps_every_item Samples.plain_generation
           [Samples.an_entry_item; Samples.an_insight_item]
           Samples.a_context_block Samples.an_entry_item).
  - vm_compute. reflexivity.
  - left. reflexivity.
Defined.


(** ** The batches of the upload script *)

Lemma firstn_add_skipn {A : Type} (a b : nat) (l : list A) :
  firstn (a + b) l = firstn a l ++ firstn b (skipn a l).
Proof.
  revert l. induction a as [|a IH]; intros l; [reflexivity|].
  destruct l as [|x l]; cbn [Nat.add firstn skipn app].
  - now rewrite firstn_nil.
  - now rewrite IH.
Qed.

Lemma batch_at_firstn {A : Type} (l : list A) (i : nat) :
  DataUpload.batch_at l i
  = firstn DataUpload.batchSize (skipn (i * DataUpload.batchSize) l).
Proof.
  unfold DataUpload.batch_at, DataUpload.slice.
  destruct (Nat.le_gt_cases (i * DataUpload.batchSize + DataUpload.batchSize)
              (length l)) as [Hle|Hgt].
  - rewrite Nat.min_l by exact Hle. f_equal. lia.
  - rewrite Nat.min_r by lia.
    rewrite (firstn_all2 (n := DataUpload.batchSize))
      by (rewrite length_skipn; lia).
    apply firstn_all2. rewrite length_skipn. lia.
Qed.

Lemma concat_batches_prefix {A : Type} (l : list A) (m : nat) :
  concat (map (DataUpload.batch_at l) (seq 0 m))
  = firstn (m * DataUpload.batchSize) l.
Proof.
  induction m as [|m IH]; [reflexivity|].
  rewrite seq_S, map_app, concat_app, IH. cbn [Nat.add map concat].
  rewrite app_nil_r, batch_at_firstn.
  replace (S m * DataUpload.batchSize)
    with (m * DataUpload.batchSize + DataUpload.batchSize) by lia.
  now rewrite firstn_add_skipn.
Qed.

Lemma batch_count_bounds (n : nat) :
  n <= DataUpload.batch_count n * DataUpload.batchSize
  /\ forall i, i < DataUpload.batch_count n -> i * DataUpload.batchSize < n.
Proof.
  unfold DataUpload.batch_count, DataUpload.batchSize.
  pose proof (Nat.div_mod_eq n 100) as Hdm.
  pose proof (Nat.mod_upper_bound n 100 ltac:(lia)) as Hmod.
  destruct (n mod 100 =? 0)%nat eqn:Hz.
  - apply Nat.eqb_eq in Hz. split; [lia | intros i Hi; nia].
  - apply Nat.eqb_neq in Hz. split; [lia | intros i Hi; nia].
Qed.

(** X24: the batches of the upload loop cut the processed entries into
    consecutive pieces: put end to end they give the list back, no entry
    lost, repeated or moved; there are [Math.ceil(n / 100)] of them; none
    is empty and none has more than 100 entries; every batch but the last
    has exactly 100. *)
Theorem upload_batches_partition {A : Type} (l : list A) :
  concat (DataUpload.batches l) = l
  /\ length (DataUpload.batches l) = DataUpload.batch_count (length l)
  /\ Forall (fun b => 1 <= length b <= DataUpload.batchSize)
       (DataUpload.batches l)
  /\ forall i, S i < DataUpload.batch_count (length l) ->
               length (nth i (DataUpload.batches l) []) = DataUpload.batchSize.
Proof.
  destruct (batch_count_bounds (length l)) as [Hcover Hstart].
  unfold DataUpload.batches. split; [|split; [|split]].
  - rewrite concat_batches_prefix. now apply firstn_all2.
  - now rewrite length_map, length_seq.
  - apply Forall_forall. intros b Hb. apply in_map_iff in Hb.
    destruct Hb as [i [<- Hi]]. apply in_seq in Hi.
    specialize (Hstart i ltac:(lia)).
    rewrite batch_at_firstn, length_firstn, length_skipn. lia.
  - intros i Hi.
    assert (Hnext : S i * DataUpload.batchSize < length l)
      by (apply Hstart; exact Hi).
    replace (@nil A) with (DataUpload.batch_at l (length l)).
    + rewrite map_nth, seq_nth by lia. cbn [Nat.add].
      rewrite batch_at_firstn, length_firstn, length_skipn.
      unfold DataUpload.batchSize in *. lia.
    + rewrite batch_at_firstn, skipn_all2; [now rewrite firstn_nil|].
      unfold DataUpload.batchSize. nia.
Qed.

Lemma map_result_ok {A B : Type} (f : A -> result B) (l : list A) (ys : list B) :
  DataUpload.map_result f l = Ok ys <-> Forall2 (fun x y => f x = Ok y) l ys.
Proof.
  revert ys. induction l as [|x l IH]; intros ys; cbn [DataUpload.map_result].
  - split; [intros H; inversion H; constructor | intros H; now inversion H].
  - unfold and_then. destruct (f x) as [y|e] eqn:Hx.
    + destruct (DataUpload.map_result f l) as [zs|e] eqn:Hl.
      * split.
        -- intros H; inversion H; subst. constructor; [exact Hx | now apply IH].
        -- intros H; inversion H as [|? y' ? zs' Hy Hrest]; subst.
           rewrite Hx in Hy; inversion Hy; subst.
           apply IH in Hrest. now inversion Hrest.
      * split; [discriminate|].
        intros H; inversion H as [|? y' ? zs' Hy Hrest]; subst.
        apply IH in Hrest. discriminate Hrest.
    + split; [discriminate|].
      intros H; inversion H as [|? y' ? zs' Hy Hrest]; subst. congruence.
Qed.

Lemma upload_batch_cases (w : DataUpload.world) (b : list obj)
  (calls : list (list value)) :
  DataUpload.upload_batch w b calls
  = match DataUpload.map_result (DataUpload.entry_vector w) b with
    | Ok vectors => (DataUpload.upsert w vectors, calls ++ [vectors])
    | Throw e => (Throw e, calls)
    end.
Proof.
  unfold DataUpload.upload_batch. unfold_eff.
  destruct (DataUpload.map_result (DataUpload.entry_vector w) b) as [vs|e];
    [|reflexivity].
  now destruct (DataUpload.upsert w vs) as [[]|e].
Qed.

(** X25: the upload loop sends the batches in order and never takes
    anything back. The batches before the first failure are embedded entry
    by entry and upserted, one upsert per batch, in order; when the loop
    returns these are all the batches. When it raises, it stops at the
    first batch that fails: if the vectors of that batch cannot be built no
    upsert is made for it, if its upsert fails that upsert is the last one
    made and the loop raises what the upsert raised; no later batch is
    embedded or upserted, and the earlier upserts stay as they are. (Which
    of several failing entries of one batch gives the exception is not
    stated.) *)
Theorem upload_loop_stops_at_the_first_failure
  (w : DataUpload.world) (bs : list (list obj)) (calls : list (list value)) :
  exists sent,
    Forall2
      (fun b vs =>
         Forall2 (fun entry v => DataUpload.entry_vector w entry = Ok v) b vs
         /\ DataUpload.upsert w vs = Ok tt)
      (firstn (length sent) bs) sent
    /\ match fst (DataUpload.upload_batches w bs calls) with
       | Ok _ =>
           length sent = length bs
           /\ snd (DataUpload.upload_batches w bs calls) = calls ++ sent
       | Throw e =>
           exists b,
             nth_error bs (length sent) = Some b
             /\ (((exists e',
                      DataUpload.map_result (DataUpload.entry_vector w) b
                      = Throw e')
                  /\ snd (DataUpload.upload_batches w bs calls) = calls ++ sent)
                 \/ exists vs,
                      Forall2
                        (fun entry v => DataUpload.entry_vector w entry = Ok v)
                        b vs
                      /\ DataUpload.upsert w vs = Throw e
                      /\ snd (DataUpload.upload_batches w bs calls)
                         = calls ++ sent ++ [vs])
       end.
Proof.
  revert calls. induction bs as [|b bs IH]; intros calls.
  - exists []. cbn. rewrite app_nil_r. repeat split; constructor.
  - cbn [DataUpload.upload_batches]. unfold bind.
    rewrite upload_batch_cases.
    destruct (DataUpload.map_result (DataUpload.entry_vector w) b)
      as [vs|e] eqn:Hvs.
    + pose proof (proj1 (map_result_ok _ _ _) Hvs) as Hall.
      destruct (DataUpload.upsert w vs) as [[]|e] eqn:Hup.
      * destruct (IH (calls ++ [vs])) as [sent [Hsent Hfst]].
        exists (vs :: sent). cbn [length firstn nth_error].
        split; [constructor; [now split | exact Hsent]|].
        destruct (fst (DataUpload.upload_batches w bs (calls ++ [vs])))
          as [[]|e].
        -- destruct Hfst as [Hlen Hsnd]. split; [now rewrite Hlen|].
           now rewrite Hsnd, <- app_assoc.
        -- destruct Hfst as [b' [Hnth Hcase]]. exists b'.
           split; [exact Hnth|].
           destruct Hcase as [[Hfail Hsnd]|[vs' [Hall' [Hup' Hsnd]]]].
           ++ left. split; [exact Hfail|]. now rewrite Hsnd, <- app_assoc.
           ++ right. exists vs'. split; [exact Hall'|]. split; [exact Hup'|].
              now rewrite Hsnd, <- app_assoc.
      * exists []. cbn [length firstn nth_error fst snd app].
        split; [constructor|]. exists b. split; [reflexivity|].
        right. exists vs. now repeat split.
    + exists []. cbn [length firstn nth_error fst snd app].
      split; [constructor|]. exists b. split; [reflexivity|].
      left. split; [now exists e | now rewrite app_nil_r].
Qed.

(** ** The messages of an uploaded entry *)

Lemma member_ok (v x : value) (k : string) :
  member v k = Ok x -> member_opt v k = x.
Proof. destruct v; cbn; intros H; now inversion H. Qed.

Lemma str_is_spec (lit : string) (v : value) :
  DataUpload.str_is lit v = true <-> v = VStr lit.
Proof.
  destruct v; cbn; try (split; [discriminate | intros H; discriminate H]).
  rewrite String.eqb_eq. split; [now intros -> | intros H; now inversion H].
Qed.

Lemma str_is_not (lit : string) (v : value) :
  DataUpload.str_is lit v = false <-> v <> VStr lit.
Proof.
  rewrite <- str_is_spec. now destruct (DataUpload.str_is lit v).
Qed.

Lemma filter_items_non_file (items kept : list value) :
  DataUpload.filter_items items = Ok kept -> kept = non_file items.
Proof.
  revert kept. induction items as [|item rest IH]; intros kept;
    cbn [DataUpload.filter_items non_file filter].
  - intros H; now inversion H.
  - unfold and_then.
    destruct (member item "type") as [ty|e] eqn:Hty; [|discriminate].
    destruct (DataUpload.filter_items rest) as [kept'|e]; [|discriminate].
    apply member_ok in Hty. rewrite Hty, (IH kept' eq_refl).
    intros H; inversion H. now destruct (DataUpload.str_is "file" ty).
Qed.

(** One turn of the loop over the messages adds what the message is to
    add. *)
Lemma process_message_kept (w : DataUpload.world) (acc acc' : list value)
  (message : value) :
  DataUpload.process_message w acc message = Ok acc' ->
  exists k, kept_of w message k /\ acc' = acc ++ k.
Proof.
  unfold DataUpload.process_message, and_then.
  destruct (member message "type") as [ty|e] eqn:Hty; [|discriminate].
  apply member_ok in Hty.
  destruct (DataUpload.str_is "image_url" ty) eqn:Himg.
  { intros H; inversion H. exists []. rewrite app_nil_r.
    split; [|reflexivity]. apply kept_image.
    apply str_is_spec in Himg. congruence. }
  apply str_is_not in Himg. rewrite <- Hty in Himg.
  destruct (member message "role") as [role|e] eqn:Hrole; [|discriminate].
  apply member_ok in Hrole.
  destruct (DataUpload.str_is "system" role) eqn:Hsys.
  { intros H; inversion H. eexists. split; [|reflexivity].
    apply kept_system; [exact Himg|].
    apply str_is_spec in Hsys. congruence. }
  apply str_is_not in Hsys. rewrite <- Hrole in Hsys.
  destruct (DataUpload.str_is "user" role) eqn:Husr.
  2: { intros H; inversion H. exists []. rewrite app_nil_r.
       split; [|reflexivity]. apply kept_other; [exact Himg | exact Hsys|].
       apply str_is_not in Husr. congruence. }
  apply str_is_spec in Husr. rewrite <- Hrole in Husr.
  destruct (member_opt message "content") as [| |b|n|t|o|items props] eqn:Hc;
    try (intros H; inversion H; eexists; (split; [|reflexivity]);
         rewrite <- Hc; apply kept_user_plain;
         [exact Himg | exact Husr | rewrite Hc; discriminate]).
  destruct (DataUpload.filter_items items) as [kept|e] eqn:Hkept;
    [|discriminate].
  apply filter_items_non_file in Hkept. subst kept.
  destruct (DataUpload.map_result (DataUpload.item_text w) (non_file items))
    as [texts|e] eqn:Htexts; [|discriminate].
  apply map_result_ok in Htexts.
  pose proof (kept_user_parts w message items props texts Himg Husr Hc Htexts)
    as Hk.
  destruct (DataUpload.join " " texts) as [|ch text];
    cbn [truthy String.eqb negb]; intros H; inversion H.
  - exists []. rewrite app_nil_r. now split.
  - eexists. split; [exact Hk | reflexivity].
Qed.

Lemma process_messages_kept (w : DataUpload.world) (msgs acc out : list value) :
  DataUpload.process_messages w acc msgs = Ok out ->
  exists ks, Forall2 (kept_of w) msgs ks /\ out = acc ++ concat ks.
Proof.
  revert acc out.
  induction msgs as [|m msgs IH]; intros acc out; cbn [DataUpload.process_messages].
  - intros H; inversion H. exists []. split; [constructor|].
    cbn. now rewrite app_nil_r.
  - unfold and_then.
    destruct (DataUpload.process_message w acc m) as [acc'|e] eqn:Hm;
      [|discriminate].
    intros H. destruct (process_message_kept _ _ _ _ Hm) as [k [Hk ->]].
    destruct (IH _ _ H) as [ks [Hks ->]].
    exists (k :: ks). split; [now constructor|].
    cbn [concat]. now rewrite app_assoc.
Qed.

Lemma kept_of_shape (w : DataUpload.world) (m : value) (k : list value) :
  kept_of w m k -> length k <= 1 /\ Forall kept_message k.
Proof.
  intros [H|H1 H2|H1 H2 H3|items props texts H1 H2 H3 H4|H1 H2 H3];
    try (split; [cbn; lia | repeat constructor]).
  - eexists. now left.
  - eexists. now right.
  - destruct (DataUpload.join " " texts); split;
      [cbn; lia | constructor | cbn; lia | repeat constructor].
    eexists. now right.
Qed.

Lemma kept_messages_shape (w : DataUpload.world) (msgs : list value)
  (ks : list (list value)) :
  Forall2 (kept_of w) msgs ks ->
  length (concat ks) <= length msgs /\ Forall kept_message (concat ks).
Proof.
  induction 1 as [|m k msgs ks Hk _ [IHl IHf]]; [split; [cbn; lia | constructor]|].
  destruct (kept_of_shape w m k Hk) as [Hl Hf].
  cbn [concat length]. rewrite length_app.
  split; [lia | apply Forall_app; now split].
Qed.

(** X26: the messages kept for an entry follow the messages of the record
    one by one, in their order: each message adds what [kept_of] says and
    nothing else. So a message of type image_url and a message of a role
    other than system and user add nothing; a system message is kept with
    its content as it is; a user message is kept with its content as it
    is, or, for a content in parts, with the texts of the parts that are
    no file joined by a space, and dropped when that text is empty. At
    most one message is kept per message of the record, and every kept
    message has the role written as the literal "system" or "user". *)
Theorem processed_messages_follow_the_record
  (w : DataUpload.world) (messages processed : list value) :
  DataUpload.process_messages w [] messages = Ok processed ->
  (exists ks, Forall2 (kept_of w) messages ks /\ processed = concat ks)
  /\ length processed <= length messages
  /\ Forall kept_message processed.
Proof.
  intros H. destruct (process_messages_kept w messages [] processed H)
    as [ks [Hks ->]].
  cbn [app]. split; [now exists ks|].
  exact (kept_messages_shape w messages ks Hks).
Qed.

Lemma processed_messages_follow_the_record_witness :
  (exists ks,
      Forall2 (kept_of Samples.an_upload_world) Samples.raw_messages ks
      /\ Samples.kept_messages = concat ks)
  /\ length Samples.kept_messages <= length Samples.raw_messages
  /\ Forall kept_message Samples.kept_messages.
Proof.
  apply (processed_messages_follow_the_record Samples.an_upload_world
           Samples.raw_messages Samples.kept_messages).
  vm_compute. reflexivity.
Defined.

Example kept_messages_run :
  Samples.kept_messages
  = [DataUpload.processed_message "system" (VStr "You classify files.");
     DataUpload.processed_message "user" (VStr "Classify this file")].
Proof. vm_compute. reflexivity. Qed.


(** ** Uploaded records seen by the Retrieve step *)

Lemma get_set_if_truthy (k k' : string) (v : value) (o : obj) :
  (k' =? k)%string = false ->
  get_prop k (DataUpload.set_if_truthy k' v o) = get_prop k o.
Proof.
  intros H. unfold DataUpload.set_if_truthy.
  destruct (truthy v); [now apply get_set_other | reflexivity].
Qed.

Lemma get_set_if_defined (k k' : string) (v : value) (o : obj) :
  (k' =? k)%string = false ->
  get_prop k (DataUpload.set_if_defined k' v o) = get_prop k o.
Proof.
  intros H. unfold DataUpload.set_if_defined.
  destruct v; try reflexivity; now apply get_set_other.
Qed.

Lemma entry_metadata_field (w : DataUpload.world) (entry : obj)
  (text k : string) :
  In k ["input"; "output"; "created_at"; "problem"; "solution"; "type"] ->
  get_prop k (DataUpload.entry_metadata w entry text)
  = get_prop k
      [("type", VStr "entry");
       ("output", get_prop "output" entry);
       ("created_at", get_prop "created_at" entry)].
Proof.
  intros Hk. unfold DataUpload.entry_metadata.
  simpl in Hk.
  repeat (destruct Hk as [<-|Hk];
          [repeat first [rewrite get_set_if_truthy by reflexivity
                        | rewrite get_set_if_defined by reflexivity];
           reflexivity|]).
  contradiction.
Qed.

Lemma insight_metadata_field (w : DataUpload.world) (insight : obj) (k : string) :
  In k ["input"; "output"; "problem"; "solution"; "type"] ->
  get_prop k (DataUpload.insight_metadata w insight)
  = get_prop k
      [("type", VStr "insight");
       ("problem", get_prop "problem" insight);
       ("solution", get_prop "solution" insight)].
Proof.
  intros Hk. unfold DataUpload.insight_metadata.
  simpl in Hk.
  repeat (destruct Hk as [<-|Hk];
          [destruct (truthy (get_prop "created_at" insight));
           [destruct (DataUpload.extractDateComponents w _)|];
           rewrite ?get_set_other by reflexivity;
           rewrite get_set_if_truthy by reflexivity; reflexivity|]).
  contradiction.
Qed.

(** X27: the metadata the upload script stores has no [input] key (the
    text of an entry goes under [input_text] and [messagesJson]; an
    insight has [problem] and [solution] only). So for every match whose
    metadata is the metadata of an uploaded entry or insight, the item the
    Retrieve step builds has [input] undefined, for an insight [output]
    as well, and the item does not pass the item schema of the Generate
    step, which asks for string [input] and [output]. The other fields
    arrive as stored. *)
Theorem uploaded_metadata_has_no_input
  (w : DataUpload.world) (record : obj) (text : string) (m : value) :
  (member m "metadata" = Ok (VObj (DataUpload.entry_metadata w record text)) ->
   exists item,
     Retrieval.to_context_item m = Ok (VObj item)
     /\ get_prop "input" item = VUndefined
     /\ get_prop "output" item = get_prop "output" record
     /\ get_prop "created_at" item = get_prop "created_at" record
     /\ get_prop "type" item = VStr "entry"
     /\ Generation.item_of (VObj item) = None)
  /\ (member m "metadata" = Ok (VObj (DataUpload.insight_metadata w record)) ->
      exists item,
        Retrieval.to_context_item m = Ok (VObj item)
        /\ get_prop "input" item = VUndefined
        /\ get_prop "output" item = VUndefined
        /\ get_prop "problem" item = get_prop "problem" record
        /\ get_prop "solution" item = get_prop "solution" record
        /\ get_prop "type" item = VStr "insight"
        /\ Generation.item_of (VObj item) = None).
Proof.
  split; intros Hmd; unfold Retrieval.to_context_item; rewrite Hmd;
    cbn [member_opt]; eexists; (split; [reflexivity|]).
  - cbn [get_prop String.eqb Ascii.eqb Bool.eqb].
    rewrite !entry_metadata_field by (simpl; tauto).
    repeat split.
  - cbn [get_prop String.eqb Ascii.eqb Bool.eqb].
    rewrite !insight_metadata_field by (simpl; tauto).
    repeat split.
Qed.

(** ** The example workflow *)

Lemma traced_agent_try_block_shape (w : TracedAgent.world)
  (i : TracedAgent.input) (r : obj) :
  TracedAgent.try_block w i = Ok r ->
  exists text,
    r = [("originalMessage", VStr (TracedAgent.message_ i));
         ("generatedResponse", VStr text);
         ("timestamp", VStr (TracedAgent.timestamp i))].
Proof.
  unfold TracedAgent.try_block, and_then.
  repeat match goal with
         | |- context [match ?x with Ok _ => _ | Throw _ => _ end] =>
             destruct x; [|discriminate]
         end.
  intros H; inversion H. eexists; reflexivity.
Qed.

(** X28: the example workflow always returns an object with the message
    as it was given (not trimmed), the timestamp of the input and a string
    response; the object has an [error] field exactly when a call or a
    read of the [try] block raised, and then the response is the fixed
    apology and the error the message of what was raised. An answer
    without a choice is such a case. *)
Theorem workflow_always_answers (w : TracedAgent.world) (i : TracedAgent.input) :
  get_prop "originalMessage" (TracedAgent.metaAgentWorkflow w i)
  = VStr (TracedAgent.message_ i)
  /\ get_prop "timestamp" (TracedAgent.metaAgentWorkflow w i)
     = VStr (TracedAgent.timestamp i)
  /\ (exists text,
         get_prop "generatedResponse" (TracedAgent.metaAgentWorkflow w i)
         = VStr text)
  /\ match TracedAgent.try_block w i with
     | Ok _ => has_prop "error" (TracedAgent.metaAgentWorkflow w i) = false
     | Throw e =>
         get_prop "error" (TracedAgent.metaAgentWorkflow w i)
         = VStr (TracedAgent.error_text e)
         /\ get_prop "generatedResponse" (TracedAgent.metaAgentWorkflow w i)
            = VStr TracedAgent.apology
     end
  /\ ((forall system user,
          TracedAgent.completions_create w system user = Ok {| choices := [] |}) ->
      TracedAgent.metaAgentWorkflow w i
      = [("originalMessage", VStr (TracedAgent.message_ i));
         ("generatedResponse", VStr TracedAgent.apology);
         ("timestamp", VStr (TracedAgent.timestamp i));
         ("error",
          VStr "Cannot read properties of undefined (reading 'message')")]).
Proof.
  split; [|split; [|split; [|split]]].
  5: { intros Hempty. unfold TracedAgent.metaAgentWorkflow, TracedAgent.try_block.
       now rewrite Hempty. }
  all: unfold TracedAgent.metaAgentWorkflow;
    destruct (TracedAgent.try_block w i) as [r|e] eqn:Htry;
    [destruct (traced_agent_try_block_shape w i r Htry) as [text ->]|];
    try reflexivity; try (eexists; reflexivity); split; reflexivity.
Qed.

(** ** From the processed entries to the text that is embedded *)

Lemma get_with_date (k : string) (dc : option DataUpload.date_components)
  (o : obj) :
  In k ["id"; "messages"] ->
  get_prop k (DataUpload.with_date dc o) = get_prop k o.
Proof.
  intros Hk. unfold DataUpload.with_date. simpl in Hk.
  destruct dc; [|reflexivity].
  repeat (destruct Hk as [<-|Hk];
          [rewrite !get_set_other by reflexivity; reflexivity|]).
  contradiction.
Qed.

Lemma process_entry_shape (w : DataUpload.world) (entry processed : obj) :
  DataUpload.process_entry w entry = Ok (Some processed) ->
  exists messages pms,
    DataUpload.process_messages w [] messages = Ok pms
    /\ pms <> []
    /\ get_prop "messages" processed = VArr pms []
    /\ get_prop "id" processed = get_prop "id" entry.
Proof.
  unfold DataUpload.process_entry, and_then.
  destruct (DataUpload.JSON_parse w _) as [inputData|e]; [|discriminate].
  destruct (member inputData "messages") as [raw|e]; [|discriminate].
  destruct (DataUpload.iterate _) as [messages|e]; [|discriminate].
  destruct (DataUpload.process_messages w [] messages) as [pms|e] eqn:Hp;
    [|discriminate].
  destruct (0 <? length pms)%nat eqn:Hlen; [|discriminate].
  destruct (DataUpload.is_correct_of _) as [ic|e]; [|discriminate].
  intros H; inversion H; subst processed. clear H.
  exists messages, pms. split; [exact Hp|].
  split; [intros ->; discriminate Hlen|].
  split; rewrite get_with_date by (simpl; tauto);
    rewrite !get_set_if_truthy by reflexivity; reflexivity.
Qed.

(** The line of a kept message is its role, a colon and the text of its
    content; it raises what the conversion of the content raises. *)
Lemma message_line_kept (w : DataUpload.world) (role : string) (c : value) :
  DataUpload.message_line w (DataUpload.processed_message role c)
  = match DataUpload.text_of w c with
    | Ok text => Ok (role ++ ": " ++ text)%string
    | Throw e => Throw e
    end.
Proof.
  unfold DataUpload.message_line, DataUpload.processed_message, and_then.
  cbn [member get_prop String.eqb Ascii.eqb Bool.eqb DataUpload.text_of].
  reflexivity.
Qed.

Lemma message_lines_cases (w : DataUpload.world) (pms : list value) :
  Forall kept_message pms ->
  match DataUpload.map_result (DataUpload.message_line w) pms with
  | Ok lines => Forall2 (line_of w) pms lines
  | Throw e =>
      exists pm, In pm pms
                 /\ DataUpload.text_of w (member_opt pm "content") = Throw e
  end.
Proof.
  induction 1 as [|pm pms [c Hpm] _ IH]; [constructor|].
  cbn [DataUpload.map_result]. unfold and_then.
  assert (Hline : exists role,
            (role = "system" \/ role = "user")
            /\ pm = DataUpload.processed_message role c)
    by (destruct Hpm as [->| ->]; [exists "system" | exists "user"];
        split; auto).
  destruct Hline as [role [Hrole ->]].
  rewrite message_line_kept.
  destruct (DataUpload.text_of w c) as [text|e] eqn:Hc.
  - destruct (DataUpload.map_result (DataUpload.message_line w) pms)
      as [lines|e].
    + constructor; [|exact IH]. now exists role, c, text.
    + destruct IH as [pm [Hin Hpm']]. exists pm. split; [now right | exact Hpm'].
  - eexists. split; [now left | exact Hc].
Qed.

Lemma message_lines_ok (w : DataUpload.world) (pms : list value)
  (lines : list string) :
  Forall2 (line_of w) pms lines ->
  DataUpload.map_result (DataUpload.message_line w) pms = Ok lines.
Proof.
  induction 1 as [|pm line pms lines [role [c [text [-> [_ [Hc ->]]]]]] _ IH];
    [reflexivity|].
  cbn [DataUpload.map_result]. unfold and_then.
  now rewrite message_line_kept, Hc, IH.
Qed.

Lemma lines_in (w : DataUpload.world) (pms : list value)
  (lines : list string) (pm : value) :
  Forall2 (line_of w) pms lines -> In pm pms -> exists line, line_of w pm line.
Proof.
  induction 1 as [|pm' line pms lines Hl _ IH]; intros Hin; [destruct Hin|].
  destruct Hin as [->|Hin]; [now exists line | exact (IH Hin)].
Qed.

Lemma message_lines_total (w : DataUpload.world) (pms : list value) :
  Forall kept_message pms ->
  Forall (fun pm =>
            exists text,
              DataUpload.text_of w (member_opt pm "content") = Ok text) pms ->
  exists lines, Forall2 (line_of w) pms lines.
Proof.
  induction 1 as [|pm pms [c Hpm] _ IH]; intros Hconv.
  - exists []. constructor.
  - inversion Hconv as [|? ? [text Htext] Hrest]; subst.
    destruct (IH Hrest) as [lines Hlines].
    destruct Hpm as [->| ->]; cbn in Htext;
      eexists (_ :: lines); (constructor; [|exact Hlines]);
      eexists; exists c, text; repeat split; eauto.
Qed.

(** X29: every entry the upload loop receives comes from one record of
    the CSV, has the id of that record and at least one kept message, and
    the loop over the records adds no entry. The text to embed has one
    line per kept message, the role, a colon and the text of the content,
    and building it raises exactly when the conversion of a kept content
    to text raises: it is built whenever every kept content converts, as
    strings and the other primitives always do, and what it raises is
    what the conversion of some kept content raises (an object read from
    the record that has no callable [toString], say). *)
Theorem processed_entries_and_their_text
  (w : DataUpload.world) (records : list obj) (processed : obj) :
  In processed (DataUpload.process_entries w records) ->
  length (DataUpload.process_entries w records) <= length records
  /\ exists record pms,
       In record records
       /\ DataUpload.process_entry w record = Ok (Some processed)
       /\ get_prop "id" processed = get_prop "id" record
       /\ get_prop "messages" processed = VArr pms []
       /\ pms <> []
       /\ Forall kept_message pms
       /\ (forall text,
              DataUpload.entry_text w processed = Ok text
              <-> exists lines,
                    Forall2 (line_of w) pms lines
                    /\ text = DataUpload.join DataUpload.nl lines)
       /\ (forall e,
              DataUpload.entry_text w processed = Throw e ->
              exists pm,
                In pm pms
                /\ DataUpload.text_of w (member_opt pm "content") = Throw e)
       /\ (Forall (fun pm =>
                     exists text,
                       DataUpload.text_of w (member_opt pm "content") = Ok text)
                  pms ->
           exists text, DataUpload.entry_text w processed = Ok text)
       /\ (forall pm o e,
              In pm pms -> member_opt pm "content" = VObj o ->
              DataUpload.object_text w (VObj o) = Throw e ->
              exists e', DataUpload.entry_text w processed = Throw e').
Proof.
  intros Hin. split.
  - unfold DataUpload.process_entries. clear Hin.
    induction records as [|r rs IH]; [reflexivity|].
    cbn [flat_map length]. rewrite length_app.
    destruct (DataUpload.process_entry w r) as [[p|]|e]; cbn [length]; lia.
  - unfold DataUpload.process_entries in Hin. apply in_flat_map in Hin.
    destruct Hin as [record [Hrec Hp]].
    destruct (DataUpload.process_entry w record) as [[p|]|e] eqn:Hentry;
      [|destruct Hp|destruct Hp].
    destruct Hp as [->|[]].
    destruct (process_entry_shape _ _ _ Hentry)
      as [messages [pms [Hpms [Hne [Hmsgs Hid]]]]].
    destruct (process_messages_kept w messages [] pms Hpms) as [ks [Hks Heq]].
    cbn [app] in Heq.
    assert (Hroles : Forall kept_message pms)
      by (rewrite Heq; exact (proj2 (kept_messages_shape w messages ks Hks))).
    assert (Htext : DataUpload.entry_text w processed
                    = match DataUpload.map_result (DataUpload.message_line w) pms with
                      | Ok lines => Ok (DataUpload.join DataUpload.nl lines)
                      | Throw e => Throw e
                      end).
    { unfold DataUpload.entry_text. rewrite Hmsgs. reflexivity. }
    pose proof (message_lines_cases w pms Hroles) as Hcases.
    exists record, pms.
    do 6 (split; [assumption|]).
    split; [|split; [|split]].
    + intros text. rewrite Htext. split.
      * destruct (DataUpload.map_result (DataUpload.message_line w) pms)
          as [lines|e]; [|discriminate].
        intros H; inversion H. now exists lines.
      * intros [lines [Hlines ->]]. now rewrite (message_lines_ok w pms lines Hlines).
    + intros e. rewrite Htext.
      destruct (DataUpload.map_result (DataUpload.message_line w) pms)
        as [lines|e']; [discriminate|].
      intros H; inversion H; subst e'. exact Hcases.
    + intros Hconv.
      destruct (message_lines_total w pms Hroles Hconv) as [lines Hlines].
      rewrite Htext, (message_lines_ok w pms lines Hlines). eexists; reflexivity.
    + intros pm o e Hpm Hc Ho. rewrite Htext.
      destruct (DataUpload.map_result (DataUpload.message_line w) pms)
        as [lines|e']; [|now exists e'].
      exfalso.
      destruct (lines_in w pms lines pm Hcases Hpm)
        as [line [role [c [text [-> [_ [Hc' _]]]]]]].
      cbn in Hc. subst c. cbn in Hc'. congruence.
Qed.

Lemma processed_entries_and_their_text_witness :
  length (DataUpload.process_entries Samples.an_odd_world [Samples.a_record])
  <= length [Samples.a_record]
  /\ exists record pms,
       In record [Samples.a_record]
       /\ DataUpload.process_entry Samples.an_odd_world record
          = Ok (Some Samples.an_odd_entry)
       /\ get_prop "id" Samples.an_odd_entry = get_prop "id" record
       /\ get_prop "messages" Samples.an_odd_entry = VArr pms []
       /\ pms <> []
       /\ Forall kept_message pms
       /\ (forall text,
              DataUpload.entry_text Samples.an_odd_world Samples.an_odd_entry
              = Ok text
              <-> exists lines,
                    Forall2 (line_of Samples.an_odd_world) pms lines
                    /\ text = DataUpload.join DataUpload.nl lines)
       /\ (forall e,
              DataUpload.entry_text Samples.an_odd_world Samples.an_odd_entry
              = Throw e ->
              exists pm,
                In pm pms
                /\ DataUpload.text_of Samples.an_odd_world
                     (member_opt pm "content") = Throw e)
       /\ (Forall (fun pm =>
                     exists text,
                       DataUpload.text_of Samples.an_odd_world
                         (member_opt pm "content") = Ok text)
                  pms ->
           exists text,
             DataUpload.entry_text Samples.an_odd_world Samples.an_odd_entry
             = Ok text)
       /\ (forall pm o e,
              In pm pms -> member_opt pm "content" = VObj o ->
              DataUpload.object_text Samples.an_odd_world (VObj o) = Throw e ->
              exists e',
                DataUpload.entry_text Samples.an_odd_world Samples.an_odd_entry
                = Throw e').
Proof.
  apply (processed_entries_and_their_text Samples.an_odd_world
           [Samples.a_record] Samples.an_odd_entry).
  left. vm_compute. reflexivity.
Defined.

(** The text of the usual record is built, the text of the odd one is not:
    the system message of the odd record is kept with its object content,
    and the template literal of the upload loop raises on it. *)
Example entry_text_runs :
  DataUpload.entry_text Samples.an_upload_world Samples.a_processed_entry
  = Ok ("system: You classify files." ++ DataUpload.nl
        ++ "user: Classify this file")%string
  /\ DataUpload.entry_text Samples.an_odd_world Samples.an_odd_entry
     = Throw (JsError "Cannot convert object to primitive value").
Proof. split; vm_compute; reflexivity. Qed.
